(** * Widget orchestration core of mfe-user-journey-dashboard

    A shallow embedding of the four services of
    [src/app/widget-orchestrator/services] and of the dashboard component
    that drives them:

    - [Registry]         widget-registry.service.ts, the [widgets] Map
    - [RegistryService]  the same service with its category index
    - [Orchestrator]     widget-orchestrator.service.ts
    - [Comm]             widget-communication.service.ts
    - [Bus]              the event system of the orchestrator
    - [Layout]           dashboard-layout-manager.service.ts
    - [Dashboard]        the collision helpers of widget-dashboard.component.ts
    - [Persist]          export, import and storage of the layout manager

    The first half holds the definitions, one module per service, with the
    inputs of the worked scenarios; the second half holds the facts proved
    about them, in a module [XFacts] for each module [X].

    Conventions.  JavaScript numbers that hold grid coordinates, spans and
    timestamps are integers ([Z]).  An optional field [f?: T] is an
    [option T]; [None] is [undefined].  A JS [Map] is an insertion-ordered
    association list with unique keys ([JsMap]).  [new Date()], [Date.now()]
    and [Math.random()] are inputs of the operation that reads them.
    Handlers, hooks, render hosts and data providers are code outside the
    services: the model records what they are given or fixes what they
    answer, and they do not call back into the service.  An [async] method
    is read as running to completion. *)

From Stdlib Require Import ZArith List String Bool Lia Permutation.
From stdpp Require Import base tactics option list strings pretty gmap.

Open Scope Z_scope.
Set Warnings "-register-all".

(* ===================================================================== *)
(** * JavaScript values, objects and Maps *)
(* ===================================================================== *)

Module Js.

(** The values the services pass around as [any], as configuration objects
    and as JSON documents.  An object is the list of its own enumerable
    properties in insertion order, an array is dense.  Values are finite
    trees and numbers are integers: cyclic structures, BigInt and Symbol
    values, symbol keys, sparse arrays, invalid Dates, fractions, NaN and
    the infinities are not represented. *)
Inductive JsVal : Type :=
| JUndefined
| JNull
| JBool (b : bool)
| JNum (n : Z)
| JStr (s : string)
| JDate (iso : string)            (* a Date; [iso] is its toISOString() *)
| JFunc (ident : string)          (* a function or class reference *)
| JArr (items : list JsVal)
| JObj (props : list (string * JsVal)).

Definition Obj : Type := list (string * JsVal).

(** ToBoolean: the falsy values are undefined, null, false, 0 and the empty
    string (NaN does not occur among integers). *)
Definition truthy (v : JsVal) : bool :=
  match v with
  | JUndefined | JNull => false
  | JBool b => b
  | JNum n => negb (n =? 0)
  | JStr s => negb (String.eqb s "")
  | JDate _ | JFunc _ | JArr _ | JObj _ => true
  end.

(** Own property lookup; [getProp] is the member access [o.k]. *)
Fixpoint lookupProp (k : string) (o : Obj) : option JsVal :=
  match o with
  | [] => None
  | (k', v) :: rest => if String.eqb k k' then Some v else lookupProp k rest
  end.

Definition getProp (k : string) (o : Obj) : JsVal :=
  match lookupProp k o with Some v => v | None => JUndefined end.

(** Property assignment [o.k = v]: an existing key keeps its place. *)
Fixpoint setProp (k : string) (v : JsVal) (o : Obj) : Obj :=
  match o with
  | [] => [(k, v)]
  | (k', v') :: rest =>
      if String.eqb k k' then (k', v) :: rest else (k', v') :: setProp k v rest
  end.

(** Object spread: [spread target source] is [{ ...target, ...source }]
    once [target] has been copied; the properties of [source] are assigned
    in order. *)
Definition spread (target source : Obj) : Obj :=
  fold_left (fun acc kv => setProp (fst kv) (snd kv) acc) source target.

(** Member access on an arbitrary value: only objects have own properties
    here (reading a property of a primitive or of an array index-free key
    yields undefined; reading one of null or undefined throws, see
    [Persist.validateDashboardConfig]). *)
Definition member (k : string) (v : JsVal) : JsVal :=
  match v with
  | JObj o => getProp k o
  | _ => JUndefined
  end.

Definition isArray (v : JsVal) : bool :=
  match v with JArr _ => true | _ => false end.

(** A JS [Map<string, V>]. *)
Section JsMap.
Context {V : Type}.

Definition JsMap : Type := list (string * V).

Fixpoint mapGet (k : string) (m : JsMap) : option V :=
  match m with
  | [] => None
  | (k', v) :: rest => if String.eqb k k' then Some v else mapGet k rest
  end.

Definition mapHas (k : string) (m : JsMap) : bool :=
  match mapGet k m with Some _ => true | None => false end.

Fixpoint mapSet (k : string) (v : V) (m : JsMap) : JsMap :=
  match m with
  | [] => [(k, v)]
  | (k', v') :: rest =>
      if String.eqb k k' then (k', v) :: rest else (k', v') :: mapSet k v rest
  end.

Fixpoint mapDelete (k : string) (m : JsMap) : JsMap :=
  match m with
  | [] => []
  | (k', v') :: rest =>
      if String.eqb k k' then mapDelete k rest else (k', v') :: mapDelete k rest
  end.

Definition mapValues (m : JsMap) : list V := map snd m.

End JsMap.

Arguments JsMap V : clear implicits.

(** [Array.prototype.join]. *)
Fixpoint join (sep : string) (l : list string) : string :=
  match l with
  | [] => ""
  | [s] => s
  | s :: rest => s +:+ sep +:+ join sep rest
  end.

(** [needle] occurs in [hay]. *)
Definition occursIn (needle hay : string) : Prop :=
  exists pre post, hay = pre +:+ (needle +:+ post).

(** ** Further array and Map notions *)

(** [Array.prototype.findIndex]: [None] is -1. *)
Fixpoint findIndex {A} (f : A -> bool) (l : list A) : option nat :=
  match l with
  | [] => None
  | a :: rest => if f a then Some O else option_map S (findIndex f rest)
  end.

(** ** Thrown values

    JavaScript throws any value.  The services look at a value they have
    caught in one way only: they interpolate it into a message,
    [`... ${error}`].  That gives the string form of the value
    ("Error: ..." for an [Error]), or throws in its turn: a TypeError for
    a Symbol and for an object without [toString], and for an object with
    a [toString] of its own whatever that throws.  The conversion is taken
    to do nothing else. *)
Inductive Exception : Type :=
| Printable (text : string)          (* [`${error}`] is [text] *)
| Unprintable (raised : Exception).  (* [`${error}`] throws [raised] *)

End Js.

(* ===================================================================== *)
(** * Widget registry (widget-registry.service.ts) *)
(* ===================================================================== *)

Module Registry.
Import Js.

(** What awaiting [definition.loadComponent()] does: it resolves to a
    component class or rejects with some value. *)
Inductive Loader : Type :=
| Resolves (componentType : string)
| Rejects (error : Exception).

(** [WidgetDefinition] (widget.interface.ts).  A component class is known
    by its name; [configSchema], [icon] and [version] are never read by the
    services and are left out. *)
Record WidgetDefinition : Type := {
  type : string;
  name : string;
  description : string;
  component : option string;
  category : string;
  defaultConfig : option Obj;
  tags : option (list string);
  dependencies : option (list string);
  lazy : bool;
  loadComponent : option Loader
}.

(** The registry's [widgets] Map. The category index and the change
    subject are derived from it and are not read by the operations below. *)
Record State : Type := { widgets : JsMap WidgetDefinition }.

Definition empty : State := {| widgets := [] |}.

Definition getWidget (r : State) (ty : string) : option WidgetDefinition :=
  mapGet ty (widgets r).

Definition hasWidget (r : State) (ty : string) : bool :=
  mapHas ty (widgets r).

Definition nonEmpty (s : string) : bool := negb (String.eqb s "").

(** [validateDefinition]: the message of the error it throws, if any. *)
Definition validateDefinition (d : WidgetDefinition) : option string :=
  if negb (nonEmpty (type d)) then
    Some "Widget definition must have a type"
  else if negb (nonEmpty (name d)) then
    Some "Widget definition must have a name"
  else if match component d with
          | Some _ => false
          | None => negb (lazy d) || negb (bool_decide (is_Some (loadComponent d)))
          end then
    Some "Widget definition must have a component or lazy loading function"
  else if negb (nonEmpty (category d)) then
    Some "Widget definition must have a category"
  else if negb (bool_decide (is_Some (defaultConfig d))) then
    Some "Widget definition must have default configuration"
  else None.

(** [register]: [inl msg] when validation throws, the new registry
    otherwise (an existing type is overwritten). *)
Definition register (d : WidgetDefinition) (r : State) : string + State :=
  match validateDefinition d with
  | Some msg => inl msg
  | None => inr {| widgets := mapSet (type d) d (widgets r) |}
  end.

Definition unregister (ty : string) (r : State) : bool * State :=
  match getWidget r ty with
  | None => (false, r)
  | Some _ => (true, {| widgets := mapDelete ty (widgets r) |})
  end.

Definition getAllWidgets (r : State) : list WidgetDefinition :=
  mapValues (widgets r).

Record DependencyCheck : Type := {
  satisfied : bool;
  missing : list string
}.

(** [checkDependencies] (lines 168-184). *)
Definition checkDependencies (r : State) (ty : string) : DependencyCheck :=
  match getWidget r ty with
  | None => {| satisfied := true; missing := [] |}
  | Some definition =>
      match dependencies definition with
      | None => {| satisfied := true; missing := [] |}
      | Some deps =>
          let missing := List.filter (fun dep => negb (hasWidget r dep)) deps in
          {| satisfied := Nat.eqb (length missing) 0; missing := missing |}
      end
  end.

End Registry.

(* ===================================================================== *)
(** * The registry with its category index (widget-registry.service.ts) *)
(* ===================================================================== *)

Module RegistryService.
Import Js.
Import Registry.

(** The whole registry: the [widgets] Map, the [categories] index and the
    current value of [widgetSubject].  [config] is constant
    ([lazyLoading: true]) and is not part of the state. *)
Record Service : Type := {
  registered : JsMap WidgetDefinition;             (* this.widgets *)
  categories : JsMap (list WidgetDefinition);
  widgetSubject : list WidgetDefinition
}.

Definition created : Service :=
  {| registered := []; categories := []; widgetSubject := [] |}.

(** The [widgets] Map alone, as [Registry] has it. *)
Definition widgetsOf (s : Service) : Registry.State :=
  {| widgets := registered s |}.

Definition getWidget (s : Service) (ty : string) : option WidgetDefinition :=
  mapGet ty (registered s).

Definition hasWidget (s : Service) (ty : string) : bool :=
  mapHas ty (registered s).

Definition getAllWidgets (s : Service) : list WidgetDefinition :=
  mapValues (registered s).

(** [getWidgetsByCategory] (lines 95-97). *)
Definition getWidgetsByCategory (s : Service) (cat : string)
  : list WidgetDefinition :=
  default [] (mapGet cat (categories s)).

(** [getCategories] (lines 102-104). *)
Definition getCategories (s : Service) : list string :=
  map fst (categories s).

Definition sameType (d : WidgetDefinition) (w : WidgetDefinition) : bool :=
  String.eqb (type w) (type d).

(** [updateCategoryMapping] (lines 239-254); [placeDefinition] is what it
    does to the array of the category (lines 245-253). *)
Definition placeDefinition (d : WidgetDefinition)
    (categoryWidgets : list WidgetDefinition) : list WidgetDefinition :=
  match findIndex (sameType d) categoryWidgets with
  | Some existingIndex => <[existingIndex := d]> categoryWidgets
  | None => categoryWidgets ++ [d]
  end.

Definition updateCategoryMapping (d : WidgetDefinition)
    (cats : JsMap (list WidgetDefinition)) : JsMap (list WidgetDefinition) :=
  let cats1 := if mapHas (category d) cats then cats
               else mapSet (category d) [] cats in
  let categoryWidgets := default [] (mapGet (category d) cats1) in
  mapSet (category d) (placeDefinition d categoryWidgets) cats1.

(** [removeCategoryMapping] (lines 259-274); [spliceDefinition] is what
    it does to the array of the category (lines 262-267). *)
Definition spliceDefinition (d : WidgetDefinition)
    (categoryWidgets : list WidgetDefinition) : list WidgetDefinition :=
  match findIndex (sameType d) categoryWidgets with
  | Some index => delete index categoryWidgets
  | None => categoryWidgets
  end.

Definition removeCategoryMapping (d : WidgetDefinition)
    (cats : JsMap (list WidgetDefinition)) : JsMap (list WidgetDefinition) :=
  match mapGet (category d) cats with
  | Some categoryWidgets =>
      let spliced := spliceDefinition d categoryWidgets in
      if Nat.eqb (length spliced) 0 then mapDelete (category d) cats
      else mapSet (category d) spliced cats
  | None => cats
  end.

(** [notifyChange] (lines 279-281). *)
Definition notifyChange (s : Service) : Service :=
  {| registered := registered s; categories := categories s;
     widgetSubject := getAllWidgets s |}.

(** [register] (lines 36-54): [inl msg] when [validateDefinition] throws,
    before anything is changed. *)
Definition register (d : WidgetDefinition) (s : Service) : string + Service :=
  match validateDefinition d with
  | Some msg => inl msg
  | None =>
      inr (notifyChange
             {| registered := mapSet (type d) d (registered s);
                categories := updateCategoryMapping d (categories s);
                widgetSubject := widgetSubject s |})
  end.

(** [registerMany] (lines 59-61): [forEach] stops at the first definition
    that throws; what was registered before it stays.  The result is the
    registry left behind, with the error if there was one. *)
Fixpoint registerMany (ds : list WidgetDefinition) (s : Service)
  : option string * Service :=
  match ds with
  | [] => (None, s)
  | d :: rest =>
      match register d s with
      | inl msg => (Some msg, s)
      | inr s' => registerMany rest s'
      end
  end.

(** [unregister] (lines 66-76). *)
Definition unregister (ty : string) (s : Service) : bool * Service :=
  match getWidget s ty with
  | None => (false, s)
  | Some definition =>
      (true,
       notifyChange
         {| registered := mapDelete ty (registered s);
            categories := removeCategoryMapping definition (categories s);
            widgetSubject := widgetSubject s |})
  end.

(** [export] (lines 286-291). *)
Record Exported : Type := {
  exportedWidgets : list WidgetDefinition;
  exportedCategories : list string
}.

Definition export (s : Service) : Exported :=
  {| exportedWidgets := getAllWidgets s; exportedCategories := getCategories s |}.

(** [import] (lines 296-303); [None] is a [data] without [widgets]. *)
Definition import (ws : option (list WidgetDefinition)) (s : Service)
  : option string * Service :=
  let cleared := {| registered := []; categories := [];
                    widgetSubject := widgetSubject s |} in
  match ws with
  | Some ds => registerMany ds cleared
  | None => (None, cleared)
  end.

(** [clear] (lines 308-312). *)
Definition clear (s : Service) : Service :=
  notifyChange {| registered := []; categories := [];
                  widgetSubject := widgetSubject s |}.

(** Calls, for statements about any use of the registry. *)
Inductive Call : Type :=
| CRegister (d : WidgetDefinition)
| CRegisterMany (ds : list WidgetDefinition)
| CUnregister (ty : string)
| CImport (ws : option (list WidgetDefinition))
| CClear.

(** The registry a call leaves behind, whether it returns or throws. *)
Definition exec (c : Call) (s : Service) : Service :=
  match c with
  | CRegister d => match register d s with inr s' => s' | inl _ => s end
  | CRegisterMany ds => snd (registerMany ds s)
  | CUnregister ty => snd (unregister ty s)
  | CImport ws => snd (import ws s)
  | CClear => clear s
  end.

Definition run (calls : list Call) (s : Service) : Service :=
  fold_left (fun s c => exec c s) calls s.

(** What the registry keeps true of its two Maps. *)
Record Indexed (s : Service) : Prop := {
  idx_keys : NoDup (map fst (registered s));
  idx_keyed : forall ty d, mapGet ty (registered s) = Some d ->
                type d = ty /\ validateDefinition d = None;
  idx_listed : forall ty d, mapGet ty (registered s) = Some d ->
                 In d (getWidgetsByCategory s (category d));
  idx_cats : NoDup (map fst (categories s));
  idx_filed : forall cat l, mapGet cat (categories s) = Some l ->
                l <> [] /\ NoDup (map type l) /\
                forall d, In d l -> category d = cat
}.

(** Every definition the calls hand to the registry. *)
Definition definitionsOf (c : Call) : list WidgetDefinition :=
  match c with
  | CRegister d => [d]
  | CRegisterMany ds => ds
  | CImport (Some ds) => ds
  | CImport None | CUnregister _ | CClear => []
  end.

(** A type is always registered under the same category. *)
Definition oneCategoryPerType (ds : list WidgetDefinition) : Prop :=
  forall d1 d2, In d1 ds -> In d2 ds -> type d1 = type d2 ->
                category d1 = category d2.

(** No category lists a definition that is not the registered one of its
    type. *)
Definition staleFree (s : Service) : Prop :=
  forall cat d, In d (getWidgetsByCategory s cat) ->
                getWidget s (type d) = Some d.

(** The invariant of a registry fed from a pool of definitions in which a
    type has one category. *)
Definition fedFrom (pool : list WidgetDefinition) (s : Service) : Prop :=
  Indexed s /\ staleFree s /\
  forall ty d, getWidget s ty = Some d -> In d pool.

(** ** Scenarios *)

(** The todo widget moved to another category, and a definition without
    a name. *)
Definition todoMoved : WidgetDefinition :=
  {| type := "todo"; name := "Todo"; description := "Todo list";
     component := Some "TodoWidgetComponent"; category := "planning";
     defaultConfig := Some []; tags := None; dependencies := None;
     lazy := false; loadComponent := None |}.

Definition unnamedDefinition : WidgetDefinition :=
  {| type := "clock"; name := ""; description := "";
     component := Some "ClockComponent"; category := "misc";
     defaultConfig := Some []; tags := None; dependencies := None;
     lazy := false; loadComponent := None |}.

End RegistryService.

(* ===================================================================== *)
(** * Widget orchestrator (widget-orchestrator.service.ts) *)
(* ===================================================================== *)

Module Orchestrator.
Import Js.

Inductive WidgetState : Type :=
| INITIALIZING | LOADING | LOADED | ERROR | DESTROYED.

Record WidgetError : Type := {
  code : string;
  message : string;
  timestamp : Z;
  recoverable : bool
}.

(** [WidgetInstance] as the orchestrator owns it: the configuration is the
    plain object built by [createWidget]. *)
Record WidgetInstance : Type := {
  id : string;
  definition : Registry.WidgetDefinition;
  config : Obj;
  data : JsVal;
  state : WidgetState;
  createdAt : Z;
  updatedAt : Z;
  error : option WidgetError
}.

(** What calling into code the orchestrator does not own does: it returns,
    or it throws the value [error].  Such code is taken not to call back
    into the orchestrator. *)
Inductive Outcome : Type :=
| Returns
| Throws (error : Exception).

(** A mounted component, as far as the orchestrator probes it:
    [isObject] is [component && typeof component === 'object'], a hook is
    [None] when the component does not define it. *)
Record Component : Type := {
  isObject : bool;
  onInit : option Outcome;
  onDestroy : option Outcome
}.

Record ComponentRef : Type := {
  instance : Component;
  destroy : Outcome
}.

Record Subscription : Type := { unsubscribe : Outcome }.

(** The render host: [container.createComponent(componentType)]. *)
Definition ViewContainerRef : Type := string -> Exception + ComponentRef.

(** [WidgetDataProvider]; the values its stream pushes later are separate
    calls into the orchestrator and are not part of [getData] here. *)
Record WidgetDataProvider : Type := {
  providerName : string;
  supports : JsVal -> bool;
  getData : JsVal -> Exception + Subscription
}.

(** The service.  [instancesSubject] is what the last
    [instancesSubject.next(...)] handed to the subscribers: the instances
    in the order of the table, with the field values they had at that
    moment.  (The array itself holds the instance objects, so what is read
    through it later follows the instances; no statement below reads it
    after a later mutation.) *)
Record State : Type := {
  instances : JsMap WidgetInstance;
  componentRefs : JsMap ComponentRef;
  dataProviders : JsMap WidgetDataProvider;
  subscriptions : JsMap Subscription;
  instancesSubject : list WidgetInstance;       (* last emission *)
  errorSubject : list (string * WidgetError)    (* emissions, oldest first *)
}.

Definition initial : State :=
  {| instances := []; componentRefs := []; dataProviders := [];
     subscriptions := []; instancesSubject := []; errorSubject := [] |}.

(** The clock and the random source read by one call; the clock is taken
    not to tick while the call runs. *)
Record Env : Type := {
  now : Z;            (* Date.now(), new Date() *)
  random : string     (* Math.random().toString(36).substr(2, 9) *)
}.

(** ** Computations that mutate the service and may throw

    A thrown exception keeps the mutations made before it, as in
    JavaScript. *)
Inductive Res (A : Type) : Type :=
| Ok (a : A)
| Thrown (error : Exception).

Arguments Ok {A} a.

Arguments Thrown {A} error.

Definition M (A : Type) : Type := State -> Res A * State.

#[export] Instance M_ret : MRet M := fun A a s => (Ok a, s).

#[export] Instance M_bind : MBind M := fun A B f m s =>
  match m s with
  | (Ok a, s') => f a s'
  | (Thrown e, s') => (Thrown e, s')
  end.

Definition throw {A} (e : Exception) : M A := fun s => (Thrown e, s).

Definition gets {A} (f : State -> A) : M A := fun s => (Ok (f s), s).

Definition modify (f : State -> State) : M unit := fun s => (Ok tt, f s).

Definition tryCatch {A} (body : M A) (handler : Exception -> M A) : M A :=
  fun s =>
    match body s with
    | (Ok a, s') => (Ok a, s')
    | (Thrown e, s') => handler e s'
    end.

Definition call (o : Outcome) : M unit :=
  match o with
  | Returns => mret tt
  | Throws e => throw e
  end.

Definition callHook (h : option Outcome) : M unit :=
  match h with
  | Some o => call o
  | None => mret tt
  end.

Definition liftSum {A} (r : Exception + A) : M A :=
  match r with
  | inl e => throw e
  | inr a => mret a
  end.

(** [throw new Error(message)]. *)
Definition Error (message : string) : Exception :=
  Printable ("Error: " +:+ message).

(** [`${error}`] in a [catch] block: the string form of the caught value,
    unless the conversion throws. *)
Definition interpolate (e : Exception) : M string :=
  match e with
  | Printable text => mret text
  | Unprintable raised => throw raised
  end.

(** ** Private helpers (lines 528-581) *)

Definition isWidgetComponent (c : Component) : bool := isObject c.

Definition generateInstanceId (env : Env) (ty : string) : string :=
  ty +:+ "_" +:+ pretty (now env) +:+ "_" +:+ random env.

Definition getAllWidgets (s : State) : list WidgetInstance :=
  mapValues (instances s).

Definition setInstances (f : JsMap WidgetInstance -> JsMap WidgetInstance)
    (s : State) : State :=
  {| instances := f (instances s); componentRefs := componentRefs s;
     dataProviders := dataProviders s; subscriptions := subscriptions s;
     instancesSubject := instancesSubject s; errorSubject := errorSubject s |}.

Definition setComponentRefs (f : JsMap ComponentRef -> JsMap ComponentRef)
    (s : State) : State :=
  {| instances := instances s; componentRefs := f (componentRefs s);
     dataProviders := dataProviders s; subscriptions := subscriptions s;
     instancesSubject := instancesSubject s; errorSubject := errorSubject s |}.

Definition setSubscriptions (f : JsMap Subscription -> JsMap Subscription)
    (s : State) : State :=
  {| instances := instances s; componentRefs := componentRefs s;
     dataProviders := dataProviders s; subscriptions := f (subscriptions s);
     instancesSubject := instancesSubject s; errorSubject := errorSubject s |}.

(** Mutation of the instance object stored under [instanceId], if any. *)
Definition mutateInstance (instanceId : string)
    (f : WidgetInstance -> WidgetInstance) : M unit :=
  modify (fun s =>
    match mapGet instanceId (instances s) with
    | Some inst => setInstances (mapSet instanceId (f inst)) s
    | None => s
    end).

Definition updateInstanceState (env : Env) (instanceId : string)
    (st : WidgetState) : M unit :=
  mutateInstance instanceId (fun i =>
    {| id := id i; definition := definition i; config := config i;
       data := data i; state := st; createdAt := createdAt i;
       updatedAt := now env; error := error i |}).

Definition notifyInstancesChange : M unit :=
  modify (fun s =>
    {| instances := instances s; componentRefs := componentRefs s;
       dataProviders := dataProviders s; subscriptions := subscriptions s;
       instancesSubject := getAllWidgets s; errorSubject := errorSubject s |}).

Definition emitError (instanceId : string) (e : WidgetError) : M unit :=
  modify (fun s =>
    {| instances := instances s; componentRefs := componentRefs s;
       dataProviders := dataProviders s; subscriptions := subscriptions s;
       instancesSubject := instancesSubject s;
       errorSubject := errorSubject s ++ [(instanceId, e)] |}).

Definition handleWidgetError (env : Env) (instanceId : string)
    (e : WidgetError) : M unit :=
  mutateInstance instanceId (fun i =>
    {| id := id i; definition := definition i; config := config i;
       data := data i; state := ERROR; createdAt := createdAt i;
       updatedAt := now env; error := Some e |}) ;;
  emitError instanceId e ;;
  notifyInstancesChange.

(** String form of a value inside a template literal, for the values that
    occur as [dataSource.type]. *)
Definition templateString (v : JsVal) : string :=
  match v with
  | JStr s => s
  | JNum n => pretty n
  | JBool true => "true"
  | JBool false => "false"
  | JNull => "null"
  | JUndefined => "undefined"
  | JDate iso => iso
  | JFunc f => f
  | JArr _ => ""
  | JObj _ => "[object Object]"
  end.

(** ** Registry.loadComponent (widget-registry.service.ts, lines 133-156);
    the registry is configured with [lazyLoading: true]. *)
Definition loadComponent (reg : Registry.State) (ty : string) : M string :=
  match Registry.getWidget reg ty with
  | None => throw (Error ("Widget type '" +:+ ty +:+ "' not found"))
  | Some d =>
      match (if Registry.lazy d then Registry.loadComponent d else None) with
      | Some (Registry.Resolves c) => mret c
      | Some (Registry.Rejects e) =>
          text ← interpolate e;
          throw (Error ("Failed to load widget component '" +:+ ty +:+ "': "
                        +:+ text))
      | None =>
          match Registry.component d with
          | Some c => mret c
          | None => mret "undefined"
          end
      end
  end.

(** ** Data binding (lines 445-488) *)

Definition findDataProvider (s : State) (dataSource : JsVal)
  : option WidgetDataProvider :=
  List.find (fun p => supports p dataSource) (mapValues (dataProviders s)).

Definition setupDataBinding (inst : WidgetInstance) : M unit :=
  let dataSource := getProp "dataSource" (config inst) in
  if negb (truthy dataSource) then mret tt
  else
    provider ← gets (fun s => findDataProvider s dataSource);
    match provider with
    | None =>
        throw (Error ("No data provider found for type: " +:+
                      templateString (member "type" dataSource)))
    | Some p =>
        tryCatch
          (subscription ← liftSum (getData p dataSource);
           modify (setSubscriptions (mapSet (id inst) subscription)))
          (fun e =>
             text ← interpolate e;
             throw (Error ("Failed to setup data binding: " +:+ text)))
    end.

(** ** loadWidgetComponent (lines 138-202) *)

Definition loadWidgetComponent (reg : Registry.State) (env : Env)
    (inst : WidgetInstance) (container : ViewContainerRef) : M ComponentRef :=
  tryCatch
    (updateInstanceState env (id inst) LOADING ;;
     componentType ← loadComponent reg (Registry.type (definition inst));
     componentRef ← liftSum (container componentType);
     (let component := instance componentRef in
      if isWidgetComponent component then callHook (onInit component)
      else mret tt) ;;
     modify (setComponentRefs (mapSet (id inst) componentRef)) ;;
     (if truthy (getProp "dataSource" (config inst))
      then setupDataBinding inst else mret tt) ;;
     updateInstanceState env (id inst) LOADED ;;
     mret componentRef)
    (fun e =>
       text ← interpolate e;
       handleWidgetError env (id inst)
         {| code := "LOAD_FAILED";
            message := "Failed to load widget component: " +:+ text;
            timestamp := now env; recoverable := true |} ;;
       throw e).

(** ** createWidget (lines 67-133)

    The configuration is [{ ...definition.defaultConfig, ...config, type }].
    [Res] is the settled promise: [Ok] the returned instance, [Thrown] the
    rejection. *)
Definition mergeConfig (defaultConfig : option Obj) (overrides : Obj)
    (ty : string) : Obj :=
  setProp "type" (JStr ty)
    (spread (spread [] (default [] defaultConfig)) overrides).

Definition createWidget (reg : Registry.State) (env : Env) (ty : string)
    (overrides : Obj) (container : option ViewContainerRef)
  : M WidgetInstance :=
  tryCatch
    (match Registry.getWidget reg ty with
     | None => throw (Error ("Widget type '" +:+ ty +:+ "' not found"))
     | Some definition =>
         let depCheck := Registry.checkDependencies reg ty in
         if negb (Registry.satisfied depCheck) then
           throw (Error ("Missing widget dependencies: " +:+
                         join ", " (Registry.missing depCheck)))
         else
           let instanceId := generateInstanceId env ty in
           let widgetConfig :=
             mergeConfig (Registry.defaultConfig definition) overrides ty in
           let inst :=
             {| id := instanceId; definition := definition;
                config := widgetConfig; data := JUndefined;
                state := INITIALIZING; createdAt := now env;
                updatedAt := now env; error := None |} in
           modify (setInstances (mapSet instanceId inst)) ;;
           match container with
           | Some c => loadWidgetComponent reg env inst c ;; mret tt
           | None => mret tt
           end ;;
           updateInstanceState env instanceId LOADED ;;
           notifyInstancesChange ;;
           gets (fun s => default inst (mapGet instanceId (instances s)))
     end)
    (fun e =>
       text ← interpolate e;
       emitError ""
         {| code := "CREATION_FAILED";
            message := "Failed to create widget: " +:+ text;
            timestamp := now env; recoverable := false |} ;;
       throw e).

(** ** destroyWidget (lines 207-254) *)

(** "Clean up component" (lines 215-230). *)
Definition disposeComponent (instanceId : string) : M unit :=
  componentRef ← gets (fun s => mapGet instanceId (componentRefs s));
  match componentRef with
  | Some cref =>
      (let component := instance cref in
       if isWidgetComponent component
       then callHook (onDestroy component) else mret tt) ;;
      call (destroy cref) ;;
      modify (setComponentRefs (mapDelete instanceId))
  | None => mret tt
  end.

(** "Clean up subscriptions" (lines 233-237). *)
Definition disposeSubscription (instanceId : string) : M unit :=
  subscription ← gets (fun s => mapGet instanceId (subscriptions s));
  match subscription with
  | Some sub =>
      call (unsubscribe sub) ;;
      modify (setSubscriptions (mapDelete instanceId))
  | None => mret tt
  end.

Definition destroyWidget (env : Env) (instanceId : string) : M bool :=
  found ← gets (fun s => mapGet instanceId (instances s));
  match found with
  | None => mret false
  | Some _ =>
      tryCatch
        (disposeComponent instanceId ;;
         disposeSubscription instanceId ;;
         updateInstanceState env instanceId DESTROYED ;;
         modify (setInstances (mapDelete instanceId)) ;;
         notifyInstancesChange ;;
         mret true)
        (fun e =>
           text ← interpolate e;
           handleWidgetError env instanceId
             {| code := "DESTROY_FAILED";
                message := "Failed to destroy widget: " +:+ text;
                timestamp := now env; recoverable := false |} ;;
           mret false)
  end.

Definition getWidget (s : State) (instanceId : string) : option WidgetInstance :=
  mapGet instanceId (instances s).

Definition registerDataProvider (p : WidgetDataProvider) (s : State) : State :=
  {| instances := instances s; componentRefs := componentRefs s;
     dataProviders := mapSet (providerName p) p (dataProviders s);
     subscriptions := subscriptions s;
     instancesSubject := instancesSubject s; errorSubject := errorSubject s |}.

(** ** Specification-side notions *)

(** Deep merge, "override fields win at every nesting level": two objects
    are merged key by key, recursively; anything else is replaced by the
    override. *)
Fixpoint deepMerge (a b : JsVal) {struct a} : JsVal :=
  match a, b with
  | JObj oa, JObj ob =>
      JObj ((fix go (l : list (string * JsVal)) : list (string * JsVal) :=
               match l with
               | [] => []
               | (k, va) :: rest =>
                   (k, match lookupProp k ob with
                       | Some vb => deepMerge va vb
                       | None => va
                       end) :: go rest
               end) oa
            ++ List.filter
                 (fun kv => negb (bool_decide (is_Some (lookupProp (fst kv) oa))))
                 ob)
  | _, _ => b
  end.

Definition returns (o : Outcome) : bool :=
  match o with Returns => true | Throws _ => false end.

Definition thrownBy (o : Outcome) : option Exception :=
  match o with Returns => None | Throws e => Some e end.

(** What disposal of the resources held for [instanceId] throws, if it
    throws: the component's [onDestroy] hook, [componentRef.destroy()] and
    [subscription.unsubscribe()] are called in this order, and the first
    exception ends the [try] block. *)
Definition componentDisposalThrows (s : State) (instanceId : string)
  : option Exception :=
  match mapGet instanceId (componentRefs s) with
  | Some cref =>
      match (if isWidgetComponent (instance cref)
             then match onDestroy (instance cref) with
                  | Some o => thrownBy o
                  | None => None
                  end
             else None) with
      | Some e => Some e
      | None => thrownBy (destroy cref)
      end
  | None => None
  end.

Definition subscriptionDisposalThrows (s : State) (instanceId : string)
  : option Exception :=
  match mapGet instanceId (subscriptions s) with
  | Some sub => thrownBy (unsubscribe sub)
  | None => None
  end.

Definition disposalThrows (s : State) (instanceId : string) : option Exception :=
  match componentDisposalThrows s instanceId with
  | Some e => Some e
  | None => subscriptionDisposalThrows s instanceId
  end.

(** ** A small program logic for [M]: state predicates kept by a
    computation, whether it returns or throws. *)
Definition keeps {A} (P : State -> Prop) (m : M A) : Prop :=
  forall s, P s -> P (snd (m s)).

(** The instance stored under [instanceId], if any, has configuration [c]. *)
Definition configAt (instanceId : string) (c : Obj) (s : State) : Prop :=
  forall i, mapGet instanceId (instances s) = Some i -> config i = c.

(** ** Scenarios *)

Definition env0 : Env := {| now := 1700000000000; random := "k3x9q2m1z" |}.

Definition env1 : Env := {| now := 1700000000500; random := "p0w8e7r6t" |}.

Definition todoDefinition : Registry.WidgetDefinition :=
  {| Registry.type := "todo"; Registry.name := "Todo";
     Registry.description := "Todo list";
     Registry.component := Some "TodoWidgetComponent";
     Registry.category := "productivity";
     Registry.defaultConfig :=
       Some [("type", JStr "todo"); ("title", JStr "Todo");
             ("layout", JObj [("cols", JNum 2); ("rows", JNum 2)])];
     Registry.tags := None; Registry.dependencies := None;
     Registry.lazy := false; Registry.loadComponent := None |}.

Definition graphDefinition : Registry.WidgetDefinition :=
  {| Registry.type := "graph"; Registry.name := "Graph";
     Registry.description := "Assessment graph";
     Registry.component := Some "GraphWidgetComponent";
     Registry.category := "charts";
     Registry.defaultConfig :=
       Some [("title", JStr "Graph");
             ("layout", JObj [("cols", JNum 4); ("rows", JNum 3)])];
     Registry.tags := Some ["chart"];
     Registry.dependencies := Some ["todo"; "missing-type"; "chart-lib"];
     Registry.lazy := false; Registry.loadComponent := None |}.

Definition registerAll (ds : list Registry.WidgetDefinition) : Registry.State :=
  fold_left (fun r d => match Registry.register d r with
                        | inr r' => r'
                        | inl _ => r
                        end) ds Registry.empty.

Definition demoRegistry : Registry.State :=
  registerAll [todoDefinition; graphDefinition].

Definition layoutOverride : Obj := [("layout", JObj [("x", JNum 1)])].


(** A thrown Symbol: interpolating it throws a TypeError. *)
Definition symbolTypeError : Exception :=
  Printable "TypeError: Cannot convert a Symbol value to a string".

Definition thrownSymbol : Exception := Unprintable symbolTypeError.

(** A render host whose component throws a Symbol from [onDestroy]. *)
Definition symbolContainer : ViewContainerRef :=
  fun _ => inr {| instance := {| isObject := true; onInit := None;
                                 onDestroy := Some (Throws thrownSymbol) |};
                  destroy := Returns |}.

(** ** Further operations of the orchestrator *)


Definition creationFailed (env : Env) (e : string) : WidgetError :=
  {| code := "CREATION_FAILED"; message := "Failed to create widget: " +:+ e;
     timestamp := now env; recoverable := false |}.

Definition loadFailed (env : Env) (e : string) : WidgetError :=
  {| code := "LOAD_FAILED";
     message := "Failed to load widget component: " +:+ e;
     timestamp := now env; recoverable := true |}.

(** A state predicate that does not depend on what loading a component
    changes: the state and time stamp of instances, the component and
    subscription tables. *)
Definition framed (P : State -> Prop) : Prop :=
  (forall s k f, (forall i, id (f i) = id i) -> P s ->
                 P (snd (mutateInstance k f s))) /\
  (forall s g, P s -> P (setComponentRefs g s)) /\
  (forall s g, P s -> P (setSubscriptions g s)).

(** ** updateWidgetData (lines 302-336)

    [onDataChange] tells, for the instance whose component is mounted,
    what the component's [onDataChange] hook does when called: [None] when
    the component does not define the hook. *)
Definition dataUpdateFailed (env : Env) (e : string) : WidgetError :=
  {| code := "DATA_UPDATE_FAILED";
     message := "Failed to update widget data: " +:+ e;
     timestamp := now env; recoverable := true |}.

Definition updateWidgetData (env : Env) (onDataChange : string -> option Outcome)
    (instanceId : string) (newData : JsVal) : M bool :=
  found ← gets (fun s => mapGet instanceId (instances s));
  match found with
  | None => mret false
  | Some _ =>
      tryCatch
        (mutateInstance instanceId (fun i =>
           {| id := id i; definition := definition i; config := config i;
              data := newData; state := state i; createdAt := createdAt i;
              updatedAt := now env; error := error i |}) ;;
         componentRef ← gets (fun s => mapGet instanceId (componentRefs s));
         match componentRef with
         | Some cref =>
             if isWidgetComponent (instance cref)
             then callHook (onDataChange instanceId) else mret tt
         | None => mret tt
         end ;;
         mret true)
        (fun e =>
           text ← interpolate e;
           handleWidgetError env instanceId (dataUpdateFailed env text) ;;
           mret false)
  end.

(** The hook is reached and throws. *)
Definition dataHookThrows (s : State) (onDataChange : string -> option Outcome)
    (instanceId : string) : option Exception :=
  match mapGet instanceId (componentRefs s) with
  | Some cref =>
      if isWidgetComponent (instance cref)
      then match onDataChange instanceId with
           | Some (Throws e) => Some e
           | _ => None
           end
      else None
  | None => None
  end.

(** ** ngOnDestroy (lines 586-598)

    [forEach] with a callback that may throw.  [destroy$] ends the event
    streams, which are not part of this state; the clock is read once. *)
Fixpoint forEach {A} (f : A -> M unit) (l : list A) : M unit :=
  match l with
  | [] => mret tt
  | a :: rest => f a ;; forEach f rest
  end.

Definition ngOnDestroy (env : Env) : M unit :=
  all ← gets getAllWidgets;
  forEach (fun inst => destroyWidget env (id inst) ;; mret tt) all ;;
  subs ← gets (fun s => mapValues (subscriptions s));
  forEach (fun sub => call (unsubscribe sub)) subs ;;
  modify (setSubscriptions (fun _ => [])).

(** Tearing down a mounted component runs without an exception. *)
Definition componentReturns (cref : ComponentRef) : bool :=
  (if isWidgetComponent (instance cref)
   then match onDestroy (instance cref) with
        | Some o => returns o
        | None => true
        end
   else true) && returns (destroy cref).

(** Every instance is stored under its id. *)
Definition keyedById (s : State) : Prop :=
  forall k i, In (k, i) (instances s) -> id i = k.

(** No component and no subscription throws when disposed of. *)
Definition disposable (s : State) : Prop :=
  (forall k cref, In (k, cref) (componentRefs s) -> componentReturns cref = true) /\
  (forall k sub, In (k, sub) (subscriptions s) -> returns (unsubscribe sub) = true).

(** ** Further scenarios *)

(** A render host that cannot create the component. *)
Definition failingContainer : ViewContainerRef :=
  fun _ => inl (Error "no host element").

(** A render host that throws a Symbol instead. *)
Definition symbolThrowingHost : ViewContainerRef :=
  fun _ => inl thrownSymbol.

(** The todo widget created without a render host. *)
Definition oneInstance : State :=
  snd (createWidget demoRegistry env0 "todo" [] None initial).

End Orchestrator.

(* ===================================================================== *)
(** * Event bus and shared state (widget-communication.service.ts) *)
(* ===================================================================== *)

Module Comm.
Import Js.

Record WidgetEvent : Type := {
  type : string;
  source : string;
  target : option string;
  payload : JsVal;
  timestamp : Z;
  bubble : option bool
}.

(** The [filter(...)] operator piped in front of a handler. *)
Inductive Filter : Type :=
| ByType (eventType : string)        (* subscribe *)
| BySource (sourceId : string)       (* subscribeToWidget *)
| ByTarget (targetId : string)       (* subscribeToTargetedEvents *)
| Unfiltered.                        (* getAllEvents *)

Definition accepts (f : Filter) (event : WidgetEvent) : bool :=
  match f with
  | ByType eventType => String.eqb (type event) eventType
  | BySource sourceId => String.eqb (source event) sourceId
  | ByTarget targetId =>
      match target event with
      | Some t => String.eqb t targetId
      | None => false
      end
  | Unfiltered => true
  end.

(** A handler is known by the number of its subscription.  Handlers only
    record what they are given: they do not call back into the service. *)
Record Subscriber : Type := {
  subscription : nat;
  filter : Filter
}.

(** What handlers have been given, oldest first. *)
Inductive Delivery : Type :=
| Event (subscription : nat) (event : WidgetEvent)
| Value (subscription : nat) (v : JsVal)
| Complete (subscription : nat).

(** A [BehaviorSubject]: its current value and its observers, in
    subscription order. *)
Record BehaviorSubject : Type := {
  value : JsVal;
  observers : list nat
}.

(** The service before [ngOnDestroy]; until then [takeUntil(destroy$)]
    passes everything through.  The channel table is independent of the
    bus and of the shared state and is left out. *)
Record State : Type := {
  eventBus : list Subscriber;                  (* observers of the bus *)
  sharedState : JsMap BehaviorSubject;
  nextSubscription : nat;
  delivered : list Delivery
}.

Definition initial : State :=
  {| eventBus := []; sharedState := []; nextSubscription := 0%nat;
     delivered := [] |}.

(** [eventBus.next(event)]: every observer whose filter accepts the event
    is handed it, in subscription order. *)
Definition deliveries (bus : list Subscriber) (event : WidgetEvent)
  : list Delivery :=
  map (fun s => Event (subscription s) event)
      (List.filter (fun s => accepts (filter s) event) bus).

Definition next (event : WidgetEvent) (s : State) : State :=
  {| eventBus := eventBus s; sharedState := sharedState s;
     nextSubscription := nextSubscription s;
     delivered := delivered s ++ deliveries (eventBus s) event |}.

(** [broadcast] (lines 29-35). *)
Definition broadcastEvent (now : Z) (event : WidgetEvent) : WidgetEvent :=
  {| type := type event; source := source event; target := target event;
     payload := payload event; timestamp := now; bubble := Some true |}.

Definition broadcast (now : Z) (event : WidgetEvent) (s : State) : State :=
  next (broadcastEvent now event) s.

(** [send] (lines 40-49). *)
Definition targetedEvent (now : Z) (targetId : string) (event : WidgetEvent)
  : WidgetEvent :=
  {| type := type event; source := source event; target := Some targetId;
     payload := payload event; timestamp := now; bubble := Some false |}.

Definition send (now : Z) (targetId : string) (event : WidgetEvent)
    (s : State) : State :=
  next (targetedEvent now targetId event) s.

(** [subscribe], [subscribeToWidget], [subscribeToTargetedEvents]
    (lines 54-100) share one shape; the result is the new subscription,
    whose number stands for the returned unsubscribe function. *)
Definition subscribeWith (f : Filter) (s : State) : nat * State :=
  (nextSubscription s,
   {| eventBus := eventBus s ++ [{| subscription := nextSubscription s; filter := f |}];
      sharedState := sharedState s;
      nextSubscription := S (nextSubscription s);
      delivered := delivered s |}).

Definition subscribe (eventType : string) : State -> nat * State :=
  subscribeWith (ByType eventType).

Definition subscribeToWidget (sourceId : string) : State -> nat * State :=
  subscribeWith (BySource sourceId).

Definition subscribeToTargetedEvents (targetId : string) : State -> nat * State :=
  subscribeWith (ByTarget targetId).

Definition dropObserver (n : nat) (b : BehaviorSubject) : BehaviorSubject :=
  {| value := value b;
     observers := List.filter (fun o => negb (Nat.eqb o n)) (observers b) |}.

(** [subscription.unsubscribe()]. *)
Definition unsubscribe (n : nat) (s : State) : State :=
  {| eventBus := List.filter (fun o => negb (Nat.eqb (subscription o) n)) (eventBus s);
     sharedState := map (fun kv => (fst kv, dropObserver n (snd kv))) (sharedState s);
     nextSubscription := nextSubscription s;
     delivered := delivered s |}.

(** [setSharedState] (lines 147-162): a new cell starts with the value, an
    existing one is given it through [next], which hands it to the cell's
    observers; then STATE_CHANGED is broadcast. *)
Definition stateEvent (ty : string) (p : JsVal) (now : Z) : WidgetEvent :=
  {| type := ty; source := "system"; target := None; payload := p;
     timestamp := now; bubble := Some true |}.

Definition setSharedState (now : Z) (key : string) (v : JsVal) (s : State)
  : State :=
  let s1 :=
    match mapGet key (sharedState s) with
    | None =>
        {| eventBus := eventBus s;
           sharedState := mapSet key {| value := v; observers := [] |} (sharedState s);
           nextSubscription := nextSubscription s;
           delivered := delivered s |}
    | Some subject =>
        {| eventBus := eventBus s;
           sharedState :=
             mapSet key {| value := v; observers := observers subject |}
               (sharedState s);
           nextSubscription := nextSubscription s;
           delivered := delivered s ++ map (fun o => Value o v) (observers subject) |}
    end in
  broadcast now
    (stateEvent "STATE_CHANGED" (JObj [("key", JStr key); ("value", v)]) now) s1.

(** [getSharedState] (lines 167-170). *)
Definition getSharedState (s : State) (key : string) : JsVal :=
  match mapGet key (sharedState s) with
  | Some subject => value subject
  | None => JUndefined
  end.

(** [subscribeToSharedState(key)] (lines 175-184) with the returned
    observable subscribed at once, as [BaseWidget.subscribeToSharedState]
    does: an absent cell is created holding undefined, the new observer is
    handed the current value. *)
Definition subscribeToSharedState (key : string) (s : State) : nat * State :=
  let subject :=
    match mapGet key (sharedState s) with
    | Some subject => subject
    | None => {| value := JUndefined; observers := [] |}
    end in
  let n := nextSubscription s in
  (n,
   {| eventBus := eventBus s;
      sharedState :=
        mapSet key {| value := value subject; observers := observers subject ++ [n] |}
          (sharedState s);
      nextSubscription := S n;
      delivered := delivered s ++ [Value n (value subject)] |}).

(** [removeSharedState] (lines 189-207). *)
Definition removeSharedState (now : Z) (key : string) (s : State)
  : bool * State :=
  match mapGet key (sharedState s) with
  | Some subject =>
      (true,
       broadcast now
         (stateEvent "STATE_REMOVED" (JObj [("key", JStr key)]) now)
         {| eventBus := eventBus s;
            sharedState := mapDelete key (sharedState s);
            nextSubscription := nextSubscription s;
            delivered := delivered s ++ map Complete (observers subject) |})
  | None => (false, s)
  end.

(** [clearSharedState] (lines 219-233). *)
Definition clearSharedState (now : Z) (s : State) : State :=
  broadcast now (stateEvent "STATE_CLEARED" (JObj []) now)
    {| eventBus := eventBus s;
       sharedState := [];
       nextSubscription := nextSubscription s;
       delivered :=
         delivered s ++
         flat_map (fun kv => map Complete (observers (snd kv))) (sharedState s) |}.

(** [respond] (lines 285-307): the response travels through [send]. *)
Definition respond (now : Z) (requestEvent : WidgetEvent) (responseData : JsVal)
    (error : JsVal) (s : State) : State :=
  if negb (truthy (member "requestId" (payload requestEvent))) then s
  else
    send now (source requestEvent)
      {| type := type requestEvent +:+ "_RESPONSE"; source := "system";
         target := Some (source requestEvent);
         payload := JObj [("requestId", member "requestId" (payload requestEvent));
                          ("data", responseData); ("error", error)];
         timestamp := now; bubble := Some false |} s.

(** The synchronous part of [request] (lines 238-280): the response
    handler is registered with [subscribe], then the request is sent.  The
    timer and the promise are outside this model. *)
Definition request (now : Z) (requestId targetId requestType : string)
    (payload : Obj) (s : State) : nat * State :=
  let '(n, s1) := subscribe (requestType +:+ "_RESPONSE") s in
  (n, send now targetId
        {| type := requestType; source := "system"; target := Some targetId;
           payload := JObj (spread [("requestId", JStr requestId)] payload);
           timestamp := now; bubble := Some false |} s1).

(** ** Calls, for statements about sequences of calls *)

Inductive Call : Type :=
| CBroadcast (now : Z) (event : WidgetEvent)
| CSend (now : Z) (targetId : string) (event : WidgetEvent)
| CSubscribe (f : Filter)
| CUnsubscribe (n : nat)
| CSetSharedState (now : Z) (key : string) (v : JsVal)
| CSubscribeToSharedState (key : string)
| CRemoveSharedState (now : Z) (key : string)
| CClearSharedState (now : Z).

Definition exec (c : Call) (s : State) : State :=
  match c with
  | CBroadcast now event => broadcast now event s
  | CSend now targetId event => send now targetId event s
  | CSubscribe f => snd (subscribeWith f s)
  | CUnsubscribe n => unsubscribe n s
  | CSetSharedState now key v => setSharedState now key v s
  | CSubscribeToSharedState key => snd (subscribeToSharedState key s)
  | CRemoveSharedState now key => snd (removeSharedState now key s)
  | CClearSharedState now => clearSharedState now s
  end.

Definition run (calls : list Call) (s : State) : State :=
  fold_left (fun s c => exec c s) calls s.



(** What a call handed to handlers: the part of the log it appended. *)
Definition handed (before after : State) : list Delivery :=
  skipn (length (delivered before)) (delivered after).



(** ** Scenarios *)

Definition eventX : WidgetEvent :=
  {| type := "X"; source := "w1"; target := None;
     payload := JObj [("n", JNum 1)]; timestamp := 0; bubble := None |}.

(** ** Further notions *)

(** The event [request] hands to [send] (lines 271-278), as it goes out
    on the bus. *)
Definition requestEvent (now : Z) (requestId targetId requestType : string)
    (payload : Obj) : WidgetEvent :=
  targetedEvent now targetId
    {| type := requestType; source := "system"; target := Some targetId;
       payload := JObj (spread [("requestId", JStr requestId)] payload);
       timestamp := now; bubble := Some false |}.

(** The handler a delivery went to. *)
Definition recipient (d : Delivery) : nat :=
  match d with
  | Event n _ => n
  | Value n _ => n
  | Complete n => n
  end.

(** Subscription [n] is registered nowhere and its number is used up. *)
Definition retired (n : nat) (s : State) : Prop :=
  (n < nextSubscription s)%nat /\
  (forall sub, In sub (eventBus s) -> subscription sub <> n) /\
  (forall key subject, In (key, subject) (sharedState s) ->
                       ~ In n (observers subject)).

End Comm.

(* ===================================================================== *)
(** * Event system of the orchestrator (widget-orchestrator.service.ts, 373-409, 493-526) *)
(* ===================================================================== *)

Module Bus.
Import Js.


(** The component mounted for an instance, as the dispatcher probes it:
    [isObject] is [component && typeof component === 'object'],
    [hasOnEvent] tells whether it defines [onEvent]. *)
Record Receiver : Type := {
  isObject : bool;
  hasOnEvent : bool
}.

(** The [filter] piped in front of an outside observer:
    [subscribeToEvents(eventType?)] and [subscribeToWidget(sourceId)]. *)
Inductive Filter : Type :=
| AllEvents
| OfType (eventType : string)
| FromWidget (sourceId : string).

(** What [onEvent] hooks and outside observers have been given, oldest
    first.  Hooks and observers only record: they neither throw nor call
    back into the service. *)
Inductive Reception : Type :=
| OnEvent (instanceId : string) (event : Comm.WidgetEvent)
| Observed (observer : nat) (event : Comm.WidgetEvent).

(** The event system of the orchestrator before [ngOnDestroy]: the mounted
    components by instance id, the outside observers of [eventBus] in
    subscription order (the dispatcher of [setupEventBus] subscribed first,
    in the constructor), and the log. *)
Record State : Type := {
  componentRefs : JsMap Receiver;
  observers : list (nat * Filter);
  received : list Reception
}.

Definition listens (r : Receiver) : bool := isObject r && hasOnEvent r.



(** The dispatcher (lines 496-525): the instance ids whose [onEvent] is
    called, in order. *)
Definition targeted (refs : JsMap Receiver) (event : Comm.WidgetEvent)
  : list string :=
  match Comm.target event with
  | Some t =>
      if String.eqb t "" then []
      else match mapGet t refs with
           | Some r => if listens r then [t] else []
           | None => []
           end
  | None => []
  end.

Definition bubbled (refs : JsMap Receiver) (event : Comm.WidgetEvent)
  : list string :=
  match Comm.bubble event with
  | Some true =>
      map fst
        (List.filter
           (fun kv => negb (String.eqb (fst kv) (Comm.source event))
                      && listens (snd kv))
           refs)
  | _ => []
  end.

Definition dispatch (refs : JsMap Receiver) (event : Comm.WidgetEvent)
  : list string :=
  targeted refs event ++ bubbled refs event.

Definition passes (f : Filter) (event : Comm.WidgetEvent) : bool :=
  match f with
  | AllEvents => true
  | OfType eventType => String.eqb (Comm.type event) eventType
  | FromWidget sourceId => String.eqb (Comm.source event) sourceId
  end.

(** [eventBus.next(event)]. *)
Definition next (event : Comm.WidgetEvent) (s : State) : State :=
  {| componentRefs := componentRefs s;
     observers := observers s;
     received :=
       received s
       ++ map (fun i => OnEvent i event) (dispatch (componentRefs s) event)
       ++ map (fun o => Observed (fst o) event)
              (List.filter (fun o => passes (snd o) event) (observers s)) |}.


(** [subscribeToEvents(eventType)] with the stream subscribed at once by
    observer [n]; an absent or empty [eventType] is no filter. *)
Definition subscribeToEvents (n : nat) (eventType : option string) (s : State)
  : State :=
  {| componentRefs := componentRefs s;
     observers :=
       observers s ++
       [(n, match eventType with
            | Some t => if String.eqb t "" then AllEvents else OfType t
            | None => AllEvents
            end)];
     received := received s |}.

(** [subscribeToWidget(sourceId)], subscribed at once by observer [n]. *)
Definition subscribeToWidget (n : nat) (sourceId : string) (s : State) : State :=
  {| componentRefs := componentRefs s;
     observers := observers s ++ [(n, FromWidget sourceId)];
     received := received s |}.




(** ** Scenarios *)



End Bus.

(* ===================================================================== *)
(** * Layout engine (dashboard-layout-manager.service.ts) *)
(* ===================================================================== *)

Module Layout.
Import Js.

(** [WidgetLayout] (widget.interface.ts, lines 77-101). *)
Record WidgetLayout : Type := {
  cols : Z;
  rows : Z;
  x : option Z;
  y : option Z;
  minCols : option Z;
  minRows : option Z;
  maxCols : option Z;
  maxRows : option Z
}.

(** [Partial<WidgetLayout>]: [None] is a key the object does not have. *)
Record PartialLayout : Type := {
  newCols : option Z;
  newRows : option Z;
  newX : option Z;
  newY : option Z;
  newMinCols : option Z;
  newMinRows : option Z;
  newMaxCols : option Z;
  newMaxRows : option Z
}.

(** The layout manager writes [instance.config.layout = ...] on instance
    objects it shares with its callers, so configuration objects have an
    identity: a [ref] is the address of one, and the heap gives the
    [layout] property of each.  Layout objects themselves are only ever
    replaced, never written to.  Of a widget instance the layout manager
    reads the [id] and follows [config]. *)
Definition ref : Type := nat.

Record WidgetInstance : Type := {
  id : string;
  config : ref
}.

Record Grid : Type := {
  gridCols : Z;          (* grid.cols *)
  rowHeight : Z;
  margin : Z;
  outerMargin : Z;
  responsive : bool
}.

Record DashboardConfig : Type := {
  dashboardId : string;
  title : string;
  grid : Grid;
  widgets : list WidgetInstance
}.

Inductive ChangeType : Type := Resize | Move | Add | Remove.

(** [LayoutChange]; the timestamp added by [recordLayoutChange] is never
    read and is left out. *)
Record LayoutChange : Type := {
  changeType : ChangeType;
  instanceId : string;
  layout : WidgetLayout;
  previousLayout : option WidgetLayout
}.

Definition Heap : Type := ref -> WidgetLayout.

Record State : Type := {
  heap : Heap;
  fresh : ref;                        (* address of the next new object *)
  dashboardConfig : DashboardConfig;
  layoutChanges : list LayoutChange
}.

Definition store (h : Heap) (r : ref) (l : WidgetLayout) : Heap :=
  fun r' => if Nat.eqb r' r then l else h r'.

Definition layoutOf (s : State) (w : WidgetInstance) : WidgetLayout :=
  heap s (config w).

Definition currentWidgets (s : State) : list WidgetInstance :=
  widgets (dashboardConfig s).

Definition currentCols (s : State) : Z := gridCols (grid (dashboardConfig s)).

Definition defaultGridConfig : Grid :=
  {| gridCols := 12; rowHeight := 100; margin := 10; outerMargin := 10;
     responsive := true |}.

(** The service as constructed (lines 86-96), over a heap of the objects
    that exist so far. *)
Definition initialOn (h : Heap) (next : ref) : State :=
  {| heap := h; fresh := next;
     dashboardConfig := {| dashboardId := "default"; title := "Dashboard";
                           grid := defaultGridConfig; widgets := [] |};
     layoutChanges := [] |}.

(** ** Expressions *)

(** [v || 0] on an optional number. *)
Definition orZero (v : option Z) : Z :=
  match v with Some n => n | None => 0 end.

(** Truthiness of an optional number: [layout.minCols && ...]. *)
Definition declared (v : option Z) : bool :=
  match v with Some n => negb (n =? 0) | None => false end.

Definition orElse (new old : option Z) : option Z :=
  match new with Some n => Some n | None => old end.

(** [{ ...layout, x, y }]. *)
Definition withPosition (l : WidgetLayout) (px py : Z) : WidgetLayout :=
  {| cols := cols l; rows := rows l; x := Some px; y := Some py;
     minCols := minCols l; minRows := minRows l;
     maxCols := maxCols l; maxRows := maxRows l |}.

(** [{ ...widget.config.layout, ...layout }]. *)
Definition mergeLayout (l : WidgetLayout) (p : PartialLayout) : WidgetLayout :=
  {| cols := match newCols p with Some c => c | None => cols l end;
     rows := match newRows p with Some r => r | None => rows l end;
     x := orElse (newX p) (x l);
     y := orElse (newY p) (y l);
     minCols := orElse (newMinCols p) (minCols l);
     minRows := orElse (newMinRows p) (minRows l);
     maxCols := orElse (newMaxCols p) (maxCols l);
     maxRows := orElse (newMaxRows p) (maxRows l) |}.

(** ** Loops

    [firstFrom body start count] is
    [for (i = start; ...; i++) { if (body i) return it }] run for [count]
    iterations; [allFrom] is the loop that clears a flag and stops;
    [foldFrom] the loop that updates an accumulator. *)
Fixpoint firstFrom {A} (body : Z -> option A) (start : Z) (count : nat)
  : option A :=
  match count with
  | O => None
  | S n =>
      match body start with
      | Some a => Some a
      | None => firstFrom body (start + 1) n
      end
  end.

Fixpoint allFrom (body : Z -> bool) (start : Z) (count : nat) : bool :=
  match count with
  | O => true
  | S n => body start && allFrom body (start + 1) n
  end.

Fixpoint foldFrom {T} (body : Z -> T -> T) (start : Z) (count : nat) (acc : T)
  : T :=
  match count with
  | O => acc
  | S n => foldFrom body (start + 1) n (body start acc)
  end.

(** ** Collision test (hasOverlap, lines 472-495)

    The sums are exact here.  In the code they are sums of doubles, which
    are exact as long as they are integers of magnitude below 2^53; the
    statements that depend on it ask for [safeNumber]s (see there). *)

Definition collides (a b : WidgetLayout) : bool :=
  let x1 := orZero (x a) in
  let y1 := orZero (y a) in
  let x2 := x1 + cols a in
  let y2 := y1 + rows a in
  let wx1 := orZero (x b) in
  let wy1 := orZero (y b) in
  let wx2 := wx1 + cols b in
  let wy2 := wy1 + rows b in
  negb ((x2 <=? wx1) || (x1 >=? wx2) || (y2 <=? wy1) || (y1 >=? wy2)).

Definition hasOverlap (s : State) (excludeInstanceId : string)
    (l : WidgetLayout) : bool :=
  existsb (fun w => collides l (layoutOf s w))
    (List.filter (fun w => negb (String.eqb (id w) excludeInstanceId))
       (currentWidgets s)).

(** ** validateLayout (lines 536-567) *)

Definition validateLayout (s : State) (l : WidgetLayout) : bool :=
  if (orZero (x l) <? 0) || (orZero (y l) <? 0) then false
  else if orZero (x l) + cols l >? currentCols s then false
  else if declared (minCols l) && (cols l <? orZero (minCols l)) then false
  else if declared (maxCols l) && (cols l >? orZero (maxCols l)) then false
  else if declared (minRows l) && (rows l <? orZero (minRows l)) then false
  else if declared (maxRows l) && (rows l >? orZero (maxRows l)) then false
  else true.

(** ** findOptimalPosition (lines 442-467) *)

Definition maxBottom (s : State) : Z :=
  fold_left Z.max
    (map (fun w => orZero (y (layoutOf s w)) + rows (layoutOf s w))
         (currentWidgets s))
    0.

Definition findOptimalPosition (s : State) (l : WidgetLayout) : Z * Z :=
  match
    firstFrom (fun py =>
      firstFrom (fun px =>
        if negb (hasOverlap s "" (withPosition l px py)) then Some (px, py)
        else None)
        0 (Z.to_nat (currentCols s - cols l + 1)))
      0 1000
  with
  | Some p => p
  | None => (0, maxBottom s)
  end.

(** ** resolveOverlaps (lines 500-531) *)

Definition resolveOverlaps (s : State) (instanceId : string) (l : WidgetLayout)
  : option WidgetLayout :=
  let originalX := orZero (x l) in
  let originalY := orZero (y l) in
  firstFrom (fun radius =>
    firstFrom (fun dx =>
      firstFrom (fun dy =>
        if (Z.abs dx =? radius) || (Z.abs dy =? radius) then
          let testLayout :=
            withPosition l (Z.max 0 (originalX + dx)) (Z.max 0 (originalY + dy)) in
          if validateLayout s testLayout && negb (hasOverlap s instanceId testLayout)
          then Some testLayout else None
        else None)
        (- radius) (Z.to_nat (2 * radius + 1)))
      (- radius) (Z.to_nat (2 * radius + 1)))
    1 10.

(** ** recordLayoutChange (lines 676-689): the last 100 changes are kept *)

Definition recordLayoutChange (c : LayoutChange) (s : State) : State :=
  let updatedChanges := layoutChanges s ++ [c] in
  {| heap := heap s; fresh := fresh s; dashboardConfig := dashboardConfig s;
     layoutChanges :=
       skipn (length updatedChanges - 100) updatedChanges |}.

(** [updateDashboardConfig({ widgets })]. *)
Definition setWidgets (ws : list WidgetInstance) (s : State) : State :=
  {| heap := heap s; fresh := fresh s;
     dashboardConfig :=
       {| dashboardId := dashboardId (dashboardConfig s);
          title := title (dashboardConfig s);
          grid := grid (dashboardConfig s);
          widgets := ws |};
     layoutChanges := layoutChanges s |}.

(** [updateGridConfig({ cols })]. *)
Definition setGridCols (c : Z) (s : State) : State :=
  {| heap := heap s; fresh := fresh s;
     dashboardConfig :=
       {| dashboardId := dashboardId (dashboardConfig s);
          title := title (dashboardConfig s);
          grid := {| gridCols := c;
                     rowHeight := rowHeight (grid (dashboardConfig s));
                     margin := margin (grid (dashboardConfig s));
                     outerMargin := outerMargin (grid (dashboardConfig s));
                     responsive := responsive (grid (dashboardConfig s)) |};
          widgets := widgets (dashboardConfig s) |};
     layoutChanges := layoutChanges s |}.

(** [instance.config.layout = l]. *)
Definition assignLayout (w : WidgetInstance) (l : WidgetLayout) (s : State)
  : State :=
  {| heap := store (heap s) (config w) l; fresh := fresh s;
     dashboardConfig := dashboardConfig s; layoutChanges := layoutChanges s |}.

(** ** addWidget (lines 130-159) *)

Definition addWidget (inst : WidgetInstance) (position : option (Z * Z))
    (s : State) : State :=
  let position :=
    match position with
    | Some p => p
    | None => findOptimalPosition s (layoutOf s inst)
    end in
  let l := withPosition (layoutOf s inst) (fst position) (snd position) in
  let s1 := assignLayout inst l s in
  let s2 := setWidgets (currentWidgets s ++ [inst]) s1 in
  recordLayoutChange
    {| changeType := Add; instanceId := id inst; layout := l;
       previousLayout := None |} s2.

(** ** removeWidget (lines 164-189) *)

Definition removeWidget (instanceId : string) (s : State) : bool * State :=
  match List.find (fun w => String.eqb (id w) instanceId) (currentWidgets s) with
  | None => (false, s)
  | Some widget =>
      (true,
       recordLayoutChange
         {| changeType := Remove; instanceId := instanceId;
            layout := layoutOf s widget; previousLayout := None |}
         (setWidgets
            (List.filter (fun w => negb (String.eqb (id w) instanceId))
               (currentWidgets s)) s))
  end.

(** ** updateWidgetLayout (lines 194-243) *)

Definition findWidget (s : State) (instanceId : string) : option WidgetInstance :=
  List.find (fun w => String.eqb (id w) instanceId) (currentWidgets s).

Definition changeKind (p : PartialLayout) : ChangeType :=
  match newX p, newY p with
  | None, None => Resize
  | _, _ => Move
  end.

Definition applyLayout (widget : WidgetInstance) (instanceId : string)
    (p : PartialLayout) (previous l : WidgetLayout) (s : State) : State :=
  recordLayoutChange
    {| changeType := changeKind p; instanceId := instanceId; layout := l;
       previousLayout := Some previous |}
    (assignLayout widget l s).

Definition updateWidgetLayout (instanceId : string) (p : PartialLayout)
    (s : State) : bool * State :=
  match findWidget s instanceId with
  | None => (false, s)
  | Some widget =>
      let previous := layoutOf s widget in
      let updatedLayout := mergeLayout previous p in
      if negb (validateLayout s updatedLayout) then (false, s)
      else if hasOverlap s instanceId updatedLayout then
        match resolveOverlaps s instanceId updatedLayout with
        | Some resolvedLayout =>
            (true, applyLayout widget instanceId p previous resolvedLayout s)
        | None => (false, s)
        end
      else (true, applyLayout widget instanceId p previous updatedLayout s)
  end.

(** ** compactLayout (lines 310-325, 596-671) *)

(** The comparator handed to [sort]. *)
Definition sameNumber (a b : option Z) : bool :=
  match a, b with
  | Some m, Some n => m =? n
  | None, None => true
  | _, _ => false
  end.

Definition compareLayouts (a b : WidgetLayout) : Z :=
  if negb (sameNumber (y a) (y b)) then orZero (y a) - orZero (y b)
  else orZero (x a) - orZero (x b).

(** [Array.prototype.sort] is stable; with a comparator that is a
    consistent order, as [compareLayouts] is on layouts whose [x] and [y]
    are numbers, its result is the stable insertion sort. *)
Fixpoint insertBy {A} (cmp : A -> A -> Z) (a : A) (l : list A) : list A :=
  match l with
  | [] => [a]
  | b :: rest => if cmp a b <=? 0 then a :: b :: rest else b :: insertBy cmp a rest
  end.

Definition sortBy {A} (cmp : A -> A -> Z) (l : list A) : list A :=
  fold_right (insertBy cmp) [] l.

Definition sortedWidgets (s : State) : list WidgetInstance :=
  sortBy (fun a b => compareLayouts (layoutOf s a) (layoutOf s b))
    (currentWidgets s).

(** The set of occupied cells; the key ["x,y"] of the source is the pair. *)
Definition Cells : Type := gset (Z * Z).

Definition canPlace (occupied : Cells) (l : WidgetLayout) (px py : Z) : bool :=
  allFrom (fun checkX =>
    allFrom (fun checkY => negb (bool_decide ((checkX, checkY) ∈ occupied)))
      py (Z.to_nat (rows l)))
    px (Z.to_nat (cols l)).

(** The two search loops of [findCompactPosition]. *)
Definition searchCompactPosition (l : WidgetLayout) (cols_ : Z)
    (occupied : Cells) : option (Z * Z) :=
  firstFrom (fun py =>
    firstFrom (fun px =>
      if canPlace occupied l px py then Some (px, py) else None)
      0 (Z.to_nat (cols_ - cols l + 1)))
    0 1000.

Definition findCompactPosition (l : WidgetLayout) (cols_ : Z)
    (occupied : Cells) : Z * Z :=
  match searchCompactPosition l cols_ occupied with
  | Some p => p
  | None => (0, 0)
  end.

Definition markOccupied (p : Z * Z) (l : WidgetLayout) (occupied : Cells)
  : Cells :=
  foldFrom (fun cx occ =>
    foldFrom (fun cy occ' => {[ (cx, cy) ]} ∪ occ')
      (snd p) (Z.to_nat (rows l)) occ)
    (fst p) (Z.to_nat (cols l)) occupied.

(** The layouts [compactWidgets] computes, in order. *)
Fixpoint compactFrom (cols_ : Z) (occupied : Cells) (ls : list WidgetLayout)
  : list WidgetLayout :=
  match ls with
  | [] => []
  | l :: rest =>
      let optimalPosition := findCompactPosition l cols_ occupied in
      withPosition l (fst optimalPosition) (snd optimalPosition)
        :: compactFrom cols_ (markOccupied optimalPosition l occupied) rest
  end.

(** [{ ...widget, config: { ...widget.config, layout } }] for each widget:
    new instance objects with new configuration objects. *)
Fixpoint allocate (h : Heap) (r : ref) (ws : list WidgetInstance)
    (ls : list WidgetLayout) : list WidgetInstance * Heap :=
  match ws, ls with
  | w :: ws', l :: ls' =>
      let '(out, h') := allocate (store h r l) (S r) ws' ls' in
      ({| id := id w; config := r |} :: out, h')
  | _, _ => ([], h)
  end.

(** [compactWidgets]: the old layouts are read from objects that the new
    ones never alias. *)
Definition compactWidgets (s : State) (ws : list WidgetInstance)
  : list WidgetInstance * Heap :=
  allocate (heap s) (fresh s) ws
    (compactFrom (currentCols s) ∅ (map (layoutOf s) ws)).

Definition compactLayout (s : State) : State :=
  let sorted := sortedWidgets s in
  let '(compacted, h) := compactWidgets s sorted in
  {| heap := h; fresh := (fresh s + length sorted)%nat;
     dashboardConfig :=
       {| dashboardId := dashboardId (dashboardConfig s);
          title := title (dashboardConfig s);
          grid := grid (dashboardConfig s);
          widgets := compacted |};
     layoutChanges := layoutChanges s |}.

(** ** Cells *)

(** The cell [(cx, cy)] lies in the footprint of [l]. *)
Definition covers (l : WidgetLayout) (cx cy : Z) : Prop :=
  orZero (x l) <= cx < orZero (x l) + cols l /\
  orZero (y l) <= cy < orZero (y l) + rows l.

(** ** Collision-free lists *)

(** No two entries of the list collide. *)
Fixpoint disjointLayouts (ls : list WidgetLayout) : Prop :=
  match ls with
  | [] => True
  | l :: rest => Forall (fun m => collides l m = false) rest /\ disjointLayouts rest
  end.

Definition layouts (s : State) : list WidgetLayout :=
  map (layoutOf s) (currentWidgets s).

Definition collisionFree (s : State) : Prop := disjointLayouts (layouts s).

Definition addedLayout (inst : WidgetInstance) (position : option (Z * Z))
    (s : State) : WidgetLayout :=
  let p := match position with
           | Some p => p
           | None => findOptimalPosition s (layoutOf s inst)
           end in
  withPosition (layoutOf s inst) (fst p) (snd p).

(** ** resolveOverlaps as a search through the ring candidates *)

Fixpoint firstSome {A B} (f : A -> option B) (l : list A) : option B :=
  match l with
  | [] => None
  | a :: rest => match f a with Some b => Some b | None => firstSome f rest end
  end.

(** [count] consecutive integers from [start]. *)
Fixpoint span (start : Z) (count : nat) : list Z :=
  match count with
  | O => []
  | S n => start :: span (start + 1) n
  end.

(** The offsets on the perimeter of the ring of a radius, [dx] outermost,
    both ascending; the candidates of all rings, radius 1 to 10, clamped to
    non-negative coordinates. *)
Definition ringOffsets (radius : Z) : list (Z * Z) :=
  List.filter (fun d => (Z.abs (fst d) =? radius) || (Z.abs (snd d) =? radius))
    (flat_map (fun dx => map (fun dy => (dx, dy))
                             (span (- radius) (Z.to_nat (2 * radius + 1))))
              (span (- radius) (Z.to_nat (2 * radius + 1)))).

Definition ringCandidates (l : WidgetLayout) : list WidgetLayout :=
  map (fun d => withPosition l (Z.max 0 (orZero (x l) + fst d))
                               (Z.max 0 (orZero (y l) + snd d)))
      (flat_map ringOffsets (span 1 10)).

Definition acceptable (s : State) (instanceId : string) (t : WidgetLayout) : bool :=
  validateLayout s t && negb (hasOverlap s instanceId t).

(** What a successful update leaves behind: only the [layout] property of
    the widget's configuration object and the change history differ. *)
Definition updatedTo (s s' : State) (widget : WidgetInstance) (l : WidgetLayout)
  : Prop :=
  layoutOf s' widget = l /\
  dashboardConfig s' = dashboardConfig s /\
  (forall r, r <> config widget -> heap s' r = heap s r).

(** Every occupied cell lies above row [bottom]. *)
Definition below (occ : Cells) (bottom : Z) : Prop :=
  forall cx cy, (cx, cy) ∈ occ -> cy < bottom.

(** No widget falls back to (0, 0): every search of the compaction finds a
    place. *)
Fixpoint allPlaced (cols_ : Z) (occ : Cells) (ls : list WidgetLayout) : Prop :=
  match ls with
  | [] => True
  | l :: rest =>
      is_Some (searchCompactPosition l cols_ occ) /\
      allPlaced cols_ (markOccupied (findCompactPosition l cols_ occ) l occ) rest
  end.

Definition totalRows (ls : list WidgetLayout) : Z :=
  fold_right (fun l acc => Z.max 0 (rows l) + acc) 0 ls.

(** How a compacted widget sits: on free cells, at non-negative
    coordinates, and at the origin if it has no cell. *)
Definition placedOn (occ : Cells) (r : WidgetLayout) : Prop :=
  (forall cx cy, covers r cx cy -> (cx, cy) ∉ occ) /\
  0 <= orZero (x r) /\ 0 <= orZero (y r) /\
  (cols r <= 0 \/ rows r <= 0 -> orZero (x r) = 0 /\ orZero (y r) = 0).

(** ** What the layout manager keeps true of its widgets *)

(** The widgets fit the grid: none is wider than it and their heights add
    up to at most the 1000 rows that [findCompactPosition] searches. *)
Definition fitsGrid (s : State) : Prop :=
  Forall (fun l => cols l <= currentCols s) (layouts s) /\
  totalRows (layouts s) <= 1000.

Record Invariant (s : State) : Prop := {
  inv_free : collisionFree s;
  inv_ids : NoDup (map id (currentWidgets s));
  inv_configs : NoDup (map config (currentWidgets s));
  inv_named : ~ In ""%string (map id (currentWidgets s))
}.

(** ** Already compact layouts

    The specification's notion: going through the widgets sorted by
    (y, x), each one sits at the first position, row by row from the top
    and from the left within a row, at which it lies inside the grid and
    covers no cell of the widgets before it. *)
Definition available (cols_ : Z) (before : list WidgetLayout) (l : WidgetLayout)
    (px py : Z) : Prop :=
  0 <= py /\ 0 <= px <= cols_ - cols l /\
  forall cx cy, covers (withPosition l px py) cx cy ->
                forall m, In m before -> ~ covers m cx cy.

Definition rowMajorLe (px py qx qy : Z) : Prop :=
  py < qy \/ (py = qy /\ px <= qx).

Definition firstAvailable (cols_ : Z) (before : list WidgetLayout)
    (l : WidgetLayout) : Prop :=
  available cols_ before l (orZero (x l)) (orZero (y l)) /\
  forall qx qy, available cols_ before l qx qy ->
                rowMajorLe (orZero (x l)) (orZero (y l)) qx qy.

Fixpoint packedAfter (cols_ : Z) (before ls : list WidgetLayout) : Prop :=
  match ls with
  | [] => True
  | l :: rest =>
      firstAvailable cols_ before l /\ packedAfter cols_ (before ++ [l]) rest
  end.

Definition alreadyCompact (s : State) : Prop :=
  packedAfter (currentCols s) [] (map (layoutOf s) (sortedWidgets s)).

(** The widget has a position, above row 1000. *)
Definition positioned (l : WidgetLayout) : Prop :=
  is_Some (x l) /\ is_Some (y l) /\ orZero (y l) < 1000.

(** The occupied set holds the cells of the widgets placed so far. *)
Definition represents (occ : Cells) (placed : list WidgetLayout) : Prop :=
  forall cx cy, (cx, cy) ∈ occ <-> exists m, In m placed /\ covers m cx cy.

(** ** Scenarios *)

Definition sized (c r : Z) : WidgetLayout :=
  {| cols := c; rows := r; x := None; y := None; minCols := None;
     minRows := None; maxCols := None; maxRows := None |}.

Definition at_ (c r px py : Z) : WidgetLayout := withPosition (sized c r) px py.

Definition noChange : PartialLayout :=
  {| newCols := None; newRows := None; newX := None; newY := None;
     newMinCols := None; newMinRows := None; newMaxCols := None;
     newMaxRows := None |}.

Definition moveTo (px py : Z) : PartialLayout :=
  {| newCols := None; newRows := None; newX := Some px; newY := Some py;
     newMinCols := None; newMinRows := None; newMaxCols := None;
     newMaxRows := None |}.

Definition todoWidget : WidgetInstance := {| id := "todo_1700000000000_k3x9q2m1z"; config := 0%nat |}.

Definition graphWidget : WidgetInstance := {| id := "graph_1700000000500_p0w8e7r6t"; config := 1%nat |}.

(** Two 2x2 widgets, not yet placed. *)
Definition demoHeap : Heap := fun _ => sized 2 2.

Definition emptyDashboard : State := initialOn demoHeap 2%nat.

(** The todo widget placed by the search, the graph widget next to it. *)
Definition twoWidgets : State :=
  addWidget graphWidget None (addWidget todoWidget None emptyDashboard).

(** A one-column grid (the grid of the xs breakpoint) filled by
    [addWidget] alone, without a gap: a widget 1000 rows high, and a second
    one that the placement search, finding no free row among the first
    1000, puts below it at row 1000. *)
Definition tallHeap : Heap :=
  fun r => match r with O => sized 1 1000 | _ => sized 1 1 end.

Definition tallDashboard : State :=
  addWidget graphWidget None
    (addWidget todoWidget None (setGridCols 1 (initialOn tallHeap 2%nat))).

(** ** Further operations of the layout manager *)

(** [getWidgetLayout] (lines 248-252). *)
Definition getWidgetLayout (s : State) (instanceId : string)
  : option WidgetLayout :=
  match findWidget s instanceId with
  | Some widget => Some (layoutOf s widget)
  | None => None
  end.

(** [getGridConfig] (lines 257-259). *)
Definition getGridConfig (s : State) : Grid := grid (dashboardConfig s).

(** [Partial<DashboardConfig['grid']>]. *)
Record PartialGrid : Type := {
  newGridCols : option Z;
  newRowHeight : option Z;
  newMargin : option Z;
  newOuterMargin : option Z;
  newResponsive : option bool
}.

(** [updateGridConfig] (lines 264-270): [{ ...currentConfig.grid,
    ...gridConfig }] becomes the grid. *)
Definition updateGridConfig (p : PartialGrid) (s : State) : State :=
  let g := grid (dashboardConfig s) in
  {| heap := heap s; fresh := fresh s;
     dashboardConfig :=
       {| dashboardId := dashboardId (dashboardConfig s);
          title := title (dashboardConfig s);
          grid := {| gridCols := default (gridCols g) (newGridCols p);
                     rowHeight := default (rowHeight g) (newRowHeight p);
                     margin := default (margin g) (newMargin p);
                     outerMargin := default (outerMargin g) (newOuterMargin p);
                     responsive := default (responsive g) (newResponsive p) |};
          widgets := widgets (dashboardConfig s) |};
     layoutChanges := layoutChanges s |}.

(** [clearLayoutHistory] (lines 372-374). *)
Definition clearLayoutHistory (s : State) : State :=
  {| heap := heap s; fresh := fresh s; dashboardConfig := dashboardConfig s;
     layoutChanges := [] |}.

(** ** Responsive breakpoints (lines 12-18, 47-83, 289-305, 402-437,
    572-591) *)

(** [GridBreakpoint]; the media query is only handed to the breakpoint
    observer and is left out. *)
Record GridBreakpoint : Type := {
  bpName : string;
  bpCols : Z;
  bpRowHeight : Z;
  bpMargin : Z
}.

Definition breakpoints : list GridBreakpoint :=
  [ {| bpName := "xs"; bpCols := 1; bpRowHeight := 100; bpMargin := 8 |};
    {| bpName := "sm"; bpCols := 2; bpRowHeight := 100; bpMargin := 10 |};
    {| bpName := "md"; bpCols := 6; bpRowHeight := 100; bpMargin := 12 |};
    {| bpName := "lg"; bpCols := 12; bpRowHeight := 100; bpMargin := 15 |};
    {| bpName := "xl"; bpCols := 12; bpRowHeight := 120; bpMargin := 20 |} ].

(** [this.breakpoints[3]]. *)
Definition largeBreakpoint : GridBreakpoint :=
  {| bpName := "lg"; bpCols := 12; bpRowHeight := 100; bpMargin := 15 |}.

(** [optimizeWidgetForBreakpoint] (lines 572-591). *)
Definition optimizeWidgetForBreakpoint (l : WidgetLayout) (breakpoint : GridBreakpoint)
  : WidgetLayout :=
  let maxCols_ := Z.min (cols l) (bpCols breakpoint) in
  let adjustedCols := Z.max 1 maxCols_ in
  let adjustedX :=
    Z.min (orZero (x l)) (Z.max 0 (bpCols breakpoint - adjustedCols)) in
  {| cols := adjustedCols; rows := rows l; x := Some adjustedX; y := y l;
     minCols := minCols l; minRows := minRows l;
     maxCols := maxCols l; maxRows := maxRows l |}.

(** The layout manager with the breakpoint it currently holds, and the
    breakpoint that [distinctUntilChanged] let through last. *)
Record Service : Type := {
  layoutState : State;
  currentBreakpoint : GridBreakpoint;
  lastEmitted : option GridBreakpoint
}.

Definition serviceOn (h : Heap) (next : ref) : Service :=
  {| layoutState := initialOn h next; currentBreakpoint := largeBreakpoint;
     lastEmitted := None |}.

(** [optimizeLayoutForBreakpoint] (lines 289-305): every widget is
    replaced by a copy with a configuration object of its own. *)
Definition optimizeLayoutForBreakpoint (sv : Service) : Service :=
  let s := layoutState sv in
  let ws := currentWidgets s in
  let '(optimizedWidgets, h) :=
    allocate (heap s) (fresh s) ws
      (map (fun w => optimizeWidgetForBreakpoint (layoutOf s w)
                       (currentBreakpoint sv)) ws) in
  {| layoutState :=
       {| heap := h; fresh := (fresh s + length ws)%nat;
          dashboardConfig :=
            {| dashboardId := dashboardId (dashboardConfig s);
               title := title (dashboardConfig s);
               grid := grid (dashboardConfig s);
               widgets := optimizedWidgets |};
          layoutChanges := layoutChanges s |};
     currentBreakpoint := currentBreakpoint sv;
     lastEmitted := lastEmitted sv |}.

(** What the five breakpoint observers report, in the order of
    [breakpoints]. *)
Record Matches : Type := {
  xsMatches : bool;
  smMatches : bool;
  mdMatches : bool;
  lgMatches : bool;
  xlMatches : bool
}.

Definition results (m : Matches) : list bool :=
  [xsMatches m; smMatches m; mdMatches m; lgMatches m; xlMatches m].

(** The [map] step of [setupResponsiveBreakpoints] (lines 411-419). *)
Definition activeBreakpoint (m : Matches) : GridBreakpoint :=
  match findIndex (fun matches => matches) (results m) with
  | Some activeIndex => nth activeIndex breakpoints largeBreakpoint
  | None => largeBreakpoint
  end.

(** The subscriber of [setupResponsiveBreakpoints] (lines 422-436). *)
Definition breakpointChanged (breakpoint : GridBreakpoint) (sv : Service)
  : Service :=
  let sv1 :=
    {| layoutState :=
         updateGridConfig
           {| newGridCols := Some (bpCols breakpoint);
              newRowHeight := Some (bpRowHeight breakpoint);
              newMargin := Some (bpMargin breakpoint);
              newOuterMargin := None; newResponsive := None |}
           (layoutState sv);
       currentBreakpoint := breakpoint;
       lastEmitted := lastEmitted sv |} in
  if responsive (getGridConfig (layoutState sv1))
  then optimizeLayoutForBreakpoint sv1
  else sv1.

(** One report of the observers going through [map],
    [distinctUntilChanged((a, b) => a.name === b.name)] and the
    subscriber. *)
Definition observe (m : Matches) (sv : Service) : Service :=
  let breakpoint := activeBreakpoint m in
  match lastEmitted sv with
  | Some previous =>
      if String.eqb (bpName previous) (bpName breakpoint) then sv
      else
        breakpointChanged breakpoint
          {| layoutState := layoutState sv;
             currentBreakpoint := currentBreakpoint sv;
             lastEmitted := Some breakpoint |}
  | None =>
      breakpointChanged breakpoint
        {| layoutState := layoutState sv;
           currentBreakpoint := currentBreakpoint sv;
           lastEmitted := Some breakpoint |}
  end.



(** The calls that change the layout manager, for statements about any
    sequence of them. *)
Inductive Op : Type :=
| OAddWidget (inst : WidgetInstance) (position : option (Z * Z))
| ORemoveWidget (instanceId : string)
| OUpdateWidgetLayout (instanceId : string) (p : PartialLayout)
| OUpdateGridConfig (p : PartialGrid)
| OOptimizeLayoutForBreakpoint
| OCompactLayout
| OClearLayoutHistory
| OObserve (m : Matches).

Definition onState (f : State -> State) (sv : Service) : Service :=
  {| layoutState := f (layoutState sv);
     currentBreakpoint := currentBreakpoint sv;
     lastEmitted := lastEmitted sv |}.

Definition perform (o : Op) (sv : Service) : Service :=
  match o with
  | OAddWidget inst position => onState (addWidget inst position) sv
  | ORemoveWidget instanceId => onState (fun s => snd (removeWidget instanceId s)) sv
  | OUpdateWidgetLayout instanceId p =>
      onState (fun s => snd (updateWidgetLayout instanceId p s)) sv
  | OUpdateGridConfig p => onState (updateGridConfig p) sv
  | OOptimizeLayoutForBreakpoint => optimizeLayoutForBreakpoint sv
  | OCompactLayout => onState compactLayout sv
  | OClearLayoutHistory => onState clearLayoutHistory sv
  | OObserve m => observe m sv
  end.

Definition performAll (ops : list Op) (sv : Service) : Service :=
  fold_left (fun sv o => perform o sv) ops sv.

(** The change history the service holds. *)
Definition history (sv : Service) : list LayoutChange :=
  layoutChanges (layoutState sv).

(** ** Numbers

    The code computes with IEEE doubles, this development with integers.
    On integers of magnitude at most 10^15 the two agree: every sum and
    difference the layout manager forms of them (a coordinate and a size,
    a loop index and a size, two coordinates) is an integer of magnitude
    below 2^53 and is exact as a double. *)
Definition safeNumber (n : Z) : Prop := Z.abs n <= 10 ^ 15.

Definition safeLayout (l : WidgetLayout) : Prop :=
  safeNumber (cols l) /\ safeNumber (rows l) /\
  safeNumber (orZero (x l)) /\ safeNumber (orZero (y l)).

Definition safePartial (p : PartialLayout) : Prop :=
  forall n, In (Some n) [newCols p; newRows p; newX p; newY p] -> safeNumber n.

Definition safeState (s : State) : Prop :=
  safeNumber (currentCols s) /\ Forall safeLayout (layouts s).

(** ** Sequences of calls that keep the widgets apart *)

(** The layout fits the breakpoint's columns, so that
    [optimizeWidgetForBreakpoint] keeps its width and its place. *)
Definition fitsBreakpoint (breakpoint : GridBreakpoint) (l : WidgetLayout)
  : Prop :=
  1 <= cols l <= bpCols breakpoint /\
  orZero (x l) + cols l <= bpCols breakpoint.

(** What the invariant asks of a call.  The numbers in the dashboard and
    in the call are safe.  A widget is added once, under a non-empty id of
    its own, with a configuration object of its own, and an explicit
    position must be free; a compaction must fit the grid; and a change of
    breakpoint on a responsive grid must find the widgets fitting the new
    columns. *)
Definition allowed (o : Op) (sv : Service) : Prop :=
  let s := layoutState sv in
  safeState s /\
  match o with
  | OAddWidget inst position =>
      id inst <> ""%string /\
      ~ In (id inst) (map id (currentWidgets s)) /\
      ~ In (config inst) (map config (currentWidgets s)) /\
      safeLayout (layoutOf s inst) /\
      match position with
      | Some p =>
          safeNumber (fst p) /\ safeNumber (snd p) /\
          hasOverlap s "" (withPosition (layoutOf s inst) (fst p) (snd p)) = false
      | None => True
      end
  | ORemoveWidget _ => True
  | OUpdateWidgetLayout _ p => safePartial p
  | OUpdateGridConfig p => forall n, newGridCols p = Some n -> safeNumber n
  | OOptimizeLayoutForBreakpoint =>
      Forall (fitsBreakpoint (currentBreakpoint sv)) (layouts s)
  | OCompactLayout => fitsGrid s
  | OClearLayoutHistory => True
  | OObserve m =>
      responsive (getGridConfig s) = false \/
      Forall (fitsBreakpoint (activeBreakpoint m)) (layouts s)
  end.

Fixpoint admits (ops : list Op) (sv : Service) : Prop :=
  match ops with
  | [] => True
  | o :: rest => allowed o sv /\ admits rest (perform o sv)
  end.

(** ** Further scenarios *)

Definition testsWidget : WidgetInstance :=
  {| id := "tests-info_1700000001000_a1b2c3d4e"; config := 2%nat |}.

(** Three 2x2 widgets side by side. *)
Definition threeWidgets : State :=
  addWidget testsWidget None
    (addWidget graphWidget None
       (addWidget todoWidget None (initialOn demoHeap 3%nat))).

(** Only the medium breakpoint matches; the medium and the large one do. *)
Definition mediumOnly : Matches :=
  {| xsMatches := false; smMatches := false; mdMatches := true;
     lgMatches := false; xlMatches := false |}.

Definition mediumAndLarge : Matches :=
  {| xsMatches := false; smMatches := false; mdMatches := true;
     lgMatches := true; xlMatches := false |}.

(** The report that only the smallest breakpoint matches. *)
Definition smallestOnly : Matches :=
  {| xsMatches := true; smMatches := false; mdMatches := false;
     lgMatches := false; xlMatches := false |}.

End Layout.

(* ===================================================================== *)
(** * Collision helpers of the dashboard component (widget-dashboard.component.ts) *)
(* ===================================================================== *)

Module Dashboard.
Import Js.
Import Layout.

(** [isColliding] (lines 1301-1314), on the layouts of the two widgets. *)
Definition isColliding (w1 w2 : WidgetLayout) : bool :=
  negb ((orZero (x w1) + cols w1 <=? orZero (x w2)) ||
        (orZero (x w2) + cols w2 <=? orZero (x w1)) ||
        (orZero (y w1) + rows w1 <=? orZero (y w2)) ||
        (orZero (y w2) + rows w2 <=? orZero (y w1))).


End Dashboard.

(* ===================================================================== *)
(** * Export and import (dashboard-layout-manager.service.ts, 379-397) *)
(* ===================================================================== *)

Module Persist.
Import Js.

(** [JSON.stringify] leaves out a property whose value is undefined or a
    function, and writes null for such an array element. *)
Definition serializable (v : JsVal) : bool :=
  match v with
  | JUndefined | JFunc _ => false
  | _ => true
  end.

(** The value [JSON.parse(JSON.stringify(v))] for a serializable [v]: a
    Date becomes its ISO string ([Date.prototype.toJSON]).  [JSON.stringify]
    calls [toJSON] wherever it finds such a method; of the values here
    only a Date has one, and an object that carries a function under the
    key [toJSON] is not described by this function (see [noToJSON]). *)
Fixpoint jsonImage (v : JsVal) : JsVal :=
  match v with
  | JUndefined | JFunc _ => JUndefined
  | JNull => JNull
  | JBool b => JBool b
  | JNum n => JNum n
  | JStr s => JStr s
  | JDate iso => JStr iso
  | JArr items =>
      JArr (map (fun i => if serializable i then jsonImage i else JNull) items)
  | JObj props =>
      JObj ((fix go (l : list (string * JsVal)) : list (string * JsVal) :=
               match l with
               | [] => []
               | (k, v') :: rest =>
                   if serializable v' then (k, jsonImage v') :: go rest
                   else go rest
               end) props)
  end.

(** The values JSON texts denote. *)
Fixpoint isJson (v : JsVal) : bool :=
  match v with
  | JUndefined | JFunc _ | JDate _ => false
  | JNull | JBool _ | JNum _ | JStr _ => true
  | JArr items => forallb isJson items
  | JObj props =>
      (fix go (l : list (string * JsVal)) : bool :=
         match l with
         | [] => true
         | (_, v') :: rest => isJson v' && go rest
         end) props
  end.

(** No object of the value has a method [toJSON] of its own: a function
    under that key, which [JSON.stringify] would call to get the value it
    writes. *)
Fixpoint noToJSON (v : JsVal) : bool :=
  match v with
  | JArr items => forallb noToJSON items
  | JObj props =>
      (fix go (l : list (string * JsVal)) : bool :=
         match l with
         | [] => true
         | (k, v') :: rest =>
             negb (String.eqb k "toJSON" &&
                   match v' with JFunc _ => true | _ => false end) &&
             noToJSON v' && go rest
         end) props
  | _ => true
  end.

(** A string handed to [JSON.parse]: a JSON text, known by the value it
    denotes (layout and white space do not matter to [JSON.parse]), or a
    string that is no JSON text. *)
Inductive Text : Type :=
| Json (v : JsVal)
| NotJson.

(** The layout manager's configuration as JSON sees it: a plain value. *)
Record State : Type := { dashboardConfig : JsVal }.

(** [exportDashboard] (lines 379-382).  [JSON.stringify] returns
    undefined for a configuration that is undefined or a function, which
    [JSON.parse] then refuses; on the values of [JsVal], which have no
    cycles and no BigInt, it does not throw. *)
Definition exportDashboard (s : State) : Text :=
  if serializable (dashboardConfig s) then Json (jsonImage (dashboardConfig s))
  else NotJson.

(** [validateDashboardConfig] (lines 694-703): [true] when it returns,
    [false] when it throws (also on the property access on null). *)
Definition validateDashboardConfig (config : JsVal) : bool :=
  match config with
  | JNull | JUndefined => false
  | _ =>
      truthy (member "id" config) && truthy (member "title" config) &&
      truthy (member "grid" config) && isArray (member "widgets" config)
  end.

(** [importDashboard] (lines 387-397). *)
Definition importDashboard (configJson : Text) (s : State) : bool * State :=
  match configJson with
  | NotJson => (false, s)
  | Json config =>
      if validateDashboardConfig config
      then (true, {| dashboardConfig := config |})
      else (false, s)
  end.

(** ** Facts *)

(** Induction on values, through arrays and objects. *)
Fixpoint JsVal_nested_ind (P : JsVal -> Prop)
    (Hundef : P JUndefined) (Hnull : P JNull)
    (Hbool : forall b, P (JBool b)) (Hnum : forall n, P (JNum n))
    (Hstr : forall s, P (JStr s)) (Hdate : forall iso, P (JDate iso))
    (Hfunc : forall f, P (JFunc f))
    (Harr : forall items, Forall P items -> P (JArr items))
    (Hobj : forall props, Forall (fun kv => P (snd kv)) props -> P (JObj props))
    (v : JsVal) {struct v} : P v :=
  let rec := JsVal_nested_ind P Hundef Hnull Hbool Hnum Hstr Hdate Hfunc Harr Hobj in
  match v with
  | JUndefined => Hundef
  | JNull => Hnull
  | JBool b => Hbool b
  | JNum n => Hnum n
  | JStr s => Hstr s
  | JDate iso => Hdate iso
  | JFunc f => Hfunc f
  | JArr items =>
      Harr items
        ((fix go (l : list JsVal) : Forall P l :=
            match l return Forall P l with
            | [] => List.Forall_nil P
            | i :: rest => @List.Forall_cons _ P i rest (rec i) (go rest)
            end) items)
  | JObj props =>
      Hobj props
        ((fix go (l : list (string * JsVal)) : Forall (fun kv => P (snd kv)) l :=
            match l return Forall (fun kv => P (snd kv)) l with
            | [] => List.Forall_nil _
            | kv :: rest => @List.Forall_cons _ (fun kv => P (snd kv)) kv rest (rec (snd kv)) (go rest)
            end) props)
  end.

(** The configuration has the four fields the import checks, with the
    types of [DashboardConfig]: non-empty [id] and [title] strings, a
    [grid] object, a [widgets] array. *)
Definition wellFormed (config : JsVal) : Prop :=
  exists props i t g ws,
    config = JObj props /\
    lookupProp "id" props = Some (JStr i) /\ i <> ""%string /\
    lookupProp "title" props = Some (JStr t) /\ t <> ""%string /\
    lookupProp "grid" props = Some (JObj g) /\
    lookupProp "widgets" props = Some (JArr ws).

(** The configuration has the field types of [DashboardConfig]: strings
    [id] and [title], a [grid] object, a [widgets] array. *)
Definition typedConfig (config : JsVal) (id title : string) : Prop :=
  exists props g ws,
    config = JObj props /\
    lookupProp "id" props = Some (JStr id) /\
    lookupProp "title" props = Some (JStr title) /\
    lookupProp "grid" props = Some (JObj g) /\
    lookupProp "widgets" props = Some (JArr ws).

(** ** Scenarios *)

Definition gridObject : JsVal :=
  JObj [("cols", JNum 12); ("rowHeight", JNum 100); ("margin", JNum 10);
        ("outerMargin", JNum 10); ("responsive", JBool true)].


(** A widget instance as [createWidget] builds it, with its two dates;
    the definition carries the component class. *)
Definition todoInstance : JsVal :=
  JObj [("id", JStr "todo_1700000000000_k3x9q2m1z");
        ("definition", JObj [("type", JStr "todo"); ("name", JStr "Todo");
                             ("component", JFunc "TodoWidgetComponent")]);
        ("config", JObj [("type", JStr "todo"); ("title", JStr "Todo");
                         ("layout", JObj [("cols", JNum 2); ("rows", JNum 2);
                                          ("x", JNum 0); ("y", JNum 0)])]);
        ("state", JStr "loaded");
        ("createdAt", JDate "2023-11-14T22:13:20.000Z");
        ("updatedAt", JDate "2023-11-14T22:13:20.000Z")].

Definition oneWidgetConfig : JsVal :=
  JObj [("id", JStr "default"); ("title", JStr "Dashboard");
        ("grid", gridObject); ("widgets", JArr [todoInstance])].

(** ** saveLayout and loadLayout (lines 330-360) *)

(** [localStorage]: the strings stored under each key.  An empty string,
    which [if (stored)] skips, and a string that [JSON.parse] refuses both
    end in [return false]; they are the one case [NotJson]. *)
Definition Storage : Type := JsMap Text.


(** [loadLayout(storageKey)]: [layoutData.config] throws on null, any
    other parsed value has a [config], possibly undefined, that becomes
    the configuration as it is. *)
Definition loadLayout (storageKey : string) (storage : Storage) (s : State)
  : bool * State :=
  match mapGet storageKey storage with
  | Some (Json layoutData) =>
      match layoutData with
      | JNull | JUndefined => (false, s)
      | _ => (true, {| dashboardConfig := member "config" layoutData |})
      end
  | Some NotJson => (false, s)
  | None => (false, s)
  end.

End Persist.

(* ===================================================================== *)
(** * Facts: JavaScript values, objects and Maps *)
(* ===================================================================== *)

Module JsFacts.
Import Js.

(** ** Facts about objects and Maps *)

Lemma lookupProp_setProp (k k' : string) (v : JsVal) (o : Obj) :
  lookupProp k (setProp k' v o) =
  if String.eqb k k' then Some v else lookupProp k o.
Proof.
  induction o as [|[k0 v0] rest IH]; simpl.
  - destruct (String.eqb k k'); reflexivity.
  - destruct (String.eqb k' k0) eqn:E0; simpl.
    + apply String.eqb_eq in E0; subst k0.
      destruct (String.eqb k k'); reflexivity.
    + rewrite IH. destruct (String.eqb k k') eqn:E1; [|reflexivity].
      apply String.eqb_eq in E1; subst k'. now rewrite E0.
Qed.

Lemma lookupProp_spread (k : string) (source target : Obj) :
  NoDup (map fst source) ->
  lookupProp k (spread target source) =
  match lookupProp k source with
  | Some v => Some v
  | None => lookupProp k target
  end.
Proof.
  unfold spread. revert target.
  induction source as [|[k0 v0] rest IH]; intros target Hnd; simpl.
  - reflexivity.
  - inversion Hnd as [|? ? Hnotin Hnd']; subst.
    rewrite IH by assumption.
    destruct (String.eqb k k0) eqn:E.
    + apply String.eqb_eq in E; subst k0.
      assert (lookupProp k rest = None) as ->.
      { clear -Hnotin. induction rest as [|[k1 v1] r IHr]; simpl; [reflexivity|].
        destruct (String.eqb k k1) eqn:E1.
        - apply String.eqb_eq in E1; subst. exfalso. apply Hnotin. now left.
        - apply IHr. intros Hin. apply Hnotin. now right. }
      rewrite lookupProp_setProp. now rewrite String.eqb_refl.
    + destruct (lookupProp k rest); [reflexivity|].
      rewrite lookupProp_setProp. now rewrite E.
Qed.

Lemma mapGet_mapSet {V} (k k' : string) (v : V) (m : JsMap V) :
  mapGet k (mapSet k' v m) = if String.eqb k k' then Some v else mapGet k m.
Proof.
  induction m as [|[k0 v0] rest IH]; simpl.
  - destruct (String.eqb k k'); reflexivity.
  - destruct (String.eqb k' k0) eqn:E0; simpl.
    + apply String.eqb_eq in E0; subst k0.
      destruct (String.eqb k k'); reflexivity.
    + rewrite IH. destruct (String.eqb k k') eqn:E1; [|reflexivity].
      apply String.eqb_eq in E1; subst k'. now rewrite E0.
Qed.

Lemma mapGet_mapDelete {V} (k k' : string) (m : JsMap V) :
  mapGet k (mapDelete k' m) = if String.eqb k k' then None else mapGet k m.
Proof.
  induction m as [|[k0 v0] rest IH]; simpl.
  - destruct (String.eqb k k'); reflexivity.
  - destruct (String.eqb k' k0) eqn:E0; simpl.
    + apply String.eqb_eq in E0; subst k0. rewrite IH.
      destruct (String.eqb k k'); reflexivity.
    + rewrite IH. destruct (String.eqb k k') eqn:E1; [|reflexivity].
      apply String.eqb_eq in E1; subst k'. now rewrite E0.
Qed.

Lemma append_nil_r (s : string) : s +:+ "" = s.
Proof.
  induction s as [|a s IH]; [reflexivity|].
  change (String a (s +:+ "") = String a s). now rewrite IH.
Qed.

Lemma append_assoc (a b c : string) : (a +:+ b) +:+ c = a +:+ (b +:+ c).
Proof.
  induction a as [|x a IH]; [reflexivity|].
  change (String x ((a +:+ b) +:+ c) = String x (a +:+ (b +:+ c))).
  now rewrite IH.
Qed.

Lemma join_occurs (sep s : string) (l : list string) :
  In s l -> occursIn s (join sep l).
Proof.
  induction l as [|s0 rest IH]; intros Hin; [destruct Hin|].
  destruct rest as [|s1 rest'].
  - destruct Hin as [->|[]]. exists "", "".
    change ("" +:+ (s +:+ "")) with (s +:+ ""). now rewrite append_nil_r.
  - change (join sep (s0 :: s1 :: rest'))
      with (s0 +:+ (sep +:+ join sep (s1 :: rest'))).
    destruct Hin as [->|Hin].
    + exists "", (sep +:+ join sep (s1 :: rest')). reflexivity.
    + destruct (IH Hin) as (pre & post & ->).
      exists (s0 +:+ (sep +:+ pre)), post.
      now rewrite !append_assoc.
Qed.

Lemma occursIn_prefixed (needle pre hay : string) :
  occursIn needle hay -> occursIn needle (pre +:+ hay).
Proof.
  intros (a & b & ->). exists (pre +:+ a), b. now rewrite append_assoc.
Qed.

(** ** Maps, continued *)

Lemma mapGet_Some_In {V} (k : string) (v : V) (m : JsMap V) :
  mapGet k m = Some v -> In (k, v) m.
Proof.
  induction m as [|[k0 v0] rest IH]; simpl; [discriminate|].
  destruct (String.eqb k k0) eqn:E.
  - apply String.eqb_eq in E. intros [= ->]. left. now subst.
  - intros H. right. now apply IH.
Qed.

Lemma mapGet_None_keys {V} (k : string) (m : JsMap V) :
  mapGet k m = None <-> ~ In k (map fst m).
Proof.
  induction m as [|[k0 v0] rest IH]; simpl; [tauto|].
  destruct (String.eqb k k0) eqn:E.
  - apply String.eqb_eq in E. subst. split; [discriminate|]. intros H. exfalso. tauto.
  - apply String.eqb_neq in E. rewrite IH. split; [|tauto].
    intros H [Heq|Hin]; [congruence|tauto].
Qed.

Lemma In_mapGet {V} (k : string) (v : V) (m : JsMap V) :
  NoDup (map fst m) -> In (k, v) m -> mapGet k m = Some v.
Proof.
  induction m as [|[k0 v0] rest IH]; simpl; [tauto|].
  intros Hnd [Heq|Hin].
  - inversion Heq; subst. now rewrite String.eqb_refl.
  - apply NoDup_cons in Hnd as [Hk0 Hnd].
    destruct (String.eqb k k0) eqn:E.
    + apply String.eqb_eq in E. subst. exfalso. apply Hk0.
      apply list_elem_of_In. apply (in_map fst) in Hin. exact Hin.
    + now apply IH.
Qed.

Lemma mapHas_keys {V} (k : string) (m : JsMap V) :
  mapHas k m = true <-> In k (map fst m).
Proof.
  unfold mapHas. destruct (mapGet k m) eqn:E.
  - split; [|reflexivity]. intros _.
    apply mapGet_Some_In in E. now apply (in_map fst) in E.
  - apply mapGet_None_keys in E. split; [discriminate|tauto].
Qed.

Lemma mapSet_keys {V} (k : string) (v : V) (m : JsMap V) :
  map fst (mapSet k v m) = if mapHas k m then map fst m else map fst m ++ [k].
Proof.
  unfold mapHas. induction m as [|[k0 v0] rest IH]; simpl; [reflexivity|].
  destruct (String.eqb k k0) eqn:E; simpl; [reflexivity|].
  rewrite IH. now destruct (mapGet k rest).
Qed.

Lemma mapDelete_keys {V} (k : string) (m : JsMap V) :
  map fst (mapDelete k m)
  = List.filter (fun k' => negb (String.eqb k k')) (map fst m).
Proof.
  induction m as [|[k0 v0] rest IH]; simpl; [reflexivity|].
  destruct (String.eqb k k0); simpl; now rewrite IH.
Qed.

Lemma NoDup_mapSet {V} (k : string) (v : V) (m : JsMap V) :
  NoDup (map fst m) -> NoDup (map fst (mapSet k v m)).
Proof.
  intros H. rewrite mapSet_keys. destruct (mapHas k m) eqn:E; [exact H|].
  apply NoDup_app. split; [exact H|]. split.
  - intros k' Hin Hk. apply list_elem_of_In in Hin.
    apply list_elem_of_singleton in Hk. subst k'.
    apply mapHas_keys in Hin. congruence.
  - apply NoDup_singleton.
Qed.

Lemma NoDup_filter_In {A} (f : A -> bool) (l : list A) :
  NoDup l -> NoDup (List.filter f l).
Proof.
  induction l as [|a l IH]; simpl; [trivial|].
  intros H. apply NoDup_cons in H as [Ha H].
  destruct (f a); [|now apply IH].
  apply NoDup_cons. split; [|now apply IH].
  intros Hin. apply Ha. apply list_elem_of_In in Hin. apply list_elem_of_In.
  apply filter_In in Hin. tauto.
Qed.

Lemma NoDup_mapDelete {V} (k : string) (m : JsMap V) :
  NoDup (map fst m) -> NoDup (map fst (mapDelete k m)).
Proof. intros H. rewrite mapDelete_keys. now apply NoDup_filter_In. Qed.

Lemma mapValues_In {V} (v : V) (m : JsMap V) :
  NoDup (map fst m) ->
  In v (mapValues m) <-> exists k, mapGet k m = Some v.
Proof.
  intros Hnd. unfold mapValues. rewrite in_map_iff. split.
  - intros ([k v'] & <- & Hin). exists k. now apply In_mapGet.
  - intros (k & Hk). exists (k, v). split; [reflexivity|]. now apply mapGet_Some_In.
Qed.

Lemma NoDup_map_index {A B} (f : A -> B) (l : list A) i j a b :
  NoDup (map f l) -> l !! i = Some a -> l !! j = Some b -> f a = f b -> i = j.
Proof.
  intros Hnd Hi Hj Hf.
  apply (NoDup_lookup (map f l) i j (f a)); [exact Hnd| |];
    change (map f l) with (f <$> l); rewrite list_lookup_fmap.
  - now rewrite Hi.
  - rewrite Hj. simpl. now rewrite Hf.
Qed.

Lemma NoDup_push {A} (l : list A) (a : A) :
  NoDup l -> ~ In a l -> NoDup (l ++ [a]).
Proof.
  intros Hnd Hin. apply NoDup_app. split; [exact Hnd|]. split.
  - intros x Hx Hx'. apply list_elem_of_singleton in Hx'. subst x.
    apply Hin. now apply list_elem_of_In.
  - apply NoDup_singleton.
Qed.

Lemma findIndex_Some {A} (f : A -> bool) (l : list A) (i : nat) :
  findIndex f l = Some i ->
  exists a, l !! i = Some a /\ f a = true /\
            forall j b, (j < i)%nat -> l !! j = Some b -> f b = false.
Proof.
  revert i. induction l as [|a l IH]; intros i; simpl; [discriminate|].
  destruct (f a) eqn:E.
  - intros [= <-]. exists a. repeat split; [exact E|]. intros j b Hj. lia.
  - destruct (findIndex f l) as [k|]; simpl; [|discriminate].
    intros [= <-]. destruct (IH k eq_refl) as (a' & Ha' & Hf & Hbefore).
    exists a'. repeat split; [exact Ha'|exact Hf|].
    intros [|j] b Hj; simpl; [now intros [= <-]|]. apply Hbefore. lia.
Qed.

Lemma findIndex_None {A} (f : A -> bool) (l : list A) :
  findIndex f l = None <-> forall a, In a l -> f a = false.
Proof.
  induction l as [|a l IH]; simpl; [tauto|].
  destruct (f a) eqn:E.
  - split; [discriminate|]. intros H. rewrite (H a) in E; [discriminate|now left].
  - destruct (findIndex f l); simpl.
    + split; [discriminate|]. intros H. exfalso.
      assert (Hn : Some n = None); [|discriminate].
      apply IH. intros a' Ha'. apply H. now right.
    + split; [|reflexivity]. intros _ a' [<-|Hin]; [exact E|].
      now apply (proj1 IH eq_refl).
Qed.

Lemma mapSet_absent {V} (k : string) (v : V) (m : JsMap V) :
  mapGet k m = None -> mapSet k v m = m ++ [(k, v)].
Proof.
  induction m as [|[k0 v0] rest IH]; simpl; [reflexivity|].
  destruct (String.eqb k k0); [discriminate|]. intros H. now rewrite IH.
Qed.

Lemma mapGet_app_absent {V} (k : string) (m m' : JsMap V) :
  mapGet k m = None -> mapGet k (m ++ m') = mapGet k m'.
Proof.
  induction m as [|[k0 v0] rest IH]; simpl; [reflexivity|].
  destruct (String.eqb k k0); [discriminate|]. exact IH.
Qed.

Lemma mapSet_mapSet {V} (k : string) (v v' : V) (m : JsMap V) :
  mapSet k v' (mapSet k v m) = mapSet k v' m.
Proof.
  induction m as [|[k0 v0] rest IH]; simpl.
  - now rewrite String.eqb_refl.
  - destruct (String.eqb k k0) eqn:E; simpl; rewrite E; [reflexivity|].
    now rewrite IH.
Qed.

Lemma In_mapDelete {V} (k k' : string) (v : V) (m : JsMap V) :
  In (k', v) (mapDelete k m) -> In (k', v) m.
Proof.
  induction m as [|[k0 v0] rest IH]; simpl; [tauto|].
  destruct (String.eqb k k0); simpl; [tauto|]. intros [H|H]; [now left|right; tauto].
Qed.

Lemma mapSet_mapDelete {V} (k : string) (v : V) (m : JsMap V) :
  mapDelete k (mapSet k v m) = mapDelete k m.
Proof.
  induction m as [|[k0 v0] rest IH]; simpl.
  - now rewrite String.eqb_refl.
  - destruct (String.eqb k k0) eqn:E; simpl; rewrite E; [reflexivity|].
    now rewrite IH.
Qed.

Lemma mapHas_nil {V} (m : JsMap V) :
  (forall k, mapHas k m = false) -> m = [].
Proof.
  destruct m as [|[k v] rest]; [reflexivity|]. intros H. specialize (H k).
  unfold mapHas in H. simpl in H. now rewrite String.eqb_refl in H.
Qed.

Lemma length_append_string (a b : string) :
  String.length (a +:+ b) = (String.length a + String.length b)%nat.
Proof.
  induction a as [|x a IH]; [reflexivity|].
  change (S (String.length (a +:+ b)) = S (String.length a + String.length b)).
  now rewrite IH.
Qed.

Lemma In_mapSet {V} (k k' : string) (v v' : V) (m : JsMap V) :
  In (k', v') (mapSet k v m) -> (k' = k /\ v' = v) \/ In (k', v') m.
Proof.
  induction m as [|[k0 v0] rest IH]; simpl.
  - intros [[= <- <-]|[]]. now left.
  - destruct (String.eqb k k0) eqn:E; simpl.
    + apply String.eqb_eq in E. subst k0. intros [[= <- <-]|H]; [now left|right; now right].
    + intros [H|H]; [right; now left|]. destruct (IH H) as [?|?]; [now left|right; now right].
Qed.

End JsFacts.

(* ===================================================================== *)
(** * Facts: Widget registry (widget-registry.service.ts) *)
(* ===================================================================== *)

Module RegistryFacts.
Import Js. Import Registry.

(** ** Facts *)

Lemma hasWidget_getWidget (r : State) (ty : string) :
  hasWidget r ty = true <-> exists d, getWidget r ty = Some d.
Proof.
  unfold hasWidget, getWidget, mapHas.
  destruct (mapGet ty (widgets r)) as [d|]; split; intros H;
    try discriminate; eauto. now destruct H.
Qed.

Lemma checkDependencies_missing (r : State) (ty dep : string) :
  In dep (missing (checkDependencies r ty)) <->
  exists d deps, getWidget r ty = Some d /\ dependencies d = Some deps /\
                 In dep deps /\ hasWidget r dep = false.
Proof.
  unfold checkDependencies.
  destruct (getWidget r ty) as [d|] eqn:Hd.
  - destruct (dependencies d) as [deps|] eqn:Hdeps; simpl.
    + rewrite filter_In, negb_true_iff. split.
      * intros [Hin Hno]. exists d, deps. auto.
      * intros (d' & deps' & Hd' & Hdeps' & Hin & Hno).
        inversion Hd'; subst d'. rewrite Hdeps in Hdeps'.
        inversion Hdeps'; subst. auto.
    + split; [tauto|]. intros (d' & deps' & Hd' & Hdeps' & _).
      inversion Hd'; subst d'. congruence.
  - simpl. split; [tauto|]. intros (d' & _ & Hd' & _). discriminate.
Qed.

Lemma checkDependencies_satisfied (r : State) (ty : string) :
  satisfied (checkDependencies r ty) = true <->
  missing (checkDependencies r ty) = [].
Proof.
  unfold checkDependencies.
  destruct (getWidget r ty) as [d|]; [|simpl; tauto].
  destruct (dependencies d) as [deps|]; [|simpl; tauto].
  simpl. destruct (List.filter _ deps); simpl; split; congruence.
Qed.

(** C10.  Asked about a type that is not registered at all,
    [checkDependencies] answers [{satisfied: true, missing: []}]: the very
    answer it gives for a registered definition that declares no
    dependencies.  The function is total and the unregistered type is not
    reported as missing. *)
Theorem checkDependencies_unregistered :
  forall (r : State) (ty : string),
    getWidget r ty = None ->
    checkDependencies r ty = {| satisfied := true; missing := [] |} /\
    ~ In ty (missing (checkDependencies r ty)) /\
    (forall (r' : State) (ty' : string) (d : WidgetDefinition),
        getWidget r' ty' = Some d ->
        dependencies d = None \/ dependencies d = Some [] ->
        checkDependencies r' ty' = checkDependencies r ty).
Proof.
  intros r ty Hnone. unfold checkDependencies at 1 2. rewrite Hnone.
  split; [reflexivity|]. split; [simpl; tauto|].
  intros r' ty' d Hd Hdeps. unfold checkDependencies. rewrite Hd, Hnone.
  destruct Hdeps as [-> | ->]; reflexivity.
Qed.

(** C10, witness: the empty registry asked about an unknown type. *)
Lemma checkDependencies_unregistered_witness :
  getWidget empty "ghost" = None /\
  checkDependencies empty "ghost" = {| satisfied := true; missing := [] |}.
Proof.
  split; [reflexivity|].
  exact (proj1 (checkDependencies_unregistered empty "ghost" eq_refl)).
Defined.

End RegistryFacts.

(* ===================================================================== *)
(** * Facts: the registry with its category index *)
(* ===================================================================== *)

Module RegistryServiceFacts.
Import Js. Import JsFacts. Import Registry. Import RegistryService.

Lemma sameType_true d w : sameType d w = true <-> type w = type d.
Proof. unfold sameType. apply String.eqb_eq. Qed.

Lemma sameType_false d w : sameType d w = false <-> type w <> type d.
Proof. unfold sameType. apply String.eqb_neq. Qed.

Lemma placeDefinition_spec d l :
  NoDup (map type l) ->
  placeDefinition d l <> [] /\
  NoDup (map type (placeDefinition d l)) /\
  forall e, In e (placeDefinition d l) <->
            e = d \/ (In e l /\ type e <> type d).
Proof.
  intros Hnd. unfold placeDefinition.
  destruct (findIndex (sameType d) l) as [i|] eqn:E.
  - apply findIndex_Some in E as (a & Hi & Ha & _).
    apply sameType_true in Ha.
    split.
    { intros Hnil. apply (f_equal length) in Hnil.
      rewrite length_insert in Hnil. apply lookup_lt_Some in Hi. simpl in Hnil. lia. }
    split.
    { change (map type (<[i:=d]> l)) with (type <$> <[i:=d]> l).
      rewrite list_fmap_insert. rewrite list_insert_id; [exact Hnd|].
      rewrite list_lookup_fmap, Hi. simpl. now rewrite Ha. }
    intros e. split.
    + intros Hin. apply list_elem_of_In in Hin.
      apply list_elem_of_lookup in Hin as (j & Hj).
      destruct (Nat.eq_dec j i) as [->|Hne].
      * rewrite list_lookup_insert_eq in Hj by (now apply lookup_lt_Some in Hi).
        left. congruence.
      * rewrite list_lookup_insert_ne in Hj by congruence.
        right. split.
        { apply list_elem_of_In. now apply list_elem_of_lookup_2 in Hj. }
        intros Hty. apply Hne.
        apply (NoDup_map_index type l j i e a Hnd Hj Hi). congruence.
    + intros [->|[Hin Hty]].
      * apply list_elem_of_In. apply list_elem_of_lookup. exists i.
        apply list_lookup_insert_eq. now apply lookup_lt_Some in Hi.
      * apply list_elem_of_In in Hin. apply list_elem_of_lookup in Hin as (j & Hj).
        apply list_elem_of_In. apply list_elem_of_lookup. exists j.
        rewrite list_lookup_insert_ne; [exact Hj|].
        intros <-. rewrite Hi in Hj. congruence.
  - rewrite findIndex_None in E.
    split; [now destruct l|]. split.
    + rewrite map_app. simpl. apply NoDup_push; [exact Hnd|].
      intros Hin. apply in_map_iff in Hin as (e & He & Hin).
      apply E in Hin. apply sameType_false in Hin. congruence.
    + intros e. rewrite in_app_iff. simpl. split.
      * intros [Hin|[<-|[]]]; [|now left]. right. split; [exact Hin|].
        apply E in Hin. now apply sameType_false in Hin.
      * intros [->|[Hin _]]; [right; now left|now left].
Qed.

Lemma spliceDefinition_spec d l :
  NoDup (map type l) ->
  NoDup (map type (spliceDefinition d l)) /\
  forall e, In e (spliceDefinition d l) <-> In e l /\ type e <> type d.
Proof.
  intros Hnd. unfold spliceDefinition.
  destruct (findIndex (sameType d) l) as [i|] eqn:E.
  - apply findIndex_Some in E as (a & Hi & Ha & _).
    apply sameType_true in Ha.
    split.
    { change (map type (delete i l)) with (type <$> delete i l).
      rewrite list_fmap_delete. exact (sublist_NoDup _ _ Hnd (sublist_delete _ _)). }
    intros e. split.
    + intros Hin. apply list_elem_of_In in Hin.
      apply list_elem_of_lookup in Hin as (j & Hj).
      rewrite list_lookup_delete in Hj.
      destruct (decide (j < i)%nat) as [Hlt|Hge].
      * split; [apply list_elem_of_In; now apply list_elem_of_lookup_2 in Hj|].
        intros Hty. assert (j = i); [|lia].
        apply (NoDup_map_index type l j i e a Hnd Hj Hi). congruence.
      * split; [apply list_elem_of_In; now apply list_elem_of_lookup_2 in Hj|].
        intros Hty. assert (S j = i); [|lia].
        apply (NoDup_map_index type l (S j) i e a Hnd Hj Hi). congruence.
    + intros [Hin Hty]. apply list_elem_of_In in Hin.
      apply list_elem_of_lookup in Hin as (j & Hj).
      assert (j <> i) by (intros ->; rewrite Hi in Hj; congruence).
      apply list_elem_of_In. apply list_elem_of_lookup.
      destruct (decide (j < i)%nat) as [Hlt|Hge].
      * exists j. rewrite list_lookup_delete. now rewrite decide_True by lia.
      * exists (pred j). rewrite list_lookup_delete. rewrite decide_False by lia.
        now replace (S (pred j)) with j by lia.
  - rewrite findIndex_None in E. split; [exact Hnd|].
    intros e. split; [|tauto]. intros Hin. split; [exact Hin|].
    apply E in Hin. now apply sameType_false in Hin.
Qed.

Lemma mapGet_updateCategoryMapping cat d cats :
  mapGet cat (updateCategoryMapping d cats)
  = if String.eqb cat (category d)
    then Some (placeDefinition d (default [] (mapGet (category d) cats)))
    else mapGet cat cats.
Proof.
  unfold updateCategoryMapping. rewrite mapGet_mapSet.
  destruct (String.eqb cat (category d)) eqn:E.
  - f_equal. f_equal. unfold mapHas.
    destruct (mapGet (category d) cats) eqn:G; [now rewrite G|].
    rewrite mapGet_mapSet, String.eqb_refl. reflexivity.
  - unfold mapHas. destruct (mapGet (category d) cats); [reflexivity|].
    rewrite mapGet_mapSet. now rewrite E.
Qed.

Lemma keys_updateCategoryMapping d cats :
  NoDup (map fst cats) -> NoDup (map fst (updateCategoryMapping d cats)).
Proof.
  intros H. unfold updateCategoryMapping. apply NoDup_mapSet.
  destruct (mapHas _ _); [exact H|now apply NoDup_mapSet].
Qed.

Lemma mapGet_removeCategoryMapping cat d cats :
  mapGet cat (removeCategoryMapping d cats)
  = if String.eqb cat (category d)
    then match mapGet (category d) cats with
         | Some l => if Nat.eqb (length (spliceDefinition d l)) 0 then None
                     else Some (spliceDefinition d l)
         | None => None
         end
    else mapGet cat cats.
Proof.
  unfold removeCategoryMapping.
  destruct (String.eqb cat (category d)) eqn:E.
  - apply String.eqb_eq in E. subst cat.
    destruct (mapGet (category d) cats) as [l|] eqn:G; [|exact G].
    destruct (Nat.eqb _ 0).
    + rewrite mapGet_mapDelete. now rewrite String.eqb_refl.
    + rewrite mapGet_mapSet. now rewrite String.eqb_refl.
  - destruct (mapGet (category d) cats) as [l|] eqn:G; [|reflexivity].
    destruct (Nat.eqb _ 0).
    + rewrite mapGet_mapDelete. now rewrite E.
    + rewrite mapGet_mapSet. now rewrite E.
Qed.

Lemma keys_removeCategoryMapping d cats :
  NoDup (map fst cats) -> NoDup (map fst (removeCategoryMapping d cats)).
Proof.
  intros H. unfold removeCategoryMapping.
  destruct (mapGet _ _); [|exact H].
  destruct (Nat.eqb _ 0); [now apply NoDup_mapDelete|now apply NoDup_mapSet].
Qed.

Lemma Indexed_created : Indexed created.
Proof.
  split; simpl; try (intros; discriminate); constructor.
Qed.

Lemma Indexed_notifyChange s : Indexed s -> Indexed (notifyChange s).
Proof. intros [H1 H2 H3 H4 H5]. now split. Qed.

Lemma Indexed_cleared subject :
  Indexed {| registered := []; categories := []; widgetSubject := subject |}.
Proof.
  split; simpl; try (intros; discriminate); constructor.
Qed.

Lemma idx_lists s cat :
  Indexed s -> NoDup (map type (getWidgetsByCategory s cat)).
Proof.
  intros H. unfold getWidgetsByCategory.
  destruct (mapGet cat (categories s)) as [l|] eqn:E; simpl; [|constructor].
  now apply (idx_filed s H cat l E).
Qed.

Lemma Indexed_register d s s' :
  Indexed s -> register d s = inr s' -> Indexed s'.
Proof.
  intros Hidx Hreg. unfold register in Hreg.
  destruct (validateDefinition d) eqn:Hv; [discriminate|].
  inversion Hreg; subst s'; clear Hreg.
  apply Indexed_notifyChange.
  pose proof (idx_lists s (category d) Hidx) as Hnd.
  pose proof (placeDefinition_spec d _ Hnd) as (Hne & Hnd' & Hin).
  destruct Hidx as [Hkeys Hkeyed Hlisted Hcats Hfiled].
  unfold getWidgetsByCategory in *.
  split; cbn [registered categories widgetSubject].
  - now apply NoDup_mapSet.
  - intros ty e. rewrite mapGet_mapSet.
    destruct (String.eqb ty (type d)) eqn:E.
    + apply String.eqb_eq in E. intros [= <-]. now subst.
    + apply Hkeyed.
  - intros ty e. unfold getWidgetsByCategory. cbn [registered categories].
    rewrite mapGet_mapSet, mapGet_updateCategoryMapping.
    destruct (String.eqb ty (type d)) eqn:E.
    + intros [= <-]. rewrite String.eqb_refl. simpl. apply Hin. now left.
    + intros He. pose proof (Hlisted _ _ He) as Hl.
      destruct (String.eqb (category e) (category d)) eqn:Ec; [|exact Hl].
      apply String.eqb_eq in Ec. simpl. apply Hin. right.
      rewrite Ec in Hl. split; [exact Hl|].
      apply Hkeyed in He as [He _]. apply String.eqb_neq in E. congruence.
  - now apply keys_updateCategoryMapping.
  - intros cat l. rewrite mapGet_updateCategoryMapping.
    destruct (String.eqb cat (category d)) eqn:E.
    + apply String.eqb_eq in E. intros [= <-].
      split; [exact Hne|]. split; [exact Hnd'|].
      intros e He. apply Hin in He as [->|[He _]]; [now symmetry|].
      destruct (mapGet (category d) (categories s)) as [l0|] eqn:G; [|destruct He].
      subst cat. now apply (Hfiled _ _ G).
    + apply Hfiled.
Qed.

Lemma Indexed_unregister ty s : Indexed s -> Indexed (snd (unregister ty s)).
Proof.
  intros Hidx. unfold unregister, getWidget.
  destruct (mapGet ty (registered s)) as [d|] eqn:G; [|exact Hidx].
  simpl. apply Indexed_notifyChange.
  destruct Hidx as [Hkeys Hkeyed Hlisted Hcats Hfiled].
  pose proof (Hkeyed _ _ G) as [Hty _].
  unfold getWidgetsByCategory in *.
  split; cbn [registered categories widgetSubject].
  - now apply NoDup_mapDelete.
  - intros ty' e. rewrite mapGet_mapDelete.
    destruct (String.eqb ty' ty); [discriminate|]. apply Hkeyed.
  - intros ty' e. unfold getWidgetsByCategory. cbn [registered categories].
    rewrite mapGet_mapDelete, mapGet_removeCategoryMapping.
    destruct (String.eqb ty' ty) eqn:E; [discriminate|].
    intros He. pose proof (Hlisted _ _ He) as Hl.
    destruct (String.eqb (category e) (category d)) eqn:Ec; [|exact Hl].
    apply String.eqb_eq in Ec. rewrite Ec in Hl.
    destruct (mapGet (category d) (categories s)) as [l|] eqn:Gc; [|destruct Hl].
    simpl in Hl.
    destruct (Hfiled _ _ Gc) as (_ & Hnd & _).
    pose proof (spliceDefinition_spec d l Hnd) as (_ & Hin).
    assert (He' : In e (spliceDefinition d l)).
    { apply Hin. split; [exact Hl|].
      apply Hkeyed in He as [He _]. apply String.eqb_neq in E. congruence. }
    destruct (Nat.eqb_spec (length (spliceDefinition d l)) 0) as [Hz|Hnz].
    + destruct (spliceDefinition d l); [destruct He'|discriminate].
    + exact He'.
  - now apply keys_removeCategoryMapping.
  - intros cat l. rewrite mapGet_removeCategoryMapping.
    destruct (String.eqb cat (category d)) eqn:E; [|apply Hfiled].
    apply String.eqb_eq in E. subst cat.
    destruct (mapGet (category d) (categories s)) as [l0|] eqn:Gc; [|discriminate].
    destruct (Hfiled _ _ Gc) as (_ & Hnd & Hcat).
    pose proof (spliceDefinition_spec d l0 Hnd) as (Hnd' & Hin).
    destruct (Nat.eqb_spec (length (spliceDefinition d l0)) 0) as [Hz|Hnz];
      [discriminate|].
    intros [= <-]. split.
    { intros Hnil. rewrite Hnil in Hnz. now apply Hnz. }
    split; [exact Hnd'|].
    intros e He. apply Hin in He as [He _]. now apply Hcat.
Qed.

Lemma Indexed_registerMany ds s :
  Indexed s -> Indexed (snd (registerMany ds s)).
Proof.
  revert s. induction ds as [|d ds IH]; intros s H; simpl; [exact H|].
  destruct (register d s) as [msg|s'] eqn:E; [exact H|].
  apply IH. now apply (Indexed_register d s).
Qed.

Lemma Indexed_exec c s : Indexed s -> Indexed (exec c s).
Proof.
  intros H. destruct c as [d|ds|ty|ws|]; simpl.
  - destruct (register d s) as [msg|s'] eqn:E; [exact H|].
    now apply (Indexed_register d s).
  - now apply Indexed_registerMany.
  - now apply Indexed_unregister.
  - unfold import. destruct ws as [ds|]; simpl.
    + apply Indexed_registerMany. apply Indexed_cleared.
    + apply Indexed_cleared.
  - unfold clear. apply Indexed_notifyChange. apply Indexed_cleared.
Qed.

Lemma Indexed_run calls s : Indexed s -> Indexed (run calls s).
Proof.
  revert s. induction calls as [|c calls IH]; intros s H; simpl; [exact H|].
  apply IH. now apply Indexed_exec.
Qed.

(** X12.  After any sequence of [register], [registerMany],
    [unregister], [import] and [clear] calls, failed ones included: every
    registered definition is stored under its own type, passes
    [validateDefinition] and is listed by [getWidgetsByCategory] under its
    category; [getCategories] has no duplicates and names no category whose
    list is empty; a category lists only definitions of that category, at
    most one per type; and no two registered definitions share a type. *)
Theorem category_index_invariant :
  forall calls : list Call,
    let s := run calls created in
    (forall ty d, getWidget s ty = Some d ->
       type d = ty /\ validateDefinition d = None /\
       In d (getWidgetsByCategory s (category d))) /\
    (forall cat, In cat (getCategories s) -> getWidgetsByCategory s cat <> []) /\
    (forall cat d, In d (getWidgetsByCategory s cat) -> category d = cat) /\
    (forall cat, NoDup (map type (getWidgetsByCategory s cat))) /\
    NoDup (getCategories s) /\
    NoDup (map type (getAllWidgets s)).
Proof.
  intros calls s.
  pose proof (Indexed_run calls created Indexed_created) as Hidx. fold s in Hidx.
  pose proof Hidx as [Hkeys Hkeyed Hlisted Hcats Hfiled].
  split.
  { intros ty d Hd. unfold getWidget in Hd.
    destruct (Hkeyed _ _ Hd) as [Ht Hv]. split; [exact Ht|]. split; [exact Hv|].
    exact (Hlisted _ _ Hd). }
  split.
  { intros cat Hin. unfold getCategories in Hin. apply mapHas_keys in Hin.
    unfold mapHas in Hin. unfold getWidgetsByCategory.
    destruct (mapGet cat (categories s)) as [l|] eqn:E; [|discriminate].
    simpl. now apply (Hfiled _ _ E). }
  split.
  { intros cat d. unfold getWidgetsByCategory.
    destruct (mapGet cat (categories s)) as [l|] eqn:E; simpl; [|tauto].
    now apply (Hfiled _ _ E). }
  split; [intros cat; now apply idx_lists|].
  split; [exact Hcats|].
  unfold getAllWidgets, mapValues.
  assert (Heq : map type (map snd (registered s)) = map fst (registered s)).
  { rewrite map_map. apply map_ext_in. intros [k d] Hin. simpl.
    apply (In_mapGet _ _ _ Hkeys) in Hin. now destruct (Hkeyed _ _ Hin). }
  now rewrite Heq.
Qed.

Lemma staleFree_notifyChange s : staleFree s -> staleFree (notifyChange s).
Proof. exact (fun H => H). Qed.

Lemma staleFree_cleared subject :
  staleFree {| registered := []; categories := []; widgetSubject := subject |}.
Proof. intros cat d []. Qed.

Lemma staleFree_register d s s' :
  Indexed s -> staleFree s ->
  (forall d0, getWidget s (type d) = Some d0 -> category d0 = category d) ->
  register d s = inr s' -> staleFree s'.
Proof.
  intros Hidx Hsf Hcat Hreg. unfold register in Hreg.
  destruct (validateDefinition d) eqn:Hv; [discriminate|].
  inversion Hreg; subst s'; clear Hreg.
  apply staleFree_notifyChange.
  pose proof (idx_lists s (category d) Hidx) as Hnd.
  pose proof (placeDefinition_spec d _ Hnd) as (_ & _ & Hin).
  intros cat e. unfold getWidgetsByCategory, getWidget.
  cbn [registered categories].
  rewrite mapGet_updateCategoryMapping, mapGet_mapSet.
  destruct (String.eqb cat (category d)) eqn:E.
  - apply String.eqb_eq in E. subst cat. simpl. intros He.
    apply Hin in He as [->|[He Hty]]; [now rewrite String.eqb_refl|].
    apply String.eqb_neq in Hty. rewrite Hty. now apply (Hsf (category d)).
  - intros He. pose proof (Hsf cat e He) as Hg.
    destruct (String.eqb (type e) (type d)) eqn:Et; [|exact Hg].
    exfalso. apply String.eqb_eq in Et. rewrite Et in Hg.
    apply Hcat in Hg. apply String.eqb_neq in E. apply E.
    unfold getWidgetsByCategory in He.
    destruct (mapGet cat (categories s)) as [l|] eqn:G; [|destruct He].
    destruct (idx_filed s Hidx cat l G) as (_ & _ & Hc).
    rewrite <- Hg. symmetry. now apply Hc.
Qed.

Lemma staleFree_unregister ty s :
  Indexed s -> staleFree s -> staleFree (snd (unregister ty s)).
Proof.
  intros Hidx Hsf. unfold unregister.
  destruct (getWidget s ty) as [d|] eqn:G; [|exact Hsf].
  simpl. apply staleFree_notifyChange.
  destruct (idx_keyed s Hidx ty d G) as [Hty _].
  intros cat e. unfold getWidgetsByCategory, getWidget.
  cbn [registered categories].
  rewrite mapGet_removeCategoryMapping, mapGet_mapDelete.
  destruct (String.eqb cat (category d)) eqn:E.
  - destruct (mapGet (category d) (categories s)) as [l|] eqn:Gc; [|intros []].
    destruct (idx_filed s Hidx _ l Gc) as (_ & Hnd & _).
    pose proof (spliceDefinition_spec d l Hnd) as (_ & Hin).
    destruct (Nat.eqb _ 0); [intros []|]. simpl. intros He.
    apply Hin in He as [He Hne]. rewrite Hty in Hne.
    apply String.eqb_neq in Hne. rewrite Hne.
    apply (Hsf (category d)). unfold getWidgetsByCategory. now rewrite Gc.
  - intros He. pose proof (Hsf cat e He) as Hg.
    destruct (String.eqb (type e) ty) eqn:Et; [|exact Hg].
    exfalso. apply String.eqb_eq in Et. rewrite Et in Hg.
    unfold getWidget in G, Hg. rewrite G in Hg. inversion Hg; subst e.
    apply String.eqb_neq in E. apply E.
    unfold getWidgetsByCategory in He.
    destruct (mapGet cat (categories s)) as [l|] eqn:Gc; [|destruct He].
    destruct (idx_filed s Hidx cat l Gc) as (_ & _ & Hc).
    symmetry. now apply Hc.
Qed.

Lemma fedFrom_register pool d s s' :
  oneCategoryPerType pool -> In d pool ->
  fedFrom pool s -> register d s = inr s' -> fedFrom pool s'.
Proof.
  intros Hone Hd (Hidx & Hsf & Hpool) Hreg.
  split; [now apply (Indexed_register d s)|]. split.
  - apply (staleFree_register d s); try assumption.
    intros d0 Hd0. apply Hone; [now apply (Hpool (type d))|exact Hd|].
    now destruct (idx_keyed s Hidx _ _ Hd0).
  - unfold register in Hreg. destruct (validateDefinition d); [discriminate|].
    inversion Hreg; subst s'. intros ty e. unfold getWidget. simpl.
    rewrite mapGet_mapSet. destruct (String.eqb ty (type d)).
    + now intros [= <-].
    + apply Hpool.
Qed.

Lemma fedFrom_registerMany pool ds s :
  oneCategoryPerType pool -> incl ds pool ->
  fedFrom pool s -> fedFrom pool (snd (registerMany ds s)).
Proof.
  intros Hone. revert s. induction ds as [|d ds IH]; intros s Hincl H; simpl;
    [exact H|].
  destruct (register d s) as [msg|s'] eqn:E; [exact H|].
  apply IH; [intros x Hx; apply Hincl; now right|].
  apply (fedFrom_register pool d s); try assumption. apply Hincl. now left.
Qed.

Lemma fedFrom_cleared pool subject :
  fedFrom pool {| registered := []; categories := []; widgetSubject := subject |}.
Proof.
  split; [apply Indexed_cleared|]. split; [apply staleFree_cleared|].
  intros ty d. discriminate.
Qed.

Lemma fedFrom_exec pool c s :
  oneCategoryPerType pool -> incl (definitionsOf c) pool ->
  fedFrom pool s -> fedFrom pool (exec c s).
Proof.
  intros Hone Hincl H. destruct c as [d|ds|ty|[ds|]|]; simpl in *.
  - destruct (register d s) as [msg|s'] eqn:E; [exact H|].
    apply (fedFrom_register pool d s); try assumption. apply Hincl. now left.
  - now apply fedFrom_registerMany.
  - destruct H as (Hidx & Hsf & Hpool).
    split; [now apply Indexed_unregister|].
    split; [now apply staleFree_unregister|].
    unfold unregister. destruct (getWidget s ty) as [d|] eqn:G; [|exact Hpool].
    intros ty' e. unfold getWidget. simpl. rewrite mapGet_mapDelete.
    destruct (String.eqb ty' ty); [discriminate|]. apply Hpool.
  - apply fedFrom_registerMany; try assumption. apply fedFrom_cleared.
  - apply fedFrom_cleared.
  - unfold clear. destruct (fedFrom_cleared pool (widgetSubject s)) as (A & B & C).
    split; [now apply Indexed_notifyChange|]. split; assumption.
Qed.

Lemma fedFrom_run pool calls s :
  oneCategoryPerType pool -> incl (flat_map definitionsOf calls) pool ->
  fedFrom pool s -> fedFrom pool (run calls s).
Proof.
  intros Hone. revert s. induction calls as [|c calls IH]; intros s Hincl H;
    simpl; [exact H|].
  simpl in Hincl. apply IH.
  - intros x Hx. apply Hincl. apply in_app_iff. now right.
  - apply fedFrom_exec; try assumption.
    intros x Hx. apply Hincl. apply in_app_iff. now left.
Qed.

Lemma exact_index s :
  Indexed s -> staleFree s ->
  forall cat d, In d (getWidgetsByCategory s cat) <->
                getWidget s (type d) = Some d /\ category d = cat.
Proof.
  intros Hidx Hsf cat d. split.
  - intros Hin. split; [now apply (Hsf cat)|].
    unfold getWidgetsByCategory in Hin.
    destruct (mapGet cat (categories s)) as [l|] eqn:G; [|destruct Hin].
    now apply (idx_filed s Hidx cat l G).
  - intros [Hg <-]. now apply (idx_listed s Hidx (type d)).
Qed.

(** X13.  As long as every definition handed to the registry keeps the
    category its type was first given, [getWidgetsByCategory(c)] holds
    exactly the registered definitions of category [c].  (Registering a
    type again under another category leaves the old definition listed in
    the old category: [reregistered_type_stays_listed].) *)
Theorem categories_list_exactly_the_registered :
  forall calls : list Call,
    oneCategoryPerType (flat_map definitionsOf calls) ->
    let s := run calls created in
    forall cat d,
      In d (getWidgetsByCategory s cat) <->
      getWidget s (type d) = Some d /\ category d = cat.
Proof.
  intros calls Hone s.
  destruct (fedFrom_run (flat_map definitionsOf calls) calls created Hone
              (fun x Hx => Hx) (fedFrom_cleared _ [])) as (Hidx & Hsf & _).
  now apply exact_index.
Qed.

Lemma registerMany_app ds1 ds2 s :
  registerMany (ds1 ++ ds2) s
  = match registerMany ds1 s with
    | (None, s1) => registerMany ds2 s1
    | (Some msg, s1) => (Some msg, s1)
    end.
Proof.
  revert s. induction ds1 as [|d ds1 IH]; intros s; simpl; [reflexivity|].
  destruct (register d s) as [msg|s']; [reflexivity|]. apply IH.
Qed.

Lemma registerMany_valid ds s :
  Forall (fun d => validateDefinition d = None) ds ->
  fst (registerMany ds s) = None.
Proof.
  revert s. induction ds as [|d ds IH]; intros s H; simpl; [reflexivity|].
  apply Forall_cons in H as [Hd H]. unfold register. rewrite Hd. now apply IH.
Qed.

Lemma registerMany_subject ds s :
  ds <> [] -> fst (registerMany ds s) = None ->
  widgetSubject (snd (registerMany ds s)) = getAllWidgets (snd (registerMany ds s)).
Proof.
  revert s. induction ds as [|d ds IH]; intros s Hne Hok; [congruence|].
  simpl in *. destruct (register d s) as [msg|s'] eqn:E; [discriminate|].
  destruct ds as [|d' ds'].
  - simpl. unfold register in E. destruct (validateDefinition d); [discriminate|].
    now inversion E.
  - apply IH; [discriminate|exact Hok].
Qed.

Lemma registerMany_fresh ds s :
  Forall (fun d => validateDefinition d = None) ds ->
  NoDup (map type ds) ->
  (forall d, In d ds -> mapGet (type d) (registered s) = None) ->
  registered (snd (registerMany ds s))
  = registered s ++ map (fun d => (type d, d)) ds.
Proof.
  revert s. induction ds as [|d ds IH]; intros s Hv Hnd Hfresh; simpl.
  - now rewrite app_nil_r.
  - apply Forall_cons in Hv as [Hd Hv]. apply NoDup_cons in Hnd as [Hnot Hnd].
    unfold register. rewrite Hd. rewrite IH; [|exact Hv|exact Hnd|].
    + simpl. rewrite (mapSet_absent _ _ _ (Hfresh d (or_introl eq_refl))).
      now rewrite <- app_assoc.
    + intros e He. simpl. rewrite mapGet_mapSet.
      destruct (String.eqb (type e) (type d)) eqn:E.
      * exfalso. apply Hnot. apply String.eqb_eq in E. rewrite <- E.
        apply list_elem_of_In. now apply in_map.
      * apply Hfresh. now right.
Qed.

Lemma keyed_values (m : JsMap WidgetDefinition) :
  (forall ty d, In (ty, d) m -> type d = ty) ->
  map (fun d => (type d, d)) (mapValues m) = m.
Proof.
  intros H. unfold mapValues. rewrite map_map.
  induction m as [|[k d] rest IH]; simpl; [reflexivity|].
  rewrite (H k d (or_introl eq_refl)). f_equal. apply IH.
  intros ty e He. apply H. now right.
Qed.

(** X14.  [import(export())] succeeds on every registry that calls can
    build: it leaves the [widgets] Map as it was, entry for entry, notifies
    the subscribers when there is at least one widget, and rebuilds the
    category index so that each category lists exactly the registered
    definitions of that category. *)
Theorem import_of_export_restores_registry :
  forall calls : list Call,
    let s := run calls created in
    exists s',
      import (Some (exportedWidgets (export s))) s = (None, s') /\
      registered s' = registered s /\
      (getAllWidgets s <> [] -> widgetSubject s' = getAllWidgets s') /\
      forall cat d,
        In d (getWidgetsByCategory s' cat) <->
        getWidget s' (type d) = Some d /\ category d = cat.
Proof.
  intros calls s.
  pose proof (Indexed_run calls created Indexed_created) as Hidx. fold s in Hidx.
  set (ds := exportedWidgets (export s)).
  set (cleared := {| registered := []; categories := [];
                     widgetSubject := widgetSubject s |}).
  assert (Hkeyed : forall ty d, In (ty, d) (registered s) ->
                                type d = ty /\ validateDefinition d = None).
  { intros ty d Hin. apply (idx_keyed s Hidx).
    apply In_mapGet; [apply (idx_keys s Hidx)|exact Hin]. }
  assert (Hvalid : Forall (fun d => validateDefinition d = None) ds).
  { apply List.Forall_forall. intros d Hd. subst ds. simpl in Hd.
    unfold getAllWidgets, mapValues in Hd. apply in_map_iff in Hd as ([k e] & <- & Hin).
    now apply (Hkeyed k e). }
  assert (Htypes : map type ds = map fst (registered s)).
  { subst ds. simpl. unfold getAllWidgets, mapValues. rewrite map_map.
    apply map_ext_in. intros [k d] Hin. simpl. now apply (Hkeyed k d). }
  assert (Hnd : NoDup (map type ds)) by (rewrite Htypes; apply (idx_keys s Hidx)).
  exists (snd (registerMany ds cleared)).
  assert (Hok : fst (registerMany ds cleared) = None)
    by now apply registerMany_valid.
  assert (Hreg : registered (snd (registerMany ds cleared)) = registered s).
  { rewrite registerMany_fresh; try assumption; [|reflexivity].
    simpl. subst ds. simpl. unfold getAllWidgets. apply keyed_values.
    intros ty d Hin. now apply (Hkeyed ty d). }
  split.
  { unfold import. fold cleared. destruct (registerMany ds cleared). simpl in *.
    now subst. }
  split; [exact Hreg|]. split.
  { intros Hne. apply registerMany_subject; assumption. }
  assert (Hone : oneCategoryPerType ds).
  { intros d1 d2 H1 H2 Hty.
    apply list_elem_of_In, list_elem_of_lookup in H1 as (i & Hi).
    apply list_elem_of_In, list_elem_of_lookup in H2 as (j & Hj).
    assert (i = j) by (apply (NoDup_map_index type ds i j d1 d2); assumption).
    subst j. congruence. }
  destruct (fedFrom_registerMany ds ds cleared Hone (fun x Hx => Hx)
              (fedFrom_cleared ds _)) as (Hidx' & Hsf' & _).
  now apply exact_index.
Qed.

(** X15.  [import] is not atomic: when the list holds valid definitions
    followed by one that [validateDefinition] refuses, the call throws that
    error and the registry is what importing the valid prefix alone gives.
    What was registered before the call is gone, the definitions after the
    refused one are not registered, and when the refused definition comes
    first the registry is empty while [widgetSubject] still holds the old
    list. *)
Theorem import_stops_at_first_invalid :
  forall (s : Service) (ds1 ds2 : list WidgetDefinition)
         (bad : WidgetDefinition) (msg : string),
    Forall (fun d => validateDefinition d = None) ds1 ->
    validateDefinition bad = Some msg ->
    let s' := snd (import (Some (ds1 ++ bad :: ds2)) s) in
    import (Some (ds1 ++ bad :: ds2)) s = (Some msg, s') /\
    import (Some ds1) s = (None, s') /\
    (forall ty d, getWidget s' ty = Some d -> In d ds1) /\
    (ds1 = [] -> getAllWidgets s' = [] /\ widgetSubject s' = widgetSubject s).
Proof.
  intros s ds1 ds2 bad msg Hv Hbad s'.
  set (cleared := {| registered := []; categories := [];
                     widgetSubject := widgetSubject s |}).
  assert (Hrun : registerMany (ds1 ++ bad :: ds2) cleared
                 = (Some msg, snd (registerMany ds1 cleared))).
  { rewrite registerMany_app. pose proof (registerMany_valid ds1 cleared Hv) as Hok.
    destruct (registerMany ds1 cleared) as [r s1]. simpl in *. subst r.
    unfold register. now rewrite Hbad. }
  assert (Hs' : s' = snd (registerMany ds1 cleared)).
  { subst s'. unfold import. fold cleared. now rewrite Hrun. }
  split; [unfold import; fold cleared; now rewrite Hrun, Hs'|].
  split.
  { unfold import. fold cleared. rewrite Hs'.
    pose proof (registerMany_valid ds1 cleared Hv) as Hok.
    destruct (registerMany ds1 cleared). simpl in *. now subst. }
  split.
  { rewrite Hs'. clear Hrun Hs' s'.
    assert (Hgen : forall s0, (forall ty d, getWidget s0 ty = Some d -> In d ds1) ->
                     forall ds, incl ds ds1 ->
                     forall ty d, getWidget (snd (registerMany ds s0)) ty = Some d ->
                                  In d ds1).
    { intros s0 H0 ds. revert s0 H0. induction ds as [|e ds IH]; intros s0 H0 Hincl;
        simpl; [exact H0|].
      destruct (register e s0) as [m|s1] eqn:E; [exact H0|].
      apply IH; [|intros x Hx; apply Hincl; now right].
      unfold register in E. destruct (validateDefinition e); [discriminate|].
      inversion E; subst s1. intros ty d. unfold getWidget. simpl.
      rewrite mapGet_mapSet. destruct (String.eqb ty (type e)).
      - intros [= <-]. apply Hincl. now left.
      - apply H0. }
    apply (Hgen cleared); [intros ty d; discriminate|intros x Hx; exact Hx]. }
  intros ->. rewrite Hs'. simpl. split; reflexivity.
Qed.

(** X16.  A [register] that returns has stored a valid definition:
    [getWidget] and [hasWidget] find it under its type, no other type is
    affected, and [widgetSubject] holds [getAllWidgets()].  [unregister] of
    the type then returns true, the type is gone, every other type reads as
    before the registration, the subject is notified again, and a second
    [unregister] returns false without any change. *)
Theorem register_then_unregister :
  forall (s s' : Service) (d : WidgetDefinition),
    register d s = inr s' ->
    validateDefinition d = None /\
    getWidget s' (type d) = Some d /\ hasWidget s' (type d) = true /\
    (forall ty, ty <> type d -> getWidget s' ty = getWidget s ty) /\
    widgetSubject s' = getAllWidgets s' /\
    exists s'',
      unregister (type d) s' = (true, s'') /\
      getWidget s'' (type d) = None /\
      (forall ty, ty <> type d -> getWidget s'' ty = getWidget s ty) /\
      widgetSubject s'' = getAllWidgets s'' /\
      unregister (type d) s'' = (false, s'').
Proof.
  intros s s' d Hreg. unfold register in Hreg.
  destruct (validateDefinition d) eqn:Hv; [discriminate|].
  inversion Hreg; subst s'; clear Hreg.
  split; [reflexivity|].
  assert (Hget : forall ty,
            getWidget (notifyChange
                         {| registered := mapSet (type d) d (registered s);
                            categories := updateCategoryMapping d (categories s);
                            widgetSubject := widgetSubject s |}) ty
            = if String.eqb ty (type d) then Some d else getWidget s ty).
  { intros ty. unfold getWidget. simpl. apply mapGet_mapSet. }
  split; [rewrite Hget; now rewrite String.eqb_refl|].
  split; [unfold hasWidget, mapHas; simpl; rewrite mapGet_mapSet;
          now rewrite String.eqb_refl|].
  split.
  { intros ty Hne. rewrite Hget. apply String.eqb_neq in Hne. now rewrite Hne. }
  split; [reflexivity|].
  unfold unregister at 1. rewrite Hget, String.eqb_refl.
  eexists. split; [reflexivity|].
  assert (Hget' : forall ty,
            mapGet ty (mapDelete (type d) (mapSet (type d) d (registered s)))
            = if String.eqb ty (type d) then None else getWidget s ty).
  { intros ty. rewrite mapGet_mapDelete, mapGet_mapSet.
    now destruct (String.eqb ty (type d)). }
  split; [unfold getWidget; simpl; rewrite Hget'; now rewrite String.eqb_refl|].
  split.
  { intros ty Hne. unfold getWidget at 1. simpl. rewrite Hget'.
    apply String.eqb_neq in Hne. now rewrite Hne. }
  split; [reflexivity|].
  unfold unregister, getWidget. simpl. rewrite Hget', String.eqb_refl. reflexivity.
Qed.

(** X17.  In a registry built by calls, [loadComponent(type)] rejects with
    "Widget type '...' not found" for an unregistered type; for a
    registered one it resolves to a component of the definition (the lazy
    loader's when the definition is lazy and has one, the direct reference
    otherwise, which validation has made sure exists) or rejects with the
    loader's error wrapped in "Failed to load widget component"; when the
    loader's error has no string form, the wrapping fails and the call
    rejects with what the conversion throws.  It never resolves to
    undefined and changes no state. *)
Theorem loadComponent_of_registered_type :
  forall (calls : list Call) (ty : string) (st : Orchestrator.State),
    let reg := widgetsOf (run calls created) in
    (Registry.getWidget reg ty = None ->
       Orchestrator.loadComponent reg ty st
       = (Orchestrator.Thrown
            (Orchestrator.Error ("Widget type '" +:+ ty +:+ "' not found")), st)) /\
    (forall d, Registry.getWidget reg ty = Some d ->
       (exists c,
          Orchestrator.loadComponent reg ty st = (Orchestrator.Ok c, st) /\
          (if lazy d && bool_decide (is_Some (loadComponent d))
           then loadComponent d = Some (Resolves c)
           else component d = Some c)) \/
       (exists e,
          lazy d = true /\ loadComponent d = Some (Rejects e) /\
          Orchestrator.loadComponent reg ty st
          = (Orchestrator.Thrown
               match e with
               | Printable text =>
                   Orchestrator.Error
                     ("Failed to load widget component '" +:+ ty +:+ "': "
                      +:+ text)
               | Unprintable raised => raised
               end,
             st))).
Proof.
  intros calls ty st reg. split.
  - intros Hnone. unfold Orchestrator.loadComponent. now rewrite Hnone.
  - intros d Hd.
    pose proof (Indexed_run calls created Indexed_created) as Hidx.
    assert (Hv : validateDefinition d = None).
    { now destruct (idx_keyed _ Hidx ty d Hd). }
    unfold Orchestrator.loadComponent. rewrite Hd.
    unfold validateDefinition in Hv.
    destruct (negb (nonEmpty (type d))); [discriminate|].
    destruct (negb (nonEmpty (name d))); [discriminate|].
    destruct (lazy d) eqn:Hl; destruct (loadComponent d) as [[c|e]|] eqn:Hc;
      destruct (component d) as [c'|] eqn:Hcomp; simpl in *;
      try discriminate;
      try (left; eexists; split; [reflexivity|]; reflexivity);
      try (right; exists e; split; [reflexivity|]; split; [reflexivity|];
           destruct e; reflexivity).
Qed.

(** Registered again under another category, a type stays listed in the
    old one. *)
Lemma reregistered_type_stays_listed :
  let s := run [CRegister Orchestrator.todoDefinition; CRegister todoMoved] created in
  getWidget s "todo" = Some todoMoved /\
  getWidgetsByCategory s "productivity" = [Orchestrator.todoDefinition] /\
  getWidgetsByCategory s "planning" = [todoMoved].
Proof. repeat split. Qed.

(** X13, witness: two definitions registered, one unregistered. *)
Lemma categories_list_exactly_the_registered_witness :
  let s := run [CRegister Orchestrator.todoDefinition;
                CRegister Orchestrator.graphDefinition;
                CUnregister "todo"] created in
  getWidgetsByCategory s "charts" = [Orchestrator.graphDefinition] /\
  getWidgetsByCategory s "productivity" = [] /\
  getWidget s "graph" = Some Orchestrator.graphDefinition.
Proof.
  split; [reflexivity|]. split; [reflexivity|].
  assert (Hone : oneCategoryPerType
                   (flat_map definitionsOf
                      [CRegister Orchestrator.todoDefinition;
                       CRegister Orchestrator.graphDefinition;
                       CUnregister "todo"])).
  { intros d1 d2 H1 H2 Hty. simpl in H1, H2.
    destruct H1 as [<-|[<-|[]]]; destruct H2 as [<-|[<-|[]]];
      try reflexivity; discriminate Hty. }
  apply (proj1 (categories_list_exactly_the_registered _ Hone "charts"
                  Orchestrator.graphDefinition)).
  simpl. now left.
Defined.

(** X15, witness: a definition without a name in second place. *)
Lemma import_stops_at_first_invalid_witness :
  import (Some [Orchestrator.todoDefinition; unnamedDefinition;
                Orchestrator.graphDefinition])
         (run [CRegister Orchestrator.graphDefinition] created)
  = (Some "Widget definition must have a name"%string,
     snd (import (Some [Orchestrator.todoDefinition]) 
            (run [CRegister Orchestrator.graphDefinition] created))).
Proof.
  apply (import_stops_at_first_invalid
           (run [CRegister Orchestrator.graphDefinition] created)
           [Orchestrator.todoDefinition] [Orchestrator.graphDefinition]
           unnamedDefinition).
  - repeat constructor.
  - reflexivity.
Defined.

(** X16, witness: the todo definition registered in a new registry. *)
Lemma register_then_unregister_witness :
  exists s', register Orchestrator.todoDefinition created = inr s' /\
             getWidget s' "todo" = Some Orchestrator.todoDefinition.
Proof.
  eexists. split; [reflexivity|].
  apply (register_then_unregister created _ Orchestrator.todoDefinition).
  reflexivity.
Defined.

End RegistryServiceFacts.

(* ===================================================================== *)
(** * Facts: Widget orchestrator (widget-orchestrator.service.ts) *)
(* ===================================================================== *)

Module OrchestratorFacts.
Import Js. Import JsFacts. Import Orchestrator.

Lemma keeps_ret {A} P (a : A) : keeps P (mret a).
Proof. intros s H. exact H. Qed.

Lemma keeps_throw {A} P e : keeps P (@throw A e).
Proof. intros s H. exact H. Qed.

Lemma keeps_gets {A} P (f : State -> A) : keeps P (gets f).
Proof. intros s H. exact H. Qed.

Lemma keeps_modify P f : (forall s, P s -> P (f s)) -> keeps P (modify f).
Proof. intros Hf s H. apply Hf, H. Qed.

Lemma keeps_bind {A B} P (m : M A) (k : A -> M B) :
  keeps P m -> (forall a, keeps P (k a)) -> keeps P (m ≫= k).
Proof.
  intros Hm Hk s H. unfold mbind, M_bind. specialize (Hm s H).
  destruct (m s) as [[a|e] s']; simpl in *; [apply Hk, Hm | exact Hm].
Qed.

Lemma keeps_tryCatch {A} P (m : M A) (h : Exception -> M A) :
  keeps P m -> (forall e, keeps P (h e)) -> keeps P (tryCatch m h).
Proof.
  intros Hm Hh s H. unfold tryCatch. specialize (Hm s H).
  destruct (m s) as [[a|e] s']; simpl in *; [exact Hm | apply Hh, Hm].
Qed.

Lemma keeps_call P o : keeps P (call o).
Proof. destruct o; [apply keeps_ret | apply keeps_throw]. Qed.

Lemma keeps_callHook P h : keeps P (callHook h).
Proof. destruct h; [apply keeps_call | apply keeps_ret]. Qed.

Lemma keeps_liftSum {A} P (r : Exception + A) : keeps P (liftSum r).
Proof. destruct r; [apply keeps_throw | apply keeps_ret]. Qed.

Lemma keeps_interpolate P e : keeps P (interpolate e).
Proof. destruct e; [apply keeps_ret | apply keeps_throw]. Qed.

(** A handler that builds its message from the caught value first. *)
Lemma keeps_interpolated {A} P e (k : string -> M A) :
  (forall text, keeps P (k text)) -> keeps P (interpolate e ≫= k).
Proof. intros Hk. apply keeps_bind; [apply keeps_interpolate|exact Hk]. Qed.

Create HintDb keeps.

#[local] Hint Resolve keeps_ret keeps_throw keeps_gets keeps_call
  keeps_callHook keeps_liftSum keeps_interpolate : keeps.

Lemma configAt_mutateInstance instanceId c k f :
  (forall i, config (f i) = config i) ->
  keeps (configAt instanceId c) (mutateInstance k f).
Proof.
  intros Hf. apply keeps_modify. intros s H.
  destruct (mapGet k (instances s)) as [inst|] eqn:Hk; [|exact H].
  intros i. simpl. rewrite mapGet_mapSet.
  destruct (String.eqb instanceId k) eqn:E; [|apply H].
  apply String.eqb_eq in E; subst k. intros [= <-].
  rewrite Hf. apply H, Hk.
Qed.

Lemma configAt_frame instanceId c f :
  (forall s, instances (f s) = instances s) ->
  keeps (configAt instanceId c) (modify f).
Proof.
  intros Hf. apply keeps_modify. intros s H i. rewrite Hf. apply H.
Qed.

Lemma configAt_updateInstanceState instanceId c env k st :
  keeps (configAt instanceId c) (updateInstanceState env k st).
Proof. apply configAt_mutateInstance. reflexivity. Qed.

Lemma configAt_notify instanceId c :
  keeps (configAt instanceId c) notifyInstancesChange.
Proof. apply configAt_frame. reflexivity. Qed.

Lemma configAt_emitError instanceId c k e :
  keeps (configAt instanceId c) (emitError k e).
Proof. apply configAt_frame. reflexivity. Qed.

Lemma configAt_handleWidgetError instanceId c env k e :
  keeps (configAt instanceId c) (handleWidgetError env k e).
Proof.
  unfold handleWidgetError.
  apply keeps_bind; [apply configAt_mutateInstance; reflexivity|intros _].
  apply keeps_bind; [apply configAt_emitError|intros _].
  apply configAt_notify.
Qed.

Lemma configAt_setupDataBinding instanceId c inst :
  keeps (configAt instanceId c) (setupDataBinding inst).
Proof.
  unfold setupDataBinding.
  destruct (negb _); [apply keeps_ret|].
  apply keeps_bind; [apply keeps_gets|intros [p|]]; [|apply keeps_throw].
  apply keeps_tryCatch;
    [|intros e; apply keeps_interpolated; intros text; apply keeps_throw].
  apply keeps_bind; [apply keeps_liftSum|intros sub].
  apply configAt_frame. reflexivity.
Qed.

Lemma configAt_loadComponent instanceId c reg ty :
  keeps (configAt instanceId c) (loadComponent reg ty).
Proof.
  unfold loadComponent.
  destruct (Registry.getWidget reg ty) as [d|]; [|auto with keeps].
  destruct (if Registry.lazy d then _ else _) as [[?|?]|]; auto with keeps.
  - apply keeps_interpolated. auto with keeps.
  - destruct (Registry.component d); auto with keeps.
Qed.

Lemma configAt_loadWidgetComponent instanceId c reg env inst container :
  keeps (configAt instanceId c) (loadWidgetComponent reg env inst container).
Proof.
  unfold loadWidgetComponent.
  apply keeps_tryCatch.
  - apply keeps_bind; [apply configAt_updateInstanceState|intros _].
    apply keeps_bind; [apply configAt_loadComponent|intros cty].
    apply keeps_bind; [apply keeps_liftSum|intros cref].
    apply keeps_bind.
    { destruct (isWidgetComponent _); [apply keeps_callHook|apply keeps_ret]. }
    intros _.
    apply keeps_bind; [apply configAt_frame; reflexivity|intros _].
    apply keeps_bind.
    { destruct (truthy _); [apply configAt_setupDataBinding|apply keeps_ret]. }
    intros _.
    apply keeps_bind; [apply configAt_updateInstanceState|intros _].
    apply keeps_ret.
  - intros e. apply keeps_interpolated. intros text.
    apply keeps_bind; [apply configAt_handleWidgetError|intros _].
    apply keeps_throw.
Qed.

(** A handler that rethrows does not return. *)
Lemma rethrow_not_Ok {A} (e : Exception) (k : string -> M unit) s (a : A) s' :
  (interpolate e ≫= (fun text => k text ≫= (fun _ => throw e))) s <> (Ok a, s').
Proof.
  unfold mbind, M_bind. destruct e as [text|raised]; simpl; [|discriminate].
  destruct (k text s) as [[[]|e'] s1]; discriminate.
Qed.

(** What a computation returns depends on the final state only through
    [gets]; this is the shape of [createWidget]'s last step. *)
Lemma bind_Ok_inv {A B} (m : M A) (k : A -> M B) s b s' :
  (m ≫= k) s = (Ok b, s') ->
  exists a s1, m s = (Ok a, s1) /\ k a s1 = (Ok b, s').
Proof.
  unfold mbind, M_bind. destruct (m s) as [[a|e] s1]; intros H.
  - eauto.
  - discriminate.
Qed.

Lemma keeps_snd {A} P (m : M A) s r s' :
  keeps P m -> P s -> m s = (r, s') -> P s'.
Proof. intros Hk HP Hm. specialize (Hk s HP). now rewrite Hm in Hk. Qed.

Lemma lookupProp_mergeConfig (defaults : option Obj) (overrides : Obj)
    (ty k : string) :
  NoDup (map fst overrides) ->
  NoDup (map fst (default [] defaults)) ->
  lookupProp k (mergeConfig defaults overrides ty) =
  if String.eqb k "type" then Some (JStr ty)
  else match lookupProp k overrides with
       | Some v => Some v
       | None => lookupProp k (default [] defaults)
       end.
Proof.
  intros Ho Hd. unfold mergeConfig.
  rewrite lookupProp_setProp.
  destruct (String.eqb k "type"); [reflexivity|].
  rewrite lookupProp_spread by assumption.
  destruct (lookupProp k overrides); [reflexivity|].
  rewrite lookupProp_spread by assumption.
  now destruct (lookupProp k (default [] defaults)).
Qed.

(** The instance [createWidget] resolves to carries the merged
    configuration, with or without a render container. *)
Lemma createWidget_config reg env ty overrides container s inst s' d :
  Registry.getWidget reg ty = Some d ->
  createWidget reg env ty overrides container s = (Ok inst, s') ->
  config inst = mergeConfig (Registry.defaultConfig d) overrides ty.
Proof.
  intros Hd Hc. unfold createWidget, tryCatch in Hc. rewrite Hd in Hc.
  destruct (negb _) in Hc; [now apply rethrow_not_Ok in Hc|].
  match type of Hc with
  | (match ?b s with _ => _ end) = _ => destruct (b s) as [[a|e] s1] eqn:Hb
  end; [|now apply rethrow_not_Ok in Hc].
  injection Hc as -> ->.
  set (c := mergeConfig (Registry.defaultConfig d) overrides ty) in *.
  set (iid := generateInstanceId env ty) in *.
  apply bind_Ok_inv in Hb as ([] & s2 & Hset & Hb).
  apply bind_Ok_inv in Hb as ([] & s3 & Hload & Hb).
  apply bind_Ok_inv in Hb as ([] & s4 & Hupd & Hb).
  apply bind_Ok_inv in Hb as ([] & s5 & Hnot & Hb).
  assert (H2 : configAt iid c s2).
  { injection Hset as <-. intros i. simpl. rewrite mapGet_mapSet.
    rewrite String.eqb_refl. now intros [= <-]. }
  assert (H3 : configAt iid c s3).
  { eapply keeps_snd; [|exact H2|exact Hload].
    destruct container; [|apply keeps_ret].
    apply keeps_bind; [apply configAt_loadWidgetComponent|intros ?; apply keeps_ret]. }
  assert (H4 : configAt iid c s4).
  { eapply keeps_snd; [apply configAt_updateInstanceState|exact H3|exact Hupd]. }
  assert (H5 : configAt iid c s5).
  { eapply keeps_snd; [apply configAt_notify|exact H4|exact Hnot]. }
  unfold gets in Hb. injection Hb as <- <-.
  destruct (mapGet iid (instances s5)) as [i|] eqn:Hi; simpl.
  - apply H5, Hi.
  - reflexivity.
Qed.

(** C4 (as the code has it).  The configuration of the instance that
    [createWidget] produces is the shallow merge
    [{ ...defaultConfig, ...overrides, type }]: each top-level key takes the
    override's value when the overrides have that key (a nested object is
    replaced as a whole, never merged with the default's), the default's
    value otherwise, and [type] is always the type argument of the call. *)
Theorem createWidget_config_shallow_merge :
  forall reg env ty overrides container s inst s' d,
    Registry.getWidget reg ty = Some d ->
    NoDup (map fst overrides) ->
    NoDup (map fst (default [] (Registry.defaultConfig d))) ->
    createWidget reg env ty overrides container s = (Ok inst, s') ->
    getProp "type" (config inst) = JStr ty /\
    forall k, k <> "type" ->
      lookupProp k (config inst) =
      match lookupProp k overrides with
      | Some v => Some v
      | None => lookupProp k (default [] (Registry.defaultConfig d))
      end.
Proof.
  intros reg env ty overrides container s inst s' d Hd Ho Hdef Hc.
  rewrite (createWidget_config _ _ _ _ _ _ _ _ _ Hd Hc). split.
  - unfold getProp. now rewrite lookupProp_mergeConfig.
  - intros k Hk. rewrite lookupProp_mergeConfig by assumption.
    destruct (String.eqb k "type") eqn:E; [|reflexivity].
    apply String.eqb_eq in E. contradiction.
Qed.

(** C6.  When the registered definition of [ty] declares a dependency on
    a type that is not registered, [createWidget] rejects with the error
    "Missing widget dependencies: ..." whose list holds every unregistered
    dependency, in declaration order, so each of them occurs in the message;
    the instance table, hence [getAllWidgets()], is what it was before the
    call. *)
Theorem createWidget_missing_dependencies :
  forall reg env ty overrides container s d deps,
    Registry.getWidget reg ty = Some d ->
    Registry.dependencies d = Some deps ->
    (exists dep, In dep deps /\ Registry.hasWidget reg dep = false) ->
    exists msg s',
      createWidget reg env ty overrides container s
        = (Thrown (Printable msg), s') /\
      msg = "Error: Missing widget dependencies: " +:+
            join ", " (List.filter (fun dep => negb (Registry.hasWidget reg dep)) deps) /\
      (forall dep, In dep deps -> Registry.hasWidget reg dep = false ->
                   occursIn dep msg) /\
      instances s' = instances s /\
      getAllWidgets s' = getAllWidgets s.
Proof.
  intros reg env ty overrides container s d deps Hd Hdeps (dep0 & Hin0 & Hno0).
  set (missing := List.filter (fun dep => negb (Registry.hasWidget reg dep)) deps).
  assert (Hcheck : Registry.checkDependencies reg ty =
                   {| Registry.satisfied := Nat.eqb (length missing) 0;
                      Registry.missing := missing |}).
  { unfold Registry.checkDependencies. now rewrite Hd, Hdeps. }
  assert (Hmem : forall dep, In dep deps -> Registry.hasWidget reg dep = false ->
                             In dep missing).
  { intros dep Hin Hno. unfold missing. apply filter_In. split; [exact Hin|].
    now rewrite Hno. }
  assert (Hsat : Nat.eqb (length missing) 0 = false).
  { specialize (Hmem dep0 Hin0 Hno0). destruct missing; [destruct Hmem|reflexivity]. }
  eexists _, _. split; [|split; [reflexivity|split; [|split]]].
  - unfold createWidget, tryCatch. rewrite Hd, Hcheck. simpl Registry.satisfied.
    rewrite Hsat. simpl. reflexivity.
  - intros dep Hin Hno. apply occursIn_prefixed.
    apply join_occurs. now apply Hmem.
  - reflexivity.
  - reflexivity.
Qed.

(** ** destroyWidget *)

Lemma destroyWidget_unknown env instanceId s :
  getWidget s instanceId = None ->
  destroyWidget env instanceId s = (Ok false, s).
Proof.
  intros H. unfold destroyWidget, mbind, M_bind, gets.
  unfold getWidget in H. now rewrite H.
Qed.

Lemma bind_Ok {A B} (m : M A) (k : A -> M B) s a s1 :
  m s = (Ok a, s1) -> (m ≫= k) s = k a s1.
Proof. intros H. unfold mbind, M_bind. now rewrite H. Qed.



Lemma handleWidgetError_run env k err s :
  handleWidgetError env k err s
  = (Ok tt,
     let insts :=
       match mapGet k (instances s) with
       | Some i =>
           mapSet k {| id := id i; definition := definition i; config := config i;
                       data := data i; state := ERROR; createdAt := createdAt i;
                       updatedAt := now env; error := Some err |} (instances s)
       | None => instances s
       end in
     {| instances := insts; componentRefs := componentRefs s;
        dataProviders := dataProviders s; subscriptions := subscriptions s;
        instancesSubject := mapValues insts;
        errorSubject := errorSubject s ++ [(k, err)] |}).
Proof.
  unfold handleWidgetError, mutateInstance, emitError, notifyInstancesChange,
    mbind, M_bind, modify, getAllWidgets.
  destruct (mapGet k (instances s)); reflexivity.
Qed.




(** C4, counterexample.  With [defaultConfig.layout = {cols: 2, rows: 2}]
    and the override [{layout: {x: 1}}], the created configuration has
    [layout = {x: 1}]; the deep merge has [layout = {cols: 2, rows: 2, x: 1}]. *)
Lemma createWidget_not_deep_merge :
  exists inst s',
    createWidget demoRegistry env0 "todo" layoutOverride None initial
      = (Ok inst, s') /\
    getProp "layout" (config inst) = JObj [("x", JNum 1)] /\
    member "layout"
      (deepMerge (JObj (default [] (Registry.defaultConfig todoDefinition)))
                 (JObj layoutOverride))
      = JObj [("cols", JNum 2); ("rows", JNum 2); ("x", JNum 1)].
Proof.
  eexists _, _. split; [vm_compute; reflexivity|].
  split; vm_compute; reflexivity.
Qed.

(** C4, witness: the todo widget created with a layout override. *)
Lemma createWidget_config_shallow_merge_witness :
  exists inst s',
    createWidget demoRegistry env0 "todo" layoutOverride None initial
      = (Ok inst, s') /\
    getProp "type" (config inst) = JStr "todo" /\
    lookupProp "layout" (config inst) = Some (JObj [("x", JNum 1)]) /\
    lookupProp "title" (config inst) = Some (JStr "Todo").
Proof.
  eexists _, _. split; [vm_compute; reflexivity|].
  assert (Hd : Registry.getWidget demoRegistry "todo" = Some todoDefinition)
    by reflexivity.
  assert (Ho : NoDup (map fst layoutOverride)).
  { apply (bool_decide_unpack _). vm_compute. exact I. }
  assert (Hdef : NoDup (map fst (default [] (Registry.defaultConfig todoDefinition)))).
  { apply (bool_decide_unpack _). vm_compute. exact I. }
  destruct (createWidget_config_shallow_merge demoRegistry env0 "todo"
              layoutOverride None initial _ _ todoDefinition Hd Ho Hdef eq_refl)
    as [Hty Hkeys].
  split; [exact Hty|]. split.
  - exact (Hkeys "layout" ltac:(discriminate)).
  - exact (Hkeys "title" ltac:(discriminate)).
Defined.

(** C6, witness: the graph definition depends on two unregistered types
    and on a registered one. *)
Lemma createWidget_missing_dependencies_witness :
  exists s',
    createWidget demoRegistry env0 "graph" [] None initial
      = (Thrown (Printable
                   "Error: Missing widget dependencies: missing-type, chart-lib"),
         s') /\
    occursIn "missing-type"
      "Error: Missing widget dependencies: missing-type, chart-lib" /\
    getAllWidgets s' = [].
Proof.
  destruct (createWidget_missing_dependencies demoRegistry env0 "graph" []
              None initial graphDefinition ["todo"; "missing-type"; "chart-lib"]
              eq_refl eq_refl
              (ex_intro _ "missing-type" (conj (or_intror (or_introl eq_refl)) eq_refl)))
    as (msg & s' & Hrun & Hmsg & Hocc & _ & Hall).
  exists s'. subst msg. split; [exact Hrun|]. split.
  - exact (Hocc "missing-type" (or_intror (or_introl eq_refl)) eq_refl).
  - exact Hall.
Defined.


(** The third case: the component throws a Symbol from [onDestroy], and
    [destroyWidget] throws the TypeError of the failed conversion to its
    caller; the instance is still stored, in state LOADED, and nothing has
    been emitted on the error stream. *)
Lemma destroyWidget_throws_to_caller :
  exists inst s1 s2,
    createWidget demoRegistry env0 "todo" [] (Some symbolContainer) initial
      = (Ok inst, s1) /\
    destroyWidget env1 (id inst) s1 = (Thrown symbolTypeError, s2) /\
    getWidget s2 (id inst) = Some inst /\ state inst = LOADED /\
    errorSubject s2 = [].
Proof.
  eexists _, _, _. split; [vm_compute; reflexivity|].
  split; [vm_compute; reflexivity|].
  repeat split; vm_compute; reflexivity.
Qed.


(** ** Further operations *)

Lemma mutateInstance_found instanceId f s inst :
  mapGet instanceId (instances s) = Some inst ->
  mutateInstance instanceId f s
  = (Ok tt, setInstances (mapSet instanceId (f inst)) s).
Proof. intros H. unfold mutateInstance, modify. now rewrite H. Qed.

Lemma mutateInstance_missing instanceId f s :
  mapGet instanceId (instances s) = None ->
  mutateInstance instanceId f s = (Ok tt, s).
Proof. intros H. unfold mutateInstance, modify. now rewrite H. Qed.

(** X18.  For a registered type whose dependencies are registered,
    [createWidget(type, config)] without a render host resolves to an
    instance with id [type_<now>_<random>], the registered definition, the
    merged configuration, no data, no error, state LOADED and both time
    stamps at the call's time.  The instance is stored under its id, no
    other instance changes, [instancesSubject] holds [getAllWidgets()], and
    the error stream and the component and subscription tables are
    untouched. *)
Theorem createWidget_without_container :
  forall (reg : Registry.State) (env : Env) (ty : string) (overrides : Obj)
         (s : State) (d : Registry.WidgetDefinition),
    Registry.getWidget reg ty = Some d ->
    Registry.satisfied (Registry.checkDependencies reg ty) = true ->
    let instanceId := generateInstanceId env ty in
    let inst :=
      {| id := instanceId; definition := d;
         config := mergeConfig (Registry.defaultConfig d) overrides ty;
         data := JUndefined; state := LOADED; createdAt := now env;
         updatedAt := now env; error := None |} in
    exists s',
      createWidget reg env ty overrides None s = (Ok inst, s') /\
      instances s' = mapSet instanceId inst (instances s) /\
      getWidget s' instanceId = Some inst /\
      (forall k, k <> instanceId -> getWidget s' k = getWidget s k) /\
      instancesSubject s' = getAllWidgets s' /\
      errorSubject s' = errorSubject s /\
      componentRefs s' = componentRefs s /\
      subscriptions s' = subscriptions s.
Proof.
  intros reg env ty overrides s d Hd Hdeps instanceId inst.
  set (inst0 := {| id := instanceId; definition := d;
                   config := mergeConfig (Registry.defaultConfig d) overrides ty;
                   data := JUndefined; state := INITIALIZING; createdAt := now env;
                   updatedAt := now env; error := None |}).
  set (s' := {| instances := mapSet instanceId inst (instances s);
                componentRefs := componentRefs s;
                dataProviders := dataProviders s;
                subscriptions := subscriptions s;
                instancesSubject := mapValues (mapSet instanceId inst (instances s));
                errorSubject := errorSubject s |}).
  exists s'.
  assert (Hrun : createWidget reg env ty overrides None s = (Ok inst, s')).
  { unfold createWidget. rewrite Hd, Hdeps. cbn [negb].
    fold instanceId. fold inst0.
    unfold tryCatch, mbind, M_bind, mret, M_ret, modify, gets.
    cbn [setInstances instances].
    unfold updateInstanceState.
    rewrite (mutateInstance_found instanceId _ _ inst0)
      by (cbn [instances setInstances]; rewrite mapGet_mapSet;
          now rewrite String.eqb_refl).
    unfold notifyInstancesChange, modify, setInstances, getAllWidgets.
    cbn [instances componentRefs dataProviders subscriptions instancesSubject
         errorSubject].
    rewrite mapSet_mapSet, mapGet_mapSet, String.eqb_refl.
    reflexivity. }
  split; [exact Hrun|]. split; [reflexivity|].
  split.
  { unfold getWidget. simpl. rewrite mapGet_mapSet. now rewrite String.eqb_refl. }
  split.
  { intros k Hk. unfold getWidget. simpl. rewrite mapGet_mapSet.
    apply String.eqb_neq in Hk. now rewrite Hk. }
  repeat split.
Qed.

(** X19.  Without a render host [createWidget] can reject for two
    reasons only, an unregistered type ("Widget type '...' not found") or
    unregistered dependencies ("Missing widget dependencies: ...").  The
    rejection leaves the instance, component and subscription tables and
    [instancesSubject] as they were and emits one CREATION_FAILED error,
    not recoverable, under the empty instance id. *)
Theorem createWidget_rejection_without_container :
  forall (reg : Registry.State) (env : Env) (ty : string) (overrides : Obj)
         (s s' : State) (e : Exception),
    createWidget reg env ty overrides None s = (Thrown e, s') ->
    exists text,
      e = Printable text /\
      ((Registry.getWidget reg ty = None /\
        text = "Error: Widget type '" +:+ ty +:+ "' not found") \/
       (exists d, Registry.getWidget reg ty = Some d /\
          Registry.satisfied (Registry.checkDependencies reg ty) = false /\
          text = "Error: Missing widget dependencies: " +:+
                 join ", " (Registry.missing (Registry.checkDependencies reg ty)))) /\
      instances s' = instances s /\
      componentRefs s' = componentRefs s /\
      subscriptions s' = subscriptions s /\
      instancesSubject s' = instancesSubject s /\
      errorSubject s' = errorSubject s ++ [(""%string, creationFailed env text)].
Proof.
  intros reg env ty overrides s s' e Hrun. unfold createWidget in Hrun.
  destruct (Registry.getWidget reg ty) as [d|] eqn:Hd.
  - destruct (Registry.satisfied (Registry.checkDependencies reg ty)) eqn:Hdeps.
    + exfalso. cbn [negb] in Hrun.
      unfold tryCatch, mbind, M_bind, mret, M_ret, modify, gets,
        updateInstanceState, mutateInstance, notifyInstancesChange, modify in Hrun.
      discriminate.
    + cbn [negb] in Hrun.
      unfold tryCatch, throw, Error, interpolate, mbind, M_bind, mret, M_ret,
        emitError, modify in Hrun.
      inversion Hrun; subst e s'; clear Hrun.
      eexists. split; [reflexivity|].
      split; [right; exists d; repeat split|]. repeat split.
  - unfold tryCatch, throw, Error, interpolate, mbind, M_bind, mret, M_ret,
      emitError, modify in Hrun.
    inversion Hrun; subst e s'; clear Hrun.
    eexists. split; [reflexivity|].
    split; [left; split; reflexivity|]. repeat split.
Qed.

Lemma keeps_mutateInstance P k f :
  framed P -> (forall i, id (f i) = id i) -> keeps P (mutateInstance k f).
Proof. intros (H & _ & _) Hf s Hs. now apply H. Qed.

Lemma keeps_setupDataBinding P inst :
  framed P -> keeps P (setupDataBinding inst).
Proof.
  intros (_ & _ & Hsub). unfold setupDataBinding.
  destruct (negb _); [apply keeps_ret|].
  apply keeps_bind; [apply keeps_gets|intros [p|]]; [|apply keeps_throw].
  apply keeps_tryCatch;
    [|intros e; apply keeps_interpolated; intros text; apply keeps_throw].
  apply keeps_bind; [apply keeps_liftSum|intros sub].
  apply keeps_modify. intros s Hs. now apply Hsub.
Qed.

Lemma keeps_loadComponent P reg ty : keeps P (loadComponent reg ty).
Proof.
  unfold loadComponent.
  destruct (Registry.getWidget reg ty) as [d|]; [|apply keeps_throw].
  destruct (if Registry.lazy d then _ else _) as [[?|?]|];
    [apply keeps_ret|apply keeps_interpolated; intros; apply keeps_throw|].
  destruct (Registry.component d); apply keeps_ret.
Qed.

(** Where a sequence throws: in its first part, or in what follows. *)
Lemma thrown_keeps {A B} (P : State -> Prop) (m : M A) (k : A -> M B) s e s' :
  keeps P m -> P s -> (m ≫= k) s = (Thrown e, s') ->
  P s' \/ exists a s1, P s1 /\ k a s1 = (Thrown e, s').
Proof.
  intros Hm HP Hrun. unfold mbind, M_bind in Hrun. specialize (Hm s HP).
  destruct (m s) as [[a|e0] s1]; simpl in Hm.
  - right. now exists a, s1.
  - left. now injection Hrun as <- <-.
Qed.

(** When [loadWidgetComponent] throws, the [try] block has thrown after
    setting the state LOADING and before touching the instances again.
    The [catch] block has recorded LOAD_FAILED and rethrown the value, or,
    for a value without string form, has thrown what the conversion
    throws and recorded nothing. *)
Lemma loadWidgetComponent_Thrown reg env inst container s e s' :
  loadWidgetComponent reg env inst container s = (Thrown e, s') ->
  exists sb,
    instances sb = instances (snd (updateInstanceState env (id inst) LOADING s)) /\
    errorSubject sb = errorSubject s /\
    ((exists text,
        e = Printable text /\
        s' = snd (handleWidgetError env (id inst) (loadFailed env text) sb)) \/
     s' = sb).
Proof.
  unfold loadWidgetComponent, tryCatch.
  set (s1 := snd (updateInstanceState env (id inst) LOADING s)).
  set (P := fun st : State =>
              instances st = instances s1 /\ errorSubject st = errorSubject s).
  assert (Hs1 : P s1).
  { split; [reflexivity|]. unfold s1, updateInstanceState, mutateInstance, modify.
    simpl. now destruct (mapGet (id inst) (instances s)). }
  assert (Hmod : forall f, (forall st, instances (f st) = instances st) ->
                           (forall st, errorSubject (f st) = errorSubject st) ->
                           keeps P (modify f)).
  { intros f Hi He. apply keeps_modify. intros st [H1 H2].
    split; [now rewrite Hi|now rewrite He]. }
  assert (Hbody : forall c sb,
    (updateInstanceState env (id inst) LOADING ;;
     componentType ← loadComponent reg (Registry.type (definition inst));
     componentRef ← liftSum (container componentType);
     (let component := instance componentRef in
      if isWidgetComponent component then callHook (onInit component)
      else mret tt) ;;
     modify (setComponentRefs (mapSet (id inst) componentRef)) ;;
     (if truthy (getProp "dataSource" (config inst))
      then setupDataBinding inst else mret tt) ;;
     updateInstanceState env (id inst) LOADED ;;
     mret componentRef) s = (Thrown c, sb) -> P sb).
  { intros c sb Hrun.
    unfold mbind at 1, M_bind at 1 in Hrun.
    change (updateInstanceState env (id inst) LOADING s) with (Ok tt, s1) in Hrun.
    destruct (thrown_keeps P _ _ _ _ _ (keeps_loadComponent P _ _) Hs1 Hrun)
      as [H|(cty & s2 & H2 & Hrun2)]; [exact H|]. clear Hrun.
    destruct (thrown_keeps P _ _ _ _ _ (keeps_liftSum P _) H2 Hrun2)
      as [H|(cref & s3 & H3 & Hrun3)]; [exact H|]. clear Hrun2.
    assert (Hhook : keeps P (if isWidgetComponent (instance cref)
                             then callHook (onInit (instance cref))
                             else mret tt)).
    { destruct (isWidgetComponent _); [apply keeps_callHook|apply keeps_ret]. }
    destruct (thrown_keeps P _ _ _ _ _ Hhook H3 Hrun3)
      as [H|([] & s4 & H4 & Hrun4)]; [exact H|]. clear Hrun3.
    assert (Hset : keeps P (modify (setComponentRefs (mapSet (id inst) cref))))
      by now apply Hmod.
    destruct (thrown_keeps P _ _ _ _ _ Hset H4 Hrun4)
      as [H|([] & s5 & H5 & Hrun5)]; [exact H|]. clear Hrun4.
    assert (Hbind : keeps P (if truthy (getProp "dataSource" (config inst))
                             then setupDataBinding inst else mret tt)).
    { destruct (truthy _); [|apply keeps_ret]. unfold setupDataBinding.
      destruct (negb _); [apply keeps_ret|].
      apply keeps_bind; [apply keeps_gets|intros [p|]]; [|apply keeps_throw].
      apply keeps_tryCatch;
        [|intros e0; apply keeps_interpolated; intros text; apply keeps_throw].
      apply keeps_bind; [apply keeps_liftSum|intros sub]. now apply Hmod. }
    destruct (thrown_keeps P _ _ _ _ _ Hbind H5 Hrun5)
      as [H|([] & s6 & H6 & Hrun)]; [exact H|]. clear Hrun5.
    exfalso. unfold updateInstanceState, mutateInstance, modify, mbind, M_bind,
      mret, M_ret in Hrun. discriminate. }
  match goal with |- context [match ?body s with _ => _ end] =>
    destruct (body s) as [[cref|c] sb] eqn:Hb end; [discriminate|].
  destruct (Hbody c sb eq_refl) as [Hi He].
  destruct c as [text|raised]; unfold interpolate.
  - unfold mbind at 1, M_bind at 1, mret at 1, M_ret at 1.
    unfold mbind, M_bind. rewrite handleWidgetError_run. unfold throw.
    intros [= <- <-]. exists sb. split; [exact Hi|]. split; [exact He|].
    left. exists text. split; [reflexivity|].
    now rewrite handleWidgetError_run.
  - unfold mbind, M_bind, throw. intros [= <- <-].
    exists sb. split; [exact Hi|]. split; [exact He|]. now right.
Qed.

(** X20.  When [createWidget] is given a render host and rejects although
    the type and its dependencies are registered, loading the component has
    failed, and the instance created for it is not removed: it stays stored
    under its id and is returned by [getAllWidgets()].  Either the failure
    has been recorded: the rejection is the thrown value, the instance is
    in state ERROR with a recoverable LOAD_FAILED error carrying the
    value's string form, and the error stream has received LOAD_FAILED
    under the instance id followed by CREATION_FAILED under the empty id.
    Or the thrown value has no string form (a Symbol, an object without
    [toString]), and building the LOAD_FAILED message has thrown: the
    instance is left in state LOADING without an error, and the error
    stream has received CREATION_FAILED at most. *)
Theorem createWidget_failed_load_keeps_instance :
  forall (reg : Registry.State) (env : Env) (ty : string) (overrides : Obj)
         (container : ViewContainerRef) (s s' : State)
         (d : Registry.WidgetDefinition) (e : Exception),
    Registry.getWidget reg ty = Some d ->
    Registry.satisfied (Registry.checkDependencies reg ty) = true ->
    createWidget reg env ty overrides (Some container) s = (Thrown e, s') ->
    let instanceId := generateInstanceId env ty in
    exists inst,
      getWidget s' instanceId = Some inst /\
      id inst = instanceId /\
      In inst (getAllWidgets s') /\
      ((exists text,
          e = Printable text /\
          state inst = ERROR /\
          error inst = Some (loadFailed env text) /\
          errorSubject s'
          = errorSubject s ++ [(instanceId, loadFailed env text);
                               (""%string, creationFailed env text)]) \/
       (state inst = LOADING /\
        error inst = None /\
        (errorSubject s' = errorSubject s \/
         exists text,
           e = Printable text /\
           errorSubject s'
           = errorSubject s ++ [(""%string, creationFailed env text)]))).
Proof.
  intros reg env ty overrides container s s' d e Hd Hdeps Hrun instanceId.
  unfold createWidget in Hrun. rewrite Hd, Hdeps in Hrun. cbn [negb] in Hrun.
  fold instanceId in Hrun.
  set (inst0 := {| id := instanceId; definition := d;
                   config := mergeConfig (Registry.defaultConfig d) overrides ty;
                   data := JUndefined; state := INITIALIZING; createdAt := now env;
                   updatedAt := now env; error := None |}) in Hrun.
  set (s1 := setInstances (mapSet instanceId inst0) s).
  unfold tryCatch in Hrun.
  unfold mbind at 1, M_bind at 1 in Hrun. unfold modify at 1 in Hrun. fold s1 in Hrun.
  unfold mbind at 1, M_bind at 1 in Hrun.
  unfold mbind at 1, M_bind at 1 in Hrun.
  destruct (loadWidgetComponent reg env inst0 container s1) as [[cref|e0] s2] eqn:Hl.
  - exfalso. unfold mret, M_ret, mbind, M_bind, updateInstanceState,
      mutateInstance, notifyInstancesChange, modify, gets in Hrun.
    discriminate.
  - apply loadWidgetComponent_Thrown in Hl as (sb & Hi & He & Hcase).
    cbn [id inst0] in Hi, Hcase.
    assert (Hloading :
      mapGet instanceId (instances sb)
      = Some {| id := instanceId; definition := d;
                config := mergeConfig (Registry.defaultConfig d) overrides ty;
                data := JUndefined; state := LOADING; createdAt := now env;
                updatedAt := now env; error := None |}).
    { rewrite Hi. unfold updateInstanceState, mutateInstance, modify, s1. cbn.
      rewrite mapGet_mapSet, String.eqb_refl. cbn.
      now rewrite mapGet_mapSet, String.eqb_refl. }
    assert (Hlisted : forall st i,
              mapGet instanceId (instances st) = Some i ->
              In i (getAllWidgets st)).
    { intros st i Hget. unfold getAllWidgets, mapValues.
      apply in_map_iff. exists (instanceId, i). split; [reflexivity|].
      now apply mapGet_Some_In. }
    destruct Hcase as [(text & -> & Hs2)| ->].
    + (* LOAD_FAILED recorded *)
      rewrite handleWidgetError_run in Hs2. cbn [snd] in Hs2.
      rewrite Hloading in Hs2. cbn zeta in Hs2. subst s2.
      unfold interpolate in Hrun.
      unfold mbind at 1, M_bind at 1, mret at 1, M_ret at 1 in Hrun.
      unfold mbind, M_bind, emitError, modify, throw in Hrun.
      inversion Hrun; subst e s'; clear Hrun.
      eexists. split.
      { unfold getWidget. cbn [instances]. rewrite mapGet_mapSet.
        now rewrite String.eqb_refl. }
      split; [reflexivity|]. split.
      { apply Hlisted. cbn [instances]. rewrite mapGet_mapSet.
        now rewrite String.eqb_refl. }
      left. exists text. split; [reflexivity|]. split; [reflexivity|].
      split; [reflexivity|].
      cbn [errorSubject]. rewrite He. unfold s1. cbn [errorSubject setInstances].
      rewrite <- app_assoc. reflexivity.
    + (* the conversion has thrown *)
      assert (He1 : errorSubject s1 = errorSubject s) by reflexivity.
      destruct e0 as [text|raised]; unfold interpolate in Hrun.
      * unfold mbind at 1, M_bind at 1, mret at 1, M_ret at 1 in Hrun.
        unfold mbind, M_bind, emitError, modify, throw in Hrun.
        inversion Hrun; subst e s'; clear Hrun.
        eexists. split; [exact Hloading|]. split; [reflexivity|].
        split; [now apply Hlisted|].
        right. split; [reflexivity|]. split; [reflexivity|].
        right. exists text. split; [reflexivity|].
        cbn [errorSubject]. now rewrite He, He1.
      * unfold mbind, M_bind, throw in Hrun.
        inversion Hrun; subst e s'; clear Hrun.
        eexists. split; [exact Hloading|]. split; [reflexivity|].
        split; [now apply Hlisted|].
        right. split; [reflexivity|]. split; [reflexivity|].
        left. now rewrite He, He1.
Qed.

(** The call has run to its end: the instance holds the new data. *)
Ltac stored_data Hother :=
  cbn; eexists _, _, _; split; [reflexivity|]; cbn;
  rewrite mapGet_mapSet, String.eqb_refl;
  split; [reflexivity|]; repeat split;
  intros k Hk; now apply Hother.

(** X21.  [updateWidgetData] returns false and changes nothing for an
    unknown id.  For a known id the instance holds the new data and the
    call's time stamp afterwards, keeps its id and configuration, and no
    other instance changes.  The call returns true, leaving state, error
    and error stream alone, unless the mounted component's [onDataChange]
    hook throws.  If the thrown value has a string form, the call returns
    false, the new data stays, the instance is in state ERROR with a
    recoverable DATA_UPDATE_FAILED error, and that error is emitted.  If it
    has none (a Symbol, an object without [toString]), building the
    message throws and [updateWidgetData] throws that exception to its
    caller; the new data stays and no error is recorded. *)
Theorem updateWidgetData_stores_data :
  forall (env : Env) (onDataChange : string -> option Outcome)
         (instanceId : string) (newData : JsVal) (s : State),
    (getWidget s instanceId = None ->
       updateWidgetData env onDataChange instanceId newData s = (Ok false, s)) /\
    (forall inst, getWidget s instanceId = Some inst ->
       exists r s' inst',
         updateWidgetData env onDataChange instanceId newData s = (r, s') /\
         getWidget s' instanceId = Some inst' /\
         data inst' = newData /\ updatedAt inst' = now env /\
         id inst' = id inst /\ config inst' = config inst /\
         (forall k, k <> instanceId -> getWidget s' k = getWidget s k) /\
         match dataHookThrows s onDataChange instanceId with
         | None =>
             r = Ok true /\ state inst' = state inst /\
             error inst' = error inst /\
             errorSubject s' = errorSubject s
         | Some (Printable text) =>
             r = Ok false /\ state inst' = ERROR /\
             error inst' = Some (dataUpdateFailed env text) /\
             errorSubject s'
               = errorSubject s ++ [(instanceId, dataUpdateFailed env text)]
         | Some (Unprintable raised) =>
             r = Thrown raised /\ state inst' = state inst /\
             error inst' = error inst /\
             errorSubject s' = errorSubject s
         end).
Proof.
  intros env onDataChange instanceId newData s. unfold getWidget. split.
  - intros Hnone. unfold updateWidgetData, mbind, M_bind, gets. now rewrite Hnone.
  - intros inst Hinst.
    unfold updateWidgetData, mbind at 1, M_bind at 1, gets at 1.
    rewrite Hinst. unfold tryCatch.
    unfold mbind at 1, M_bind at 1.
    rewrite (mutateInstance_found _ _ _ _ Hinst).
    unfold mbind at 1, M_bind at 1. unfold mbind at 1, M_bind at 1.
    unfold gets. cbn [componentRefs setInstances].
    unfold dataHookThrows.
    assert (Hother : forall (i : WidgetInstance) k, k <> instanceId ->
              mapGet k (mapSet instanceId i (instances s)) = mapGet k (instances s)).
    { intros i k Hk. rewrite mapGet_mapSet. apply String.eqb_neq in Hk.
      now rewrite Hk. }
    destruct (mapGet instanceId (componentRefs s)) as [cref|] eqn:Hc;
      [|stored_data Hother].
    destruct (isWidgetComponent (instance cref)); [|stored_data Hother].
    destruct (onDataChange instanceId) as [[|[text|raised]]|];
      [stored_data Hother| | |stored_data Hother].
    + cbn -[handleWidgetError]. unfold mbind, M_bind, mret, M_ret.
      rewrite handleWidgetError_run.
      cbn. rewrite mapGet_mapSet, String.eqb_refl.
      eexists _, _, _. split; [reflexivity|]. cbn.
      rewrite mapSet_mapSet, mapGet_mapSet, String.eqb_refl.
      split; [reflexivity|]. repeat split.
      intros k Hk. now apply Hother.
    + stored_data Hother.
Qed.

Lemma returns_thrownBy o : returns o = true -> thrownBy o = None.
Proof. now destruct o. Qed.

Lemma disposalThrows_disposable s k :
  disposable s -> disposalThrows s k = None.
Proof.
  intros [Hc Hs]. unfold disposalThrows, componentDisposalThrows,
    subscriptionDisposalThrows.
  assert (Hcomp : match mapGet k (componentRefs s) with
                  | Some cref =>
                      match (if isWidgetComponent (instance cref)
                             then match onDestroy (instance cref) with
                                  | Some o => thrownBy o
                                  | None => None
                                  end
                             else None) with
                      | Some e => Some e
                      | None => thrownBy (destroy cref)
                      end
                  | None => None
                  end = None).
  { destruct (mapGet k (componentRefs s)) as [cref|] eqn:E; [|reflexivity].
    apply mapGet_Some_In in E. specialize (Hc _ _ E).
    unfold componentReturns in Hc. apply andb_true_iff in Hc as [Hh Hd].
    rewrite (returns_thrownBy _ Hd).
    destruct (isWidgetComponent (instance cref)); [|reflexivity].
    destruct (onDestroy (instance cref)) as [o|]; [|reflexivity].
    now rewrite (returns_thrownBy _ Hh). }
  rewrite Hcomp.
  destruct (mapGet k (subscriptions s)) as [sub|] eqn:E; [|reflexivity].
  apply mapGet_Some_In in E. exact (returns_thrownBy _ (Hs _ _ E)).
Qed.

Lemma destroyWidget_disposable env instanceId s inst :
  getWidget s instanceId = Some inst ->
  disposable s ->
  exists s',
    destroyWidget env instanceId s = (Ok true, s') /\
    instances s' = mapDelete instanceId (instances s) /\
    componentRefs s' = mapDelete instanceId (componentRefs s) /\
    subscriptions s' = mapDelete instanceId (subscriptions s) /\
    dataProviders s' = dataProviders s.
Proof.
  intros Hinst Hd. pose proof Hd as [Hc Hs].
  unfold destroyWidget, mbind at 1, M_bind at 1, gets at 1.
  unfold getWidget in Hinst. rewrite Hinst. unfold tryCatch.
  (* the component *)
  assert (H1 : exists s1, disposeComponent instanceId s = (Ok tt, s1) /\
             instances s1 = instances s /\
             componentRefs s1 = mapDelete instanceId (componentRefs s) /\
             subscriptions s1 = subscriptions s /\
             dataProviders s1 = dataProviders s).
  { unfold disposeComponent, mbind at 1, M_bind at 1, gets.
    destruct (mapGet instanceId (componentRefs s)) as [cref|] eqn:E.
    - pose proof (Hc _ _ (mapGet_Some_In _ _ _ E)) as Hr.
      unfold componentReturns in Hr. apply andb_true_iff in Hr as [Hh Hdestroy].
      destruct (destroy cref); [|discriminate].
      destruct (isWidgetComponent (instance cref)).
      + destruct (onDestroy (instance cref)) as [[|e]|]; try discriminate;
          eexists; split; try reflexivity; repeat split.
      + eexists; split; [reflexivity|]; repeat split.
    - exists s. split; [reflexivity|]. repeat split.
      clear -E. induction (componentRefs s) as [|[k0 v0] rest IH];
        simpl in *; [reflexivity|].
      destruct (String.eqb instanceId k0); [discriminate|]. now rewrite <- IH. }
  destruct H1 as (s1 & Hrun1 & Hi1 & Hc1 & Hs1 & Hp1).
  assert (H2 : exists s2, disposeSubscription instanceId s1 = (Ok tt, s2) /\
             instances s2 = instances s /\
             componentRefs s2 = mapDelete instanceId (componentRefs s) /\
             subscriptions s2 = mapDelete instanceId (subscriptions s) /\
             dataProviders s2 = dataProviders s).
  { unfold disposeSubscription, mbind at 1, M_bind at 1, gets. rewrite Hs1.
    destruct (mapGet instanceId (subscriptions s)) as [sub|] eqn:E.
    - pose proof (Hs _ _ (mapGet_Some_In _ _ _ E)) as Hr.
      destruct (unsubscribe sub); [|discriminate].
      eexists. split; [reflexivity|]. cbn. rewrite Hi1, Hc1, Hs1, Hp1. repeat split.
    - exists s1. split; [reflexivity|]. rewrite Hi1, Hc1, Hs1, Hp1. repeat split.
      clear -E. induction (subscriptions s) as [|[k0 v0] rest IH];
        simpl in *; [reflexivity|].
      destruct (String.eqb instanceId k0); [discriminate|]. now rewrite <- IH. }
  destruct H2 as (s2 & Hrun2 & Hi2 & Hc2 & Hs2 & Hp2).
  rewrite (bind_Ok _ _ _ _ _ Hrun1). rewrite (bind_Ok _ _ _ _ _ Hrun2).
  unfold updateInstanceState.
  assert (Hfound : mapGet instanceId (instances s2) = Some inst) by now rewrite Hi2.
  unfold mbind at 1, M_bind at 1.
  rewrite (mutateInstance_found _ _ _ _ Hfound).
  unfold mbind, M_bind, modify, notifyInstancesChange, mret, M_ret.
  eexists. split; [reflexivity|]. cbn.
  rewrite mapSet_mapDelete, Hi2, Hc2, Hs2, Hp2. repeat split.
Qed.

Lemma disposable_sub s s' :
  (forall k v, In (k, v) (componentRefs s') -> In (k, v) (componentRefs s)) ->
  (forall k v, In (k, v) (subscriptions s') -> In (k, v) (subscriptions s)) ->
  disposable s -> disposable s'.
Proof.
  intros Hc Hs [H1 H2]. split.
  - intros k cref Hin. exact (H1 _ _ (Hc _ _ Hin)).
  - intros k sub Hin. exact (H2 _ _ (Hs _ _ Hin)).
Qed.

Lemma destroyAll env l : forall s,
  disposable s ->
  (forall k, mapHas k (instances s) = true -> In k (map id l)) ->
  exists s',
    forEach (fun inst => destroyWidget env (id inst) ;; mret tt) l s = (Ok tt, s') /\
    instances s' = [] /\ disposable s' /\
    (forall k, mapHas k (instances s) = true \/ mapGet k (componentRefs s) = None ->
               mapGet k (componentRefs s') = None) /\
    dataProviders s' = dataProviders s.
Proof.
  induction l as [|inst rest IH]; intros s Hd Hkeys.
  - exists s. split; [reflexivity|].
    assert (Hnil : instances s = []).
    { apply mapHas_nil. intros k. destruct (mapHas k (instances s)) eqn:E;
        [|reflexivity]. destruct (Hkeys k E). }
    split; [exact Hnil|]. split; [exact Hd|]. split; [|reflexivity].
    intros k [Hk|Hk]; [|exact Hk]. rewrite Hnil in Hk. discriminate.
  - simpl. destruct (getWidget s (id inst)) as [i|] eqn:Hg.
    + destruct (destroyWidget_disposable env (id inst) s i Hg Hd)
        as (s1 & Hrun & Hi & Hc & Hs & Hp).
      assert (Hd1 : disposable s1).
      { apply (disposable_sub s); [| |exact Hd].
        - intros k v. rewrite Hc. apply In_mapDelete.
        - intros k v. rewrite Hs. apply In_mapDelete. }
      destruct (IH s1 Hd1) as (s' & Hrest & Hnil & Hd' & Hrefs & Hprov).
      { intros k Hk. unfold mapHas in Hk. rewrite Hi, mapGet_mapDelete in Hk.
        destruct (String.eqb k (id inst)) eqn:E; [discriminate|].
        assert (Hin : In k (map id (inst :: rest))) by (apply Hkeys; exact Hk).
        destruct Hin as [Heq|Hin]; [|exact Hin].
        apply String.eqb_neq in E. congruence. }
      exists s'. split.
      { unfold mbind at 1, M_bind at 1. unfold mbind at 1, M_bind at 1.
        rewrite Hrun. exact Hrest. }
      split; [exact Hnil|]. split; [exact Hd'|]. split; [|congruence].
      intros k Hk. apply Hrefs.
      destruct (String.eqb k (id inst)) eqn:E.
      * right. rewrite Hc, mapGet_mapDelete. now rewrite E.
      * destruct Hk as [Hk|Hk].
        -- left. unfold mapHas. rewrite Hi, mapGet_mapDelete. now rewrite E.
        -- right. rewrite Hc, mapGet_mapDelete. now rewrite E.
    + destruct (IH s Hd) as (s' & Hrest & Hnil & Hd' & Hrefs & Hprov).
      { intros k Hk.
        assert (Hin : In k (map id (inst :: rest))) by (apply Hkeys; exact Hk).
        destruct Hin as [Heq|Hin]; [|exact Hin].
        exfalso. unfold mapHas in Hk. unfold getWidget in Hg. subst k.
        now rewrite Hg in Hk. }
      exists s'. split.
      { unfold mbind at 1, M_bind at 1. unfold mbind at 1, M_bind at 1.
        rewrite (destroyWidget_unknown env (id inst) s Hg). exact Hrest. }
      split; [exact Hnil|]. split; [exact Hd'|]. split; [exact Hrefs|exact Hprov].
Qed.

Lemma unsubscribeAll (subs : list Subscription) s :
  Forall (fun sub => returns (unsubscribe sub) = true) subs ->
  forEach (fun sub => call (unsubscribe sub)) subs s = (Ok tt, s).
Proof.
  induction 1 as [|sub subs Hsub Hall IH]; [reflexivity|].
  simpl. unfold mbind, M_bind. destruct (unsubscribe sub); [|discriminate].
  exact IH.
Qed.

(** X22.  When the instances are stored under their ids and no mounted
    component and no subscription throws on disposal, [ngOnDestroy]
    returns with no instance, no subscription and no component of an
    instance left; the data providers stay registered. *)
Theorem ngOnDestroy_disposes_of_everything :
  forall (env : Env) (s : State),
    keyedById s -> disposable s ->
    exists s',
      ngOnDestroy env s = (Ok tt, s') /\
      instances s' = [] /\ getAllWidgets s' = [] /\
      subscriptions s' = [] /\
      (forall k, mapHas k (instances s) = true ->
                 mapGet k (componentRefs s') = None) /\
      dataProviders s' = dataProviders s.
Proof.
  intros env s Hkeyed Hd.
  destruct (destroyAll env (getAllWidgets s) s Hd)
    as (s1 & Hrun & Hnil & Hd1 & Hrefs & Hprov).
  { intros k Hk. unfold mapHas in Hk.
    destruct (mapGet k (instances s)) as [i|] eqn:E; [|discriminate].
    apply mapGet_Some_In in E. unfold getAllWidgets, mapValues. rewrite map_map.
    apply in_map_iff. exists (k, i). split; [|exact E]. simpl.
    exact (Hkeyed _ _ E). }
  eexists. split.
  { unfold ngOnDestroy. unfold mbind at 1, M_bind at 1, gets at 1.
    unfold mbind at 1, M_bind at 1. rewrite Hrun.
    unfold mbind at 1, M_bind at 1, gets at 1.
    unfold mbind at 1, M_bind at 1.
    rewrite unsubscribeAll; [reflexivity|].
    apply List.Forall_forall. intros sub Hin. unfold mapValues in Hin.
    apply in_map_iff in Hin as ([k v] & <- & Hin). exact (proj2 Hd1 _ _ Hin). }
  cbn. rewrite Hnil. repeat split; [|exact Hprov].
  intros k Hk. apply Hrefs. now left.
Qed.

(** X18, witness: the todo widget created in a new orchestrator. *)
Lemma createWidget_without_container_witness :
  exists inst s',
    createWidget demoRegistry env0 "todo" [] None initial = (Ok inst, s') /\
    id inst = "todo_1700000000000_k3x9q2m1z"%string /\
    state inst = LOADED /\
    getAllWidgets s' = [inst].
Proof.
  destruct (createWidget_without_container demoRegistry env0 "todo" [] initial
              todoDefinition eq_refl eq_refl)
    as (s' & Hrun & Hinst & _).
  eexists _, s'. split; [exact Hrun|]. split; [reflexivity|]. split; [reflexivity|].
  unfold getAllWidgets. rewrite Hinst. reflexivity.
Defined.

(** X19, witness: a type that was never registered. *)
Lemma createWidget_rejection_without_container_witness :
  exists s',
    createWidget demoRegistry env0 "clock" [] None initial
      = (Thrown (Printable "Error: Widget type 'clock' not found"), s') /\
    getAllWidgets s' = []  /\
    map fst (errorSubject s') = [""%string].
Proof.
  assert (Hrun : exists s',
            createWidget demoRegistry env0 "clock" [] None initial
            = (Thrown (Printable "Error: Widget type 'clock' not found"), s')).
  { eexists. reflexivity. }
  destruct Hrun as (s' & Hrun).
  destruct (createWidget_rejection_without_container demoRegistry env0 "clock" []
              initial s' _ Hrun) as (text & _ & _ & Hinst & _ & _ & _ & Herr).
  exists s'. split; [exact Hrun|]. split.
  - unfold getAllWidgets. now rewrite Hinst.
  - now rewrite Herr.
Defined.

(** X20, witness: a render host that cannot create components.  The
    failure is an Error, which has a string form, and is recorded. *)
Lemma createWidget_failed_load_keeps_instance_witness :
  exists s' inst,
    createWidget demoRegistry env0 "todo" [] (Some failingContainer) initial
      = (Thrown (Printable "Error: no host element"), s') /\
    getWidget s' "todo_1700000000000_k3x9q2m1z" = Some inst /\
    In inst (getAllWidgets s') /\
    state inst = ERROR /\
    map fst (errorSubject s') = ["todo_1700000000000_k3x9q2m1z"%string; ""%string].
Proof.
  set (s' := snd (createWidget demoRegistry env0 "todo" []
                    (Some failingContainer) initial)).
  assert (Hrun : createWidget demoRegistry env0 "todo" [] (Some failingContainer)
                   initial
                 = (Thrown (Printable "Error: no host element"), s')).
  { vm_compute. reflexivity. }
  destruct (createWidget_failed_load_keeps_instance demoRegistry env0 "todo" []
              failingContainer initial s' todoDefinition _ eq_refl eq_refl Hrun)
    as (inst & Hget & _ & Hin & Hcase).
  exists s', inst. split; [exact Hrun|]. split; [exact Hget|].
  split; [exact Hin|].
  destruct Hcase as [(text & _ & Hstate & _ & Herr)|(Hstate & _)].
  - split; [exact Hstate|]. now rewrite Herr.
  - exfalso. vm_compute in Hget. injection Hget as <-. discriminate Hstate.
Defined.

(** The other case: the render host throws a Symbol.  The rejection is the
    TypeError of the failed conversion, the instance is left in state
    LOADING, and only CREATION_FAILED is emitted. *)
Lemma createWidget_failed_load_unrecorded :
  exists s' inst,
    createWidget demoRegistry env0 "todo" [] (Some symbolThrowingHost) initial
      = (Thrown symbolTypeError, s') /\
    getWidget s' "todo_1700000000000_k3x9q2m1z" = Some inst /\
    state inst = LOADING /\ error inst = None /\
    map fst (errorSubject s') = [""%string].
Proof.
  eexists _, _. split; [vm_compute; reflexivity|].
  repeat split; vm_compute; reflexivity.
Qed.

Lemma oneInstance_tables :
  exists inst,
    instances oneInstance = [("todo_1700000000000_k3x9q2m1z"%string, inst)] /\
    id inst = "todo_1700000000000_k3x9q2m1z"%string /\
    componentRefs oneInstance = [] /\ subscriptions oneInstance = [].
Proof. eexists. repeat split; vm_compute; reflexivity. Qed.

Lemma oneInstance_keyed : keyedById oneInstance.
Proof.
  destruct oneInstance_tables as (inst & Hi & Hid & _).
  intros k i Hin. rewrite Hi in Hin. destruct Hin as [[= <- <-]|[]]. exact Hid.
Qed.

Lemma oneInstance_disposable : disposable oneInstance.
Proof.
  destruct oneInstance_tables as (inst & _ & _ & Hc & Hs).
  split; intros k v Hin; [rewrite Hc in Hin|rewrite Hs in Hin]; destruct Hin.
Qed.

(** X22, witness: an orchestrator holding one instance. *)
Lemma ngOnDestroy_disposes_of_everything_witness :
  length (getAllWidgets oneInstance) = 1%nat /\
  exists s', ngOnDestroy env1 oneInstance = (Ok tt, s') /\ getAllWidgets s' = [].
Proof.
  split; [vm_compute; reflexivity|].
  destruct (ngOnDestroy_disposes_of_everything env1 oneInstance oneInstance_keyed
              oneInstance_disposable)
    as (s' & Hrun & _ & Hall & _).
  exists s'. split; [exact Hrun|exact Hall].
Defined.

End OrchestratorFacts.

(* ===================================================================== *)
(** * Facts: Event bus and shared state (widget-communication.service.ts) *)
(* ===================================================================== *)

Module CommFacts.
Import Js. Import JsFacts. Import Comm.

(** ** Facts *)

Lemma handed_app (s s' : State) (l : list Delivery) :
  delivered s' = delivered s ++ l -> handed s s' = l.
Proof.
  intros H. unfold handed. rewrite H.
  rewrite skipn_app, skipn_all, Nat.sub_diag. reflexivity.
Qed.

Lemma handed_next (event : WidgetEvent) (s : State) :
  handed s (next event s) = deliveries (eventBus s) event.
Proof. apply handed_app. reflexivity. Qed.

Lemma accepts_targetedEvent now targetId event f :
  accepts f (targetedEvent now targetId event) =
  match f with
  | ByType eventType => String.eqb (type event) eventType
  | BySource sourceId => String.eqb (source event) sourceId
  | ByTarget t => String.eqb targetId t
  | Unfiltered => true
  end.
Proof. destruct f; reflexivity. Qed.

Lemma deliveries_In (bus : list Subscriber) (event : WidgetEvent) (sub : Subscriber) :
  In sub bus -> accepts (filter sub) event = true ->
  In (Event (subscription sub) event) (deliveries bus event).
Proof.
  intros Hin Hacc. unfold deliveries.
  apply in_map_iff. exists sub. split; [reflexivity|].
  apply filter_In. auto.
Qed.

Lemma deliveries_In_inv (bus : list Subscriber) (event : WidgetEvent) n e :
  In (Event n e) (deliveries bus event) ->
  e = event /\ exists sub, In sub bus /\ subscription sub = n /\
                           accepts (filter sub) event = true.
Proof.
  unfold deliveries. intros Hin. apply in_map_iff in Hin as (sub & Heq & Hf).
  apply filter_In in Hf as [Hin Hacc]. injection Heq as <- <-. eauto.
Qed.

(** C3 (as the code has it).  An event sent with [send(targetId, event)]
    is put on the one event bus with [target = targetId]; it is handed, in
    subscription order, to exactly the subscribers whose filter accepts it:
    those of [subscribeToTargetedEvents] registered for [targetId], those
    of [subscribe] registered for the event's type, those of
    [subscribeToWidget] registered for its source, and unfiltered ones.
    Among the targeted subscribers only those of [targetId] receive it. *)
Theorem send_reaches_every_accepting_subscriber :
  forall now targetId event (s : State),
    handed s (send now targetId event s)
      = deliveries (eventBus s) (targetedEvent now targetId event) /\
    (forall sub, In sub (eventBus s) ->
       accepts (filter sub) (targetedEvent now targetId event) = true ->
       In (Event (subscription sub) (targetedEvent now targetId event))
          (handed s (send now targetId event s))) /\
    (forall sub, In sub (eventBus s) ->
       accepts (filter sub) (targetedEvent now targetId event) =
       match filter sub with
       | ByType eventType => String.eqb (type event) eventType
       | BySource sourceId => String.eqb (source event) sourceId
       | ByTarget t => String.eqb targetId t
       | Unfiltered => true
       end) /\
    (forall n e, In (Event n e) (handed s (send now targetId event s)) ->
       exists sub, In sub (eventBus s) /\ subscription sub = n /\
         match filter sub with
         | ByType eventType => type event = eventType
         | BySource sourceId => source event = sourceId
         | ByTarget t => targetId = t
         | Unfiltered => True
         end).
Proof.
  intros now targetId event s. unfold send. rewrite handed_next.
  split; [reflexivity|]. split; [|split].
  - intros sub Hin Hacc. now apply deliveries_In.
  - intros sub _. apply accepts_targetedEvent.
  - intros n e Hin. apply deliveries_In_inv in Hin as (_ & sub & Hin & Hn & Hacc).
    exists sub. split; [exact Hin|]. split; [exact Hn|].
    rewrite accepts_targetedEvent in Hacc.
    destruct (filter sub); try apply String.eqb_eq in Hacc; auto.
Qed.





Lemma getSharedState_setSharedState now key v s :
  getSharedState (setSharedState now key v s) key = v.
Proof.
  unfold getSharedState, setSharedState.
  destruct (mapGet key (sharedState s)); simpl;
    now rewrite mapGet_mapSet, String.eqb_refl.
Qed.







(** C3, counterexample.  A handler registered with [subscribe("X")] is
    handed the event of type X that is sent to widget w2. *)
Lemma send_reaches_type_subscriber :
  fst (subscribe "X" initial) = 0%nat /\
  handed (snd (subscribe "X" initial))
         (send 20 "w2" eventX (snd (subscribe "X" initial)))
  = [Event 0 {| type := "X"; source := "w1"; target := Some "w2";
                payload := JObj [("n", JNum 1)]; timestamp := 20;
                bubble := Some false |}].
Proof. split; reflexivity. Qed.

(** A broadcast of type X reaches the subscriber of X and not that of Y. *)
Lemma broadcast_reaches_type_subscribers :
  let s := snd (subscribe "Y" (snd (subscribe "X" initial))) in
  handed s (broadcast 20 eventX s)
  = [Event 0 {| type := "X"; source := "w1"; target := None;
                payload := JObj [("n", JNum 1)]; timestamp := 20;
                bubble := Some true |}].
Proof. reflexivity. Qed.

(** The request/response pattern of the service relies on it: the
    requester listens with [subscribe] and the answer comes through
    [send]. *)
Lemma response_reaches_requester :
  let started := request 10 "req_1" "w2" "GET_DATA" [] initial in
  let requestEvent :=
    {| type := "GET_DATA"; source := "w1"; target := Some "w2";
       payload := JObj [("requestId", JStr "req_1")]; timestamp := 10;
       bubble := Some false |} in
  handed (snd started)
         (respond 30 requestEvent (JNum 42) JUndefined (snd started))
  = [Event (fst started)
       {| type := "GET_DATA_RESPONSE"; source := "system"; target := Some "w1";
          payload := JObj [("requestId", JStr "req_1"); ("data", JNum 42);
                           ("error", JUndefined)];
          timestamp := 30; bubble := Some false |}].
Proof. reflexivity. Qed.



(** ** Further facts *)

Lemma request_run now requestId targetId requestType payload s :
  request now requestId targetId requestType payload s
  = (nextSubscription s,
     next (requestEvent now requestId targetId requestType payload)
          (snd (subscribe (requestType +:+ "_RESPONSE") s))).
Proof. reflexivity. Qed.

(** X24.  [request] registers its response handler and puts the request
    on the bus, where its own handler does not take it.  When the caller's
    payload has no [requestId] of its own, the request carries the
    generated id, and a [respond] to it hands the requester's handler an
    event of type [<requestType>_RESPONSE] with that id, the response data
    and the error.  The response is addressed to 'system', the source
    [request] has written into the event, and reaches the handler through
    its type alone. *)
Theorem request_response_roundtrip :
  forall (now later : Z) (requestId targetId requestType : string)
         (requestPayload : Obj) (responseData error : JsVal) (s : State),
    requestId <> ""%string ->
    lookupProp "requestId" requestPayload = None ->
    NoDup (map fst requestPayload) ->
    let started := request now requestId targetId requestType requestPayload s in
    let sent := requestEvent now requestId targetId requestType requestPayload in
    let response :=
      {| type := requestType +:+ "_RESPONSE"; source := "system";
         target := Some "system"%string;
         payload := JObj [("requestId", JStr requestId); ("data", responseData);
                          ("error", error)];
         timestamp := later; bubble := Some false |} in
    handed s (snd started) = deliveries (eventBus s) sent /\
    member "requestId" (payload sent) = JStr requestId /\
    In (Event (fst started) response)
       (handed (snd started) (respond later sent responseData error (snd started))).
Proof.
  intros now later requestId targetId requestType requestPayload responseData error s
    Hid Hfresh Hnd started sent response.
  assert (Hmember : member "requestId" (payload sent) = JStr requestId).
  { subst sent. unfold requestEvent, targetedEvent. simpl. unfold getProp.
    rewrite (lookupProp_spread _ _ _ Hnd), Hfresh. simpl. reflexivity. }
  split.
  { subst started. rewrite request_run. simpl snd.
    unfold handed, next, subscribe, subscribeWith. simpl.
    rewrite skipn_app, skipn_all, Nat.sub_diag. simpl.
    unfold deliveries. rewrite List.filter_app. simpl.
    fold sent.
    assert (Hno : accepts (ByType (requestType +:+ "_RESPONSE")) sent = false).
    { subst sent. simpl. apply String.eqb_neq. intros Heq.
      apply (f_equal String.length) in Heq.
      rewrite length_append_string in Heq. simpl in Heq. lia. }
    simpl in Hno. rewrite Hno. simpl. now rewrite app_nil_r. }
  split; [exact Hmember|].
  subst started. rewrite request_run. simpl fst. simpl snd.
  unfold respond. rewrite Hmember. simpl truthy.
  apply String.eqb_neq in Hid. rewrite Hid. simpl negb. cbv iota.
  unfold send. rewrite handed_next.
  apply (deliveries_In _ _ {| subscription := nextSubscription s;
                              filter := ByType (requestType +:+ "_RESPONSE") |}).
  - simpl. apply in_app_iff. right. now left.
  - simpl. apply String.eqb_refl.
Qed.

Lemma deliveries_recipient bus event n :
  (forall sub, In sub bus -> subscription sub <> n) ->
  forall d, In d (deliveries bus event) -> recipient d <> n.
Proof.
  intros H d Hin. unfold deliveries in Hin.
  apply in_map_iff in Hin as (sub & <- & Hsub). apply filter_In in Hsub as [Hsub _].
  simpl. now apply H.
Qed.

Lemma retired_next n event s : retired n s -> retired n (next event s).
Proof. exact (fun H => H). Qed.

(** What one call hands out goes to registered handlers or to the
    subscription it creates. *)
Lemma exec_retired n c s :
  retired n s ->
  retired n (exec c s) /\
  exists l, delivered (exec c s) = delivered s ++ l /\
            forall d, In d l -> recipient d <> n.
Proof.
  intros (Hlt & Hbus & Hcells).
  assert (Hnext : forall event s0,
            (forall sub, In sub (eventBus s0) -> subscription sub <> n) ->
            forall d, In d (deliveries (eventBus s0) event) -> recipient d <> n).
  { intros event s0 H. now apply deliveries_recipient. }
  destruct c as [now event|now targetId event|f|m|now key v|key|now key|now]; simpl.
  - split; [now split|]. eexists. split; [reflexivity|]. now apply Hnext.
  - split; [now split|]. eexists. split; [reflexivity|]. now apply Hnext.
  - split.
    + split; [simpl; lia|]. split; [|exact Hcells].
      simpl. intros sub Hin. apply in_app_iff in Hin as [Hin|[<-|[]]];
        [now apply Hbus|simpl; lia].
    + exists []. split; [simpl; now rewrite app_nil_r|]. intros d [].
  - split.
    + split; [exact Hlt|]. split.
      * simpl. intros sub Hin. apply filter_In in Hin as [Hin _]. now apply Hbus.
      * simpl. intros key subject Hin. apply in_map_iff in Hin as ([k b] & [= <- <-] & Hin).
        simpl. intros Hn. apply filter_In in Hn as [Hn _]. exact (Hcells _ _ Hin Hn).
    + exists []. split; [simpl; now rewrite app_nil_r|]. intros d [].
  - unfold setSharedState.
    destruct (mapGet key (sharedState s)) as [subject|] eqn:G.
    + split.
      * split; [exact Hlt|]. split; [exact Hbus|].
        simpl. intros k b Hin. apply In_mapSet in Hin as [[-> ->]|Hin].
        -- simpl. exact (Hcells _ _ (mapGet_Some_In _ _ _ G)).
        -- exact (Hcells _ _ Hin).
      * eexists. split; [unfold broadcast, next; simpl; now rewrite <- app_assoc|].
        intros d Hd. apply in_app_iff in Hd as [Hd|Hd].
        -- apply in_map_iff in Hd as (o & <- & Ho). simpl. intros ->.
           exact (Hcells _ _ (mapGet_Some_In _ _ _ G) Ho).
        -- revert d Hd. now apply deliveries_recipient.
    + split.
      * split; [exact Hlt|]. split; [exact Hbus|].
        simpl. intros k b Hin. apply In_mapSet in Hin as [[-> ->]|Hin].
        -- simpl. tauto.
        -- exact (Hcells _ _ Hin).
      * eexists. split; [reflexivity|]. now apply deliveries_recipient.
  - split.
    + split; [simpl; lia|]. split; [exact Hbus|].
      simpl. intros k b Hin. apply In_mapSet in Hin as [[-> ->]|Hin].
      * simpl. intros Hn. apply in_app_iff in Hn as [Hn|[Hn|[]]]; [|lia].
        destruct (mapGet key (sharedState s)) as [subject|] eqn:G; [|destruct Hn].
        exact (Hcells _ _ (mapGet_Some_In _ _ _ G) Hn).
      * exact (Hcells _ _ Hin).
    + eexists. split; [reflexivity|]. intros d [<-|[]]. simpl. lia.
  - unfold removeSharedState.
    destruct (mapGet key (sharedState s)) as [subject|] eqn:G; simpl.
    + split.
      * split; [exact Hlt|]. split; [exact Hbus|].
        intros k b Hin. apply In_mapDelete in Hin. exact (Hcells _ _ Hin).
      * eexists. split; [now rewrite <- app_assoc|].
        intros d Hd. apply in_app_iff in Hd as [Hd|Hd].
        -- apply in_map_iff in Hd as (o & <- & Ho). simpl. intros ->.
           exact (Hcells _ _ (mapGet_Some_In _ _ _ G) Ho).
        -- revert d Hd. now apply deliveries_recipient.
    + split; [now split|]. exists []. split; [now rewrite app_nil_r|]. intros d [].
  - split.
    + split; [exact Hlt|]. split; [exact Hbus|]. intros k b [].
    + eexists. split; [unfold clearSharedState, broadcast, next; simpl;
                        now rewrite <- app_assoc|].
      intros d Hd. apply in_app_iff in Hd as [Hd|Hd].
      * apply in_flat_map in Hd as ([k b] & Hkb & Hd).
        apply in_map_iff in Hd as (o & <- & Ho). simpl. intros ->.
        exact (Hcells _ _ Hkb Ho).
      * revert d Hd. now apply deliveries_recipient.
Qed.

Lemma run_retired n calls s :
  retired n s ->
  exists l, delivered (run calls s) = delivered s ++ l /\
            forall d, In d l -> recipient d <> n.
Proof.
  revert s. induction calls as [|c calls IH]; intros s H; simpl.
  - exists []. split; [now rewrite app_nil_r|]. intros d [].
  - destruct (exec_retired n c s H) as (H' & l1 & Hl1 & Hr1).
    destruct (IH _ H') as (l2 & Hl2 & Hr2).
    exists (l1 ++ l2). split; [rewrite Hl2, Hl1; now rewrite app_assoc|].
    intros d Hd. apply in_app_iff in Hd as [Hd|Hd]; [now apply Hr1|now apply Hr2].
Qed.

Lemma retired_unsubscribe n s :
  (n < nextSubscription s)%nat -> retired n (unsubscribe n s).
Proof.
  intros Hlt. split; [exact Hlt|]. split.
  - simpl. intros sub Hin. apply filter_In in Hin as [_ Hne].
    apply negb_true_iff, Nat.eqb_neq in Hne. exact Hne.
  - simpl. intros key subject Hin.
    apply in_map_iff in Hin as ([k b] & [= <- <-] & Hin). simpl.
    intros Hn. apply filter_In in Hn as [_ Hne].
    apply negb_true_iff, Nat.eqb_neq in Hne. now apply Hne.
Qed.

(** X25.  Once the unsubscribe function of a subscription has been
    called, no later call of the service hands its handler anything: no
    event, no shared state value, no completion. *)
Theorem unsubscribed_handler_receives_nothing :
  forall (s : State) (n : nat) (calls : list Call),
    (n < nextSubscription s)%nat ->
    let s1 := unsubscribe n s in
    forall d, In d (handed s1 (run calls s1)) -> recipient d <> n.
Proof.
  intros s n calls Hlt s1 d Hd.
  destruct (run_retired n calls s1 (retired_unsubscribe n s Hlt)) as (l & Hl & Hr).
  rewrite (handed_app _ _ _ Hl) in Hd. now apply Hr.
Qed.

(** X26.  [removeSharedState(key)] returns false and does nothing for a
    key without a cell.  Otherwise it returns true, completes the cell's
    subscribers, broadcasts STATE_REMOVED, and [getSharedState(key)] is
    undefined while other keys keep their values.  A later
    [setSharedState(key, v)] starts a new cell: [getSharedState] returns
    [v], but the call hands out bus events only, so no subscriber of the
    removed cell is told. *)
Theorem removeSharedState_disconnects_subscribers :
  forall (now later : Z) (key : string) (v : JsVal) (s : State),
    (mapGet key (sharedState s) = None ->
       removeSharedState now key s = (false, s)) /\
    (forall subject, mapGet key (sharedState s) = Some subject ->
       exists s',
         removeSharedState now key s = (true, s') /\
         handed s s'
           = map Complete (observers subject)
             ++ deliveries (eventBus s)
                  (broadcastEvent now
                     (stateEvent "STATE_REMOVED" (JObj [("key", JStr key)]) now)) /\
         getSharedState s' key = JUndefined /\
         (forall other, other <> key ->
            getSharedState s' other = getSharedState s other) /\
         getSharedState (setSharedState later key v s') key = v /\
         forall d, In d (handed s' (setSharedState later key v s')) ->
                   exists n e, d = Event n e).
Proof.
  intros now later key v s. split.
  - intros Hnone. unfold removeSharedState. now rewrite Hnone.
  - intros subject Hsome. unfold removeSharedState. rewrite Hsome.
    eexists. split; [reflexivity|].
    set (s' := broadcast now _ _).
    assert (Hcell : mapGet key (sharedState s') = None).
    { subst s'. simpl. rewrite mapGet_mapDelete. now rewrite String.eqb_refl. }
    split.
    { subst s'. apply handed_app. unfold broadcast, next. simpl.
      now rewrite <- app_assoc. }
    split; [unfold getSharedState; now rewrite Hcell|].
    split.
    { intros other Hne. unfold getSharedState. subst s'. simpl.
      rewrite mapGet_mapDelete. apply String.eqb_neq in Hne. now rewrite Hne. }
    split; [apply getSharedState_setSharedState|].
    intros d Hd. unfold setSharedState in Hd. rewrite Hcell in Hd.
    erewrite handed_app in Hd; [|reflexivity].
    unfold deliveries in Hd. apply in_map_iff in Hd as (sub & <- & _).
    eauto.
Qed.

(** X24, witness: a GET_DATA request with a payload, answered with 42. *)
Lemma request_response_roundtrip_witness :
  let started := request 10 "req_1" "w2" "GET_DATA" [("page", JNum 2)] initial in
  let sent := requestEvent 10 "req_1" "w2" "GET_DATA" [("page", JNum 2)] in
  payload sent = JObj [("requestId", JStr "req_1"); ("page", JNum 2)] /\
  In (Event (fst started)
        {| type := "GET_DATA_RESPONSE"; source := "system";
           target := Some "system"%string;
           payload := JObj [("requestId", JStr "req_1"); ("data", JNum 42);
                            ("error", JUndefined)];
           timestamp := 30; bubble := Some false |})
     (handed (snd started) (respond 30 sent (JNum 42) JUndefined (snd started))).
Proof.
  split; [reflexivity|].
  assert (Hnd : NoDup (map fst [("page"%string, JNum 2)])).
  { apply (bool_decide_unpack _). vm_compute. exact I. }
  assert (Hid : "req_1"%string <> ""%string) by discriminate.
  apply (request_response_roundtrip 10 30 "req_1" "w2" "GET_DATA"
           [("page", JNum 2)] (JNum 42) JUndefined initial Hid eq_refl Hnd).
Defined.

(** X25, witness: a type subscriber unsubscribed before two broadcasts. *)
Lemma unsubscribed_handler_receives_nothing_witness :
  let s := snd (subscribe "X" initial) in
  handed (unsubscribe 0 s) (run [CBroadcast 20 eventX] (unsubscribe 0 s)) = [] /\
  forall d, In d (handed (unsubscribe 0 s)
                    (run [CBroadcast 20 eventX; CSubscribe (ByType "X");
                          CBroadcast 21 eventX] (unsubscribe 0 s))) ->
            recipient d <> 0%nat.
Proof.
  split; [reflexivity|].
  apply (unsubscribed_handler_receives_nothing (snd (subscribe "X" initial)) 0%nat).
  simpl. lia.
Defined.

End CommFacts.

(* ===================================================================== *)
(** * Facts: event system of the orchestrator *)
(* ===================================================================== *)

Module BusFacts.
Import Js. Import JsFacts. Import Bus.









End BusFacts.

(* ===================================================================== *)
(** * Facts: Layout engine (dashboard-layout-manager.service.ts) *)
(* ===================================================================== *)

Module LayoutFacts.
Import Js. Import Layout.

(** ** Facts *)

(** ** Loops *)

Lemma firstFrom_Some {A} (body : Z -> option A) (start : Z) (count : nat) (a : A) :
  firstFrom body start count = Some a ->
  exists i, start <= i < start + Z.of_nat count /\ body i = Some a /\
            forall j, start <= j < i -> body j = None.
Proof.
  revert start. induction count as [|n IH]; intros start H; [discriminate|].
  simpl in H. destruct (body start) as [b|] eqn:Hb.
  - injection H as ->. exists start. split; [lia|]. split; [exact Hb|]. lia.
  - apply IH in H as (i & Hi & Hbi & Hmin). exists i.
    split; [lia|]. split; [exact Hbi|].
    intros j Hj. destruct (Z.eq_dec j start) as [->|]; [exact Hb|].
    apply Hmin. lia.
Qed.

Lemma firstFrom_None {A} (body : Z -> option A) (start : Z) (count : nat) :
  firstFrom body start count = None <->
  forall i, start <= i < start + Z.of_nat count -> body i = None.
Proof.
  revert start. induction count as [|n IH]; intros start; simpl.
  - split; [lia|reflexivity].
  - destruct (body start) as [b|] eqn:Hb.
    + split; [discriminate|]. intros H. rewrite <- Hb. apply H. lia.
    + rewrite IH. split; intros H i Hi.
      * destruct (Z.eq_dec i start) as [->|]; [exact Hb|]. apply H. lia.
      * apply H. lia.
Qed.

(** The loop returns at the first index whose body returns. *)
Lemma firstFrom_first {A} (body : Z -> option A) (start : Z) (count : nat)
    (i : Z) (a : A) :
  start <= i < start + Z.of_nat count ->
  body i = Some a ->
  (forall j, start <= j < i -> body j = None) ->
  firstFrom body start count = Some a.
Proof.
  intros Hi Hb Hmin.
  destruct (firstFrom body start count) as [b|] eqn:Hf.
  - apply firstFrom_Some in Hf as (k & Hk & Hbk & Hmink).
    destruct (Z.lt_trichotomy k i) as [Hlt|[->|Hgt]].
    + rewrite Hmin in Hbk by lia. discriminate.
    + congruence.
    + rewrite Hmink in Hb by lia. discriminate.
  - rewrite firstFrom_None in Hf. rewrite Hf in Hb by lia. discriminate.
Qed.

Lemma allFrom_true (body : Z -> bool) (start : Z) (count : nat) :
  allFrom body start count = true <->
  forall i, start <= i < start + Z.of_nat count -> body i = true.
Proof.
  revert start. induction count as [|n IH]; intros start; simpl.
  - split; [lia|reflexivity].
  - rewrite andb_true_iff, IH. split.
    + intros [H0 H] i Hi. destruct (Z.eq_dec i start) as [->|]; [exact H0|].
      apply H. lia.
    + intros H. split; [apply H; lia|]. intros i Hi. apply H. lia.
Qed.

Lemma foldFrom_inv {T} (P : Z -> T -> Prop) (body : Z -> T -> T)
    (start : Z) (count : nat) (acc : T) :
  P start acc ->
  (forall i a, start <= i < start + Z.of_nat count -> P i a -> P (i + 1) (body i a)) ->
  P (start + Z.of_nat count) (foldFrom body start count acc).
Proof.
  revert start acc. induction count as [|n IH]; intros start acc H0 Hstep; simpl.
  - now replace (start + Z.of_nat 0) with start by lia.
  - replace (start + Z.of_nat (S n)) with (start + 1 + Z.of_nat n) by lia.
    apply IH.
    + apply Hstep; [lia|exact H0].
    + intros i a Hi. apply Hstep. lia.
Qed.

Lemma canPlace_true (occupied : Cells) (l : WidgetLayout) (px py : Z) :
  canPlace occupied l px py = true <->
  forall cx cy, covers (withPosition l px py) cx cy -> (cx, cy) ∉ occupied.
Proof.
  unfold canPlace, covers. simpl. rewrite allFrom_true. split.
  - intros H cx cy [Hx Hy]. specialize (H cx ltac:(lia)).
    rewrite allFrom_true in H. specialize (H cy ltac:(lia)).
    apply negb_true_iff, bool_decide_eq_false in H. exact H.
  - intros H cx Hx. rewrite allFrom_true. intros cy Hy.
    apply negb_true_iff, bool_decide_eq_false. apply H. lia.
Qed.

Lemma markOccupied_elem (p : Z * Z) (l : WidgetLayout) (occupied : Cells)
    (cx cy : Z) :
  (cx, cy) ∈ markOccupied p l occupied <->
  (cx, cy) ∈ occupied \/ covers (withPosition l (fst p) (snd p)) cx cy.
Proof.
  unfold markOccupied, covers. simpl.
  set (inner := fun (cx' : Z) (occ : Cells) =>
         foldFrom (fun cy' occ' => {[ (cx', cy') ]} ∪ occ')
                  (snd p) (Z.to_nat (rows l)) occ).
  assert (Hinner : forall cx' occ,
            (cx, cy) ∈ inner cx' occ <->
            (cx, cy) ∈ occ \/ (cx = cx' /\ snd p <= cy < snd p + rows l)).
  { intros cx' occ. unfold inner.
    pose proof (foldFrom_inv
      (fun i (a : Cells) => (cx, cy) ∈ a <->
         (cx, cy) ∈ occ \/ (cx = cx' /\ snd p <= cy < i))
      (fun cy' occ' => {[ (cx', cy') ]} ∪ occ')
      (snd p) (Z.to_nat (rows l)) occ) as H.
    destruct (Z_le_gt_dec (rows l) 0) as [Hle|Hgt].
    - replace (Z.to_nat (rows l)) with 0%nat by lia. simpl. split; [tauto|].
      intros [?|[_ ?]]; [assumption|lia].
    - replace (snd p + rows l) with (snd p + Z.of_nat (Z.to_nat (rows l))) by lia.
      apply H.
      + split; [tauto|]. intros [?|[_ ?]]; [assumption|lia].
      + intros i a Hi Ha. rewrite elem_of_union, elem_of_singleton, Ha.
        split.
        * intros [Heq|[?|[? ?]]]; [|tauto|right; split; [assumption|lia]].
          injection Heq as -> ->. right. split; [reflexivity|lia].
        * intros [?|[-> ?]]; [tauto|].
          destruct (Z.eq_dec cy i) as [->|]; [now left|].
          right. right. split; [reflexivity|lia]. }
  pose proof (foldFrom_inv
    (fun i (a : Cells) => (cx, cy) ∈ a <->
       (cx, cy) ∈ occupied \/ (fst p <= cx < i /\ snd p <= cy < snd p + rows l))
    inner (fst p) (Z.to_nat (cols l)) occupied) as H.
  destruct (Z_le_gt_dec (cols l) 0) as [Hle|Hgt].
  - replace (Z.to_nat (cols l)) with 0%nat by lia. simpl. split; [tauto|].
    intros [?|[? _]]; [assumption|lia].
  - replace (fst p + cols l) with (fst p + Z.of_nat (Z.to_nat (cols l))) by lia.
    apply H.
    + split; [tauto|]. intros [?|[? _]]; [assumption|lia].
    + intros i a Hi Ha. rewrite Hinner, Ha. split.
      * intros [[?|[? ?]]|[-> ?]]; [tauto|right; lia|right; lia].
      * intros [?|[? ?]]; [tauto|].
        destruct (Z.eq_dec cx i) as [->|]; [right; tauto|].
        left. right. lia.
Qed.

(** ** Collisions *)

Lemma collides_sym (a b : WidgetLayout) : collides a b = collides b a.
Proof.
  unfold collides. f_equal.
  destruct (orZero (x a) + cols a <=? orZero (x b)) eqn:E1,
           (orZero (x a) >=? orZero (x b) + cols b) eqn:E2,
           (orZero (y a) + rows a <=? orZero (y b)) eqn:E3,
           (orZero (y a) >=? orZero (y b) + rows b) eqn:E4,
           (orZero (x b) + cols b <=? orZero (x a)) eqn:E5,
           (orZero (x b) >=? orZero (x a) + cols a) eqn:E6,
           (orZero (y b) + rows b <=? orZero (y a)) eqn:E7,
           (orZero (y b) >=? orZero (y a) + rows a) eqn:E8;
    try reflexivity; exfalso; lia.
Qed.

(** The collision test, as arithmetic: the two rectangles overlap on both
    axes, touching edges apart. *)
Lemma collides_true (a b : WidgetLayout) :
  collides a b = true <->
  orZero (x a) < orZero (x b) + cols b /\ orZero (x b) < orZero (x a) + cols a /\
  orZero (y a) < orZero (y b) + rows b /\ orZero (y b) < orZero (y a) + rows a.
Proof.
  unfold collides. rewrite negb_true_iff, !orb_false_iff. lia.
Qed.

Lemma collides_false (a b : WidgetLayout) :
  collides a b = false <->
  orZero (x a) + cols a <= orZero (x b) \/ orZero (x a) >= orZero (x b) + cols b \/
  orZero (y a) + rows a <= orZero (y b) \/ orZero (y a) >= orZero (y b) + rows b.
Proof.
  unfold collides. rewrite negb_false_iff, !orb_true_iff. lia.
Qed.

Lemma hasOverlap_false (s : State) (excludeInstanceId : string) (l : WidgetLayout) :
  hasOverlap s excludeInstanceId l = false <->
  forall w, In w (currentWidgets s) -> id w <> excludeInstanceId ->
            collides l (layoutOf s w) = false.
Proof.
  unfold hasOverlap. split.
  - intros H w Hin Hid.
    destruct (collides l (layoutOf s w)) eqn:Hc; [|reflexivity].
    assert (existsb (fun w => collides l (layoutOf s w))
              (List.filter (fun w => negb (String.eqb (id w) excludeInstanceId))
                 (currentWidgets s)) = true) as Hex; [|congruence].
    apply existsb_exists. exists w. split; [|exact Hc].
    apply filter_In. split; [exact Hin|].
    apply negb_true_iff, String.eqb_neq. exact Hid.
  - intros H. apply not_true_is_false. intros Hex.
    apply existsb_exists in Hex as (w & Hin & Hc).
    apply filter_In in Hin as [Hin Hid].
    apply negb_true_iff, String.eqb_neq in Hid.
    rewrite (H w Hin Hid) in Hc. discriminate.
Qed.

Lemma disjointLayouts_lookup (ls : list WidgetLayout) :
  disjointLayouts ls <->
  forall i j a b, i <> j -> ls !! i = Some a -> ls !! j = Some b ->
                  collides a b = false.
Proof.
  induction ls as [|l rest IH]; simpl.
  - split; [|tauto]. intros _ i j a b _ Hi. discriminate.
  - rewrite IH. split.
    + intros [Hl Hrest] i j a b Hij Hi Hj.
      rewrite Forall_lookup in Hl.
      destruct i as [|i], j as [|j]; simpl in *; try congruence.
      * injection Hi as <-. eapply Hl, Hj.
      * injection Hj as <-. rewrite collides_sym. eapply Hl, Hi.
      * eapply (Hrest i j); [congruence|eassumption|eassumption].
    + intros H. split.
      * apply Forall_lookup. intros j b Hj.
        apply (H 0%nat (S j) l b); [discriminate|reflexivity|exact Hj].
      * intros i j a b Hij Hi Hj.
        apply (H (S i) (S j) a b); [congruence|exact Hi|exact Hj].
Qed.

Lemma disjointLayouts_snoc (ls : list WidgetLayout) (l : WidgetLayout) :
  disjointLayouts ls ->
  Forall (fun m => collides l m = false) ls ->
  disjointLayouts (ls ++ [l]).
Proof.
  induction ls as [|m rest IH]; simpl; intros Hd Hl.
  - split; [constructor|exact I].
  - destruct Hd as [Hm Hrest]. apply Forall_cons in Hl as [Hlm Hl].
    split; [|now apply IH].
    apply Forall_app. split; [exact Hm|].
    constructor; [|constructor]. now rewrite collides_sym.
Qed.

Lemma disjointLayouts_insert (ls : list WidgetLayout) (k : nat) (n : WidgetLayout) :
  disjointLayouts ls ->
  (forall j m, j <> k -> ls !! j = Some m -> collides n m = false) ->
  disjointLayouts (<[k:=n]> ls).
Proof.
  revert k. induction ls as [|l rest IH]; intros k Hd Hn; [exact I|].
  destruct Hd as [Hl Hrest]. destruct k as [|k]; simpl.
  - split; [|exact Hrest]. apply Forall_lookup. intros j m Hj.
    apply (Hn (S j) m); [discriminate|exact Hj].
  - split.
    + apply Forall_lookup. intros j m Hj.
      destruct (decide (j = k)) as [->|Hjk].
      * destruct (rest !! k) eqn:Hk.
        -- rewrite list_lookup_insert_eq in Hj by (eapply lookup_lt_Some; eauto).
           injection Hj as <-. rewrite collides_sym.
           apply (Hn 0%nat l); [discriminate|reflexivity].
        -- rewrite list_insert_ge in Hj by (now apply lookup_ge_None).
           congruence.
      * rewrite list_lookup_insert_ne in Hj by congruence.
        rewrite Forall_lookup in Hl. eapply Hl, Hj.
    + apply IH; [exact Hrest|]. intros j m Hjk Hj.
      apply (Hn (S j) m); [congruence|exact Hj].
Qed.

(** ** Reading layouts back after an assignment *)

Lemma store_eq (h : Heap) (r : ref) (l : WidgetLayout) : store h r l r = l.
Proof. unfold store. now rewrite Nat.eqb_refl. Qed.

Lemma store_ne (h : Heap) (r r' : ref) (l : WidgetLayout) :
  r' <> r -> store h r l r' = h r'.
Proof. intros H. unfold store. now apply Nat.eqb_neq in H as ->. Qed.

Lemma map_store_fresh (h : Heap) (r : ref) (l : WidgetLayout)
    (ws : list WidgetInstance) :
  ~ In r (map config ws) ->
  map (fun w => store h r l (config w)) ws = map (fun w => h (config w)) ws.
Proof.
  intros Hr. apply map_ext_in. intros w Hw. apply store_ne.
  intros Heq. apply Hr. apply in_map_iff. eauto.
Qed.

Lemma map_store_at (h : Heap) (l : WidgetLayout) (ws : list WidgetInstance)
    (k : nat) (w : WidgetInstance) :
  NoDup (map config ws) -> ws !! k = Some w ->
  map (fun w' => store h (config w) l (config w')) ws
  = <[k:=l]> (map (fun w' => h (config w')) ws).
Proof.
  revert k. induction ws as [|w0 rest IH]; intros k Hnd Hk; [discriminate|].
  apply NoDup_cons in Hnd as [Hnotin Hnd]. destruct k as [|k]; simpl in *.
  - injection Hk as ->. rewrite store_eq. f_equal.
    apply map_store_fresh. rewrite <- list_elem_of_In. exact Hnotin.
  - rewrite (IH k Hnd Hk). f_equal. apply store_ne.
    intros Heq. apply Hnotin. rewrite Heq.
    apply list_elem_of_fmap. exists w. split; [reflexivity|].
    eapply list_elem_of_lookup_2, Hk.
Qed.

(** ** The widget [find] returns *)

Lemma findWidget_Some (s : State) (instanceId : string) (w : WidgetInstance) :
  findWidget s instanceId = Some w ->
  id w = instanceId /\ exists k, currentWidgets s !! k = Some w.
Proof.
  unfold findWidget. intros H. apply find_some in H as [Hin Hid].
  apply String.eqb_eq in Hid. split; [exact Hid|].
  apply list_elem_of_In, list_elem_of_lookup in Hin. exact Hin.
Qed.

(** ** findOptimalPosition *)

Lemma fold_max_ge (l : list Z) (a : Z) :
  a <= fold_left Z.max l a /\ forall v, In v l -> v <= fold_left Z.max l a.
Proof.
  revert a. induction l as [|b rest IH]; intros a; simpl.
  - split; [lia|tauto].
  - destruct (IH (Z.max a b)) as [Ha Hin]. split; [lia|].
    intros v [<-|Hv]; [lia|now apply Hin].
Qed.

Lemma maxBottom_ge (s : State) (w : WidgetInstance) :
  In w (currentWidgets s) ->
  orZero (y (layoutOf s w)) + rows (layoutOf s w) <= maxBottom s.
Proof.
  intros Hin. unfold maxBottom. apply fold_max_ge.
  apply in_map_iff. exists w. split; [reflexivity|exact Hin].
Qed.

(** The position found collides with no named widget. *)
Lemma findOptimalPosition_free (s : State) (l : WidgetLayout) (w : WidgetInstance) :
  In w (currentWidgets s) -> id w <> "" ->
  collides (withPosition l (fst (findOptimalPosition s l))
                           (snd (findOptimalPosition s l)))
           (layoutOf s w) = false.
Proof.
  intros Hin Hid. unfold findOptimalPosition.
  destruct (firstFrom _ 0 1000) as [p|] eqn:Hf.
  - apply firstFrom_Some in Hf as (py & _ & Hrow & _).
    apply firstFrom_Some in Hrow as (px & _ & Hcell & _).
    destruct (hasOverlap s "" (withPosition l px py)) eqn:Ho; [discriminate|].
    injection Hcell as <-. simpl.
    rewrite hasOverlap_false in Ho. now apply Ho.
  - simpl. apply collides_false. simpl.
    pose proof (maxBottom_ge s w Hin). lia.
Qed.

(** ** addWidget *)

Lemma layouts_recordLayoutChange c s :
  layouts (recordLayoutChange c s) = layouts s.
Proof. reflexivity. Qed.

Lemma currentWidgets_addWidget inst position s :
  currentWidgets (addWidget inst position s) = currentWidgets s ++ [inst].
Proof. reflexivity. Qed.

Lemma layouts_addWidget inst position s :
  ~ In (config inst) (map config (currentWidgets s)) ->
  layouts (addWidget inst position s)
  = layouts s ++ [addedLayout inst position s].
Proof.
  intros Hfresh. unfold layouts. rewrite currentWidgets_addWidget, map_app.
  f_equal.
  - unfold addWidget, layoutOf. simpl. now apply map_store_fresh.
  - unfold addWidget, layoutOf. simpl. now rewrite store_eq.
Qed.

Lemma firstFrom_span {A} (body : Z -> option A) start count :
  firstFrom body start count = firstSome body (span start count).
Proof.
  revert start. induction count as [|n IH]; intros start; simpl; [reflexivity|].
  destruct (body start); [reflexivity|apply IH].
Qed.

Lemma firstSome_ext {A B} (f g : A -> option B) l :
  (forall a, f a = g a) -> firstSome f l = firstSome g l.
Proof.
  intros H. induction l as [|a rest IH]; simpl; [reflexivity|].
  rewrite H, IH. reflexivity.
Qed.

Lemma firstSome_app {A B} (f : A -> option B) l1 l2 :
  firstSome f (l1 ++ l2) =
  match firstSome f l1 with Some b => Some b | None => firstSome f l2 end.
Proof.
  induction l1 as [|a rest IH]; simpl; [reflexivity|].
  destruct (f a); [reflexivity|exact IH].
Qed.

Lemma firstSome_flat_map {A B C} (f : B -> option C) (g : A -> list B) l :
  firstSome (fun a => firstSome f (g a)) l = firstSome f (flat_map g l).
Proof.
  induction l as [|a rest IH]; simpl; [reflexivity|].
  rewrite firstSome_app, IH. reflexivity.
Qed.

Lemma firstSome_filter {A B} (p : A -> bool) (f : A -> option B) l :
  firstSome (fun a => if p a then f a else None) l = firstSome f (List.filter p l).
Proof.
  induction l as [|a rest IH]; simpl; [reflexivity|].
  destruct (p a); simpl; [destruct (f a); [reflexivity|exact IH]|exact IH].
Qed.

Lemma firstSome_map {A B C} (g : A -> B) (f : B -> option C) l :
  firstSome (fun a => f (g a)) l = firstSome f (map g l).
Proof.
  induction l as [|a rest IH]; simpl; [reflexivity|].
  destruct (f (g a)); [reflexivity|exact IH].
Qed.

Lemma firstSome_find {A} (p : A -> bool) l :
  firstSome (fun a => if p a then Some a else None) l = List.find p l.
Proof.
  induction l as [|a rest IH]; simpl; [reflexivity|].
  destruct (p a); [reflexivity|exact IH].
Qed.

Lemma resolveOverlaps_find (s : State) (instanceId : string) (l : WidgetLayout) :
  resolveOverlaps s instanceId l
  = List.find (acceptable s instanceId) (ringCandidates l).
Proof.
  unfold resolveOverlaps, ringCandidates.
  rewrite <- firstSome_find, <- firstSome_map, <- firstSome_flat_map.
  rewrite firstFrom_span. apply firstSome_ext. intros radius.
  unfold ringOffsets.
  rewrite <- (firstSome_filter
                (fun d => (Z.abs (fst d) =? radius) || (Z.abs (snd d) =? radius))).
  rewrite <- firstSome_flat_map.
  rewrite firstFrom_span. apply firstSome_ext. intros dx.
  rewrite <- firstSome_map.
  rewrite firstFrom_span. apply firstSome_ext. intros dy. reflexivity.
Qed.

(** ** validateLayout, as arithmetic *)

Lemma declared_min (bound : option Z) (v : Z) :
  declared bound && (v <? orZero bound) = false <->
  forall m, bound = Some m -> m <> 0 -> m <= v.
Proof.
  destruct bound as [m|]; simpl.
  - destruct (Z.eqb_spec m 0) as [->|Hm]; simpl.
    + split; [|reflexivity]. intros _ m [= <-] H. contradiction.
    + rewrite Z.ltb_ge. split.
      * intros H m' [= <-] _. exact H.
      * intros H. now apply H.
  - split; [|reflexivity]. intros _ m H. discriminate.
Qed.

Lemma declared_max (bound : option Z) (v : Z) :
  declared bound && (v >? orZero bound) = false <->
  forall m, bound = Some m -> m <> 0 -> v <= m.
Proof.
  rewrite Z.gtb_ltb. destruct bound as [m|]; simpl.
  - destruct (Z.eqb_spec m 0) as [->|Hm]; simpl.
    + split; [|reflexivity]. intros _ m [= <-] H. contradiction.
    + rewrite Z.ltb_ge. split.
      * intros H m' [= <-] _. exact H.
      * intros H. now apply H.
  - split; [|reflexivity]. intros _ m H. discriminate.
Qed.

Lemma validateLayout_true (s : State) (l : WidgetLayout) :
  validateLayout s l = true <->
  0 <= orZero (x l) /\ 0 <= orZero (y l) /\
  orZero (x l) + cols l <= currentCols s /\
  (forall m, minCols l = Some m -> m <> 0 -> m <= cols l) /\
  (forall m, maxCols l = Some m -> m <> 0 -> cols l <= m) /\
  (forall m, minRows l = Some m -> m <> 0 -> m <= rows l) /\
  (forall m, maxRows l = Some m -> m <> 0 -> rows l <= m).
Proof.
  rewrite <- declared_min, <- declared_max, <- declared_min, <- declared_max.
  unfold validateLayout.
  destruct (orZero (x l) <? 0) eqn:E1; simpl.
  { apply Z.ltb_lt in E1. split; [discriminate|lia]. }
  destruct (orZero (y l) <? 0) eqn:E2; simpl.
  { apply Z.ltb_lt in E2. split; [discriminate|lia]. }
  destruct (orZero (x l) + cols l >? currentCols s) eqn:E3.
  { rewrite Z.gtb_ltb in E3. apply Z.ltb_lt in E3. split; [discriminate|lia]. }
  apply Z.ltb_ge in E1, E2. rewrite Z.gtb_ltb in E3. apply Z.ltb_ge in E3.
  destruct (declared (minCols l) && _); [split; [discriminate|intuition discriminate]|].
  destruct (declared (maxCols l) && _); [split; [discriminate|intuition discriminate]|].
  destruct (declared (minRows l) && _); [split; [discriminate|intuition discriminate]|].
  destruct (declared (maxRows l) && _); [split; [discriminate|intuition discriminate]|].
  tauto.
Qed.

(** ** updateWidgetLayout *)

Lemma layoutOf_applyLayout widget instanceId p previous l s :
  layoutOf (applyLayout widget instanceId p previous l s) widget = l.
Proof. unfold applyLayout, layoutOf. simpl. apply store_eq. Qed.

Lemma updateWidgetLayout_unknown instanceId p s :
  findWidget s instanceId = None ->
  updateWidgetLayout instanceId p s = (false, s).
Proof. intros H. unfold updateWidgetLayout. now rewrite H. Qed.

Lemma updatedTo_applyLayout widget instanceId p previous l s :
  updatedTo s (applyLayout widget instanceId p previous l s) widget l.
Proof.
  split; [apply layoutOf_applyLayout|]. split; [reflexivity|].
  intros r Hr. unfold applyLayout. simpl. now apply store_ne.
Qed.

(** C2.  [updateWidgetLayout(id, partialLayout)] on a listed widget is
    all-or-nothing.  If the merged layout fails [validateLayout], or if it
    collides with another widget and none of the ring candidates (radius 1
    to 10 around the target position, perimeter offsets only, coordinates
    clamped to be non-negative) is both valid and non-colliding, the call
    returns false and the state, hence the widget's stored layout and the
    dashboard configuration, is the one before the call.  Otherwise it
    returns true and the widget's layout is the requested one when that
    does not collide, the first acceptable ring candidate when it does;
    nothing else of the dashboard configuration changes. *)
Theorem updateWidgetLayout_all_or_nothing :
  forall (s : State) (instanceId : string) (p : PartialLayout)
         (widget : WidgetInstance),
    findWidget s instanceId = Some widget ->
    let requested := mergeLayout (layoutOf s widget) p in
    let candidate := List.find (acceptable s instanceId) (ringCandidates requested) in
    (validateLayout s requested = false ->
       updateWidgetLayout instanceId p s = (false, s)) /\
    (validateLayout s requested = true ->
     hasOverlap s instanceId requested = true -> candidate = None ->
       updateWidgetLayout instanceId p s = (false, s)) /\
    (validateLayout s requested = true ->
     hasOverlap s instanceId requested = false ->
       exists s', updateWidgetLayout instanceId p s = (true, s') /\
                  updatedTo s s' widget requested) /\
    (forall t, validateLayout s requested = true ->
     hasOverlap s instanceId requested = true -> candidate = Some t ->
       exists s', updateWidgetLayout instanceId p s = (true, s') /\
                  updatedTo s s' widget t).
Proof.
  intros s instanceId p widget Hfind requested candidate.
  unfold updateWidgetLayout. rewrite Hfind. fold requested.
  rewrite resolveOverlaps_find. fold candidate.
  repeat split.
  - intros ->. reflexivity.
  - intros -> -> ->. reflexivity.
  - intros -> ->. simpl. eexists. split; [reflexivity|].
    apply updatedTo_applyLayout.
  - intros t -> -> ->. simpl. eexists. split; [reflexivity|].
    apply updatedTo_applyLayout.
Qed.

(** The layout an update applies collides with no other widget. *)
Lemma updateWidgetLayout_applied instanceId p s s' :
  updateWidgetLayout instanceId p s = (true, s') ->
  exists widget l,
    findWidget s instanceId = Some widget /\
    updatedTo s s' widget l /\
    hasOverlap s instanceId l = false /\ validateLayout s l = true /\
    (is_Some (x (layoutOf s widget)) -> is_Some (x l)) /\
    (is_Some (y (layoutOf s widget)) -> is_Some (y l)).
Proof.
  unfold updateWidgetLayout.
  destruct (findWidget s instanceId) as [widget|] eqn:Hfind; [|discriminate].
  set (requested := mergeLayout (layoutOf s widget) p).
  destruct (validateLayout s requested) eqn:Hv; [|discriminate]. simpl.
  destruct (hasOverlap s instanceId requested) eqn:Ho.
  - rewrite resolveOverlaps_find.
    destruct (List.find _ _) as [t|] eqn:Hf; [|discriminate].
    intros [= <-]. exists widget, t. split; [reflexivity|].
    split; [apply updatedTo_applyLayout|].
    pose proof (find_some _ _ Hf) as [Hin Hacc].
    unfold acceptable in Hacc. apply andb_true_iff in Hacc as [Hvt Hot].
    apply negb_true_iff in Hot. split; [exact Hot|]. split; [exact Hvt|].
    unfold ringCandidates in Hin. apply in_map_iff in Hin as (d & <- & _).
    simpl. split; intros _; eexists; reflexivity.
  - intros [= <-]. exists widget, requested. split; [reflexivity|].
    split; [apply updatedTo_applyLayout|]. split; [exact Ho|]. split; [exact Hv|].
    unfold requested, mergeLayout, orElse. simpl.
    split; intros [v ->].
    + destruct (newX p); eexists; reflexivity.
    + destruct (newY p); eexists; reflexivity.
Qed.

Lemma find_first_index {A} (f : A -> bool) (l : list A) (a : A) :
  List.find f l = Some a ->
  exists k, l !! k = Some a /\ f a = true.
Proof.
  intros H. apply find_some in H as [Hin Hf].
  apply list_elem_of_In, list_elem_of_lookup in Hin as [k Hk]. eauto.
Qed.

Lemma NoDup_fmap_lookup {A B} (f : A -> B) (l : list A) i j a b :
  NoDup (map f l) -> l !! i = Some a -> l !! j = Some b -> f a = f b -> i = j.
Proof.
  intros Hnd Hi Hj Hf.
  eapply NoDup_lookup; [exact Hnd| |].
  - change (map f l) with (f <$> l). rewrite list_lookup_fmap, Hi. reflexivity.
  - change (map f l) with (f <$> l). rewrite list_lookup_fmap, Hj. simpl.
    now rewrite Hf.
Qed.

(** A successful update keeps a collision-free list collision-free, when
    the listed widgets have pairwise distinct ids and configuration
    objects. *)
Lemma updateWidgetLayout_collisionFree instanceId p s s' :
  NoDup (map id (currentWidgets s)) ->
  NoDup (map config (currentWidgets s)) ->
  collisionFree s ->
  updateWidgetLayout instanceId p s = (true, s') ->
  collisionFree s'.
Proof.
  intros Hids Hcfg Hfree Hupd.
  apply updateWidgetLayout_applied in Hupd
    as (widget & l & Hfind & (Hl & Hdc & Hframe) & Hover & _).
  pose proof (findWidget_Some _ _ _ Hfind) as [Hid [k Hk]].
  assert (Hws : currentWidgets s' = currentWidgets s).
  { unfold currentWidgets. now rewrite Hdc. }
  assert (Hlay : layouts s' = <[k:=l]> (layouts s)).
  { unfold layouts. rewrite Hws. unfold layoutOf at 2.
    rewrite <- (map_store_at (heap s) l _ k widget Hcfg Hk).
    apply map_ext_in. intros w Hw. unfold layoutOf.
    destruct (decide (config w = config widget)) as [Heq|Hne].
    - rewrite Heq, store_eq. exact Hl.
    - rewrite store_ne by exact Hne. now apply Hframe. }
  unfold collisionFree. rewrite Hlay.
  apply disjointLayouts_insert; [exact Hfree|].
  intros j m Hjk Hj. unfold layouts in Hj.
  change (map (layoutOf s) (currentWidgets s)) with (layoutOf s <$> currentWidgets s) in Hj.
  rewrite list_lookup_fmap in Hj.
  destruct (currentWidgets s !! j) as [w|] eqn:Hw; [|discriminate].
  injection Hj as <-.
  rewrite hasOverlap_false in Hover. apply Hover.
  - eapply list_elem_of_In, list_elem_of_lookup_2, Hw.
  - intros Heq. apply Hjk.
    apply (NoDup_fmap_lookup id (currentWidgets s) j k w widget Hids Hw Hk).
    congruence.
Qed.

(** ** addWidget keeps a collision-free list collision-free *)

Lemma addWidget_collisionFree inst position s :
  ~ In (config inst) (map config (currentWidgets s)) ->
  ~ In ""%string (map id (currentWidgets s)) ->
  collisionFree s ->
  match position with
  | Some p => hasOverlap s "" (withPosition (layoutOf s inst) (fst p) (snd p)) = false
  | None => True
  end ->
  collisionFree (addWidget inst position s).
Proof.
  intros Hfresh Hnamed Hfree Hpos. unfold collisionFree.
  rewrite layouts_addWidget by exact Hfresh.
  apply disjointLayouts_snoc; [exact Hfree|].
  apply List.Forall_forall. intros m Hm. unfold layouts in Hm.
  apply in_map_iff in Hm as (w & <- & Hw).
  assert (Hid : id w <> ""%string).
  { intros Heq. apply Hnamed. rewrite <- Heq. apply in_map_iff. eauto. }
  unfold addedLayout. destruct position as [p|].
  - rewrite hasOverlap_false in Hpos. now apply Hpos.
  - now apply findOptimalPosition_free.
Qed.

(** ** Sorting *)

Lemma insertBy_Permutation {A} (cmp : A -> A -> Z) (a : A) (l : list A) :
  Permutation (insertBy cmp a l) (a :: l).
Proof.
  induction l as [|b rest IH]; simpl; [reflexivity|].
  destruct (cmp a b <=? 0); [reflexivity|].
  rewrite IH. apply perm_swap.
Qed.

Lemma sortBy_Permutation {A} (cmp : A -> A -> Z) (l : list A) :
  Permutation (sortBy cmp l) l.
Proof.
  induction l as [|a rest IH]; simpl; [reflexivity|].
  rewrite insertBy_Permutation. now constructor.
Qed.

Lemma sortedWidgets_Permutation (s : State) :
  Permutation (sortedWidgets s) (currentWidgets s).
Proof. apply sortBy_Permutation. Qed.

(** ** New objects *)

Lemma allocate_below h r ws ls r0 :
  (r0 < r)%nat -> snd (allocate h r ws ls) r0 = h r0.
Proof.
  revert h r ls. induction ws as [|w ws IH]; intros h r ls Hr; [reflexivity|].
  destruct ls as [|l ls]; [reflexivity|]. simpl.
  destruct (allocate (store h r l) (S r) ws ls) as [out h'] eqn:Ha. simpl.
  change h' with (snd (out, h')). rewrite <- Ha.
  rewrite IH by lia. apply store_ne. lia.
Qed.

Lemma allocate_spec h r ws ls :
  length ls = length ws ->
  map id (fst (allocate h r ws ls)) = map id ws /\
  map config (fst (allocate h r ws ls)) = seq r (length ws) /\
  map (fun w => snd (allocate h r ws ls) (config w)) (fst (allocate h r ws ls)) = ls.
Proof.
  revert h r ls. induction ws as [|w ws IH]; intros h r ls Hlen.
  - destruct ls; [|discriminate]. simpl. auto.
  - destruct ls as [|l ls]; [discriminate|]. simpl in Hlen.
    injection Hlen as Hlen. simpl.
    destruct (IH (store h r l) (S r) ls Hlen) as (Hid & Hcfg & Hlay).
    pose proof (allocate_below (store h r l) (S r) ws ls r ltac:(lia)) as Hr.
    destruct (allocate (store h r l) (S r) ws ls) as [out h'] eqn:Ha.
    simpl in *. rewrite Hid, Hcfg, Hlay, Hr, store_eq. auto.
Qed.

Lemma compactFrom_length cols_ occ ls :
  length (compactFrom cols_ occ ls) = length ls.
Proof.
  revert occ. induction ls as [|l rest IH]; intros occ; simpl; [reflexivity|].
  now rewrite IH.
Qed.

(** The widget list after [compactLayout]: the sorted widgets' ids, new
    configuration objects, and the layouts [compactFrom] computes. *)
Lemma compactLayout_spec (s : State) :
  map id (currentWidgets (compactLayout s)) = map id (sortedWidgets s) /\
  map config (currentWidgets (compactLayout s))
    = seq (fresh s) (length (sortedWidgets s)) /\
  layouts (compactLayout s)
    = compactFrom (currentCols s) ∅ (map (layoutOf s) (sortedWidgets s)) /\
  currentCols (compactLayout s) = currentCols s.
Proof.
  unfold compactLayout, compactWidgets, layouts, layoutOf.
  set (ls := compactFrom (currentCols s) ∅ (map (fun w => heap s (config w)) (sortedWidgets s))).
  assert (Hlen : length ls = length (sortedWidgets s)).
  { unfold ls. now rewrite compactFrom_length, length_map. }
  destruct (allocate_spec (heap s) (fresh s) (sortedWidgets s) ls Hlen)
    as (Hid & Hcfg & Hlay).
  destruct (allocate (heap s) (fresh s) (sortedWidgets s) ls) as [out h'].
  simpl in *. auto.
Qed.

(** ** Placement by [findCompactPosition] *)

Lemma searchCompactPosition_Some l cols_ occ p :
  searchCompactPosition l cols_ occ = Some p ->
  0 <= fst p <= cols_ - cols l /\ 0 <= snd p < 1000 /\
  canPlace occ l (fst p) (snd p) = true /\
  (forall py, 0 <= py < snd p -> forall px, 0 <= px <= cols_ - cols l ->
              canPlace occ l px py = false) /\
  (forall px, 0 <= px < fst p -> canPlace occ l px (snd p) = false).
Proof.
  unfold searchCompactPosition. intros H.
  apply firstFrom_Some in H as (py & Hpy & Hrow & Hrows).
  apply firstFrom_Some in Hrow as (px & Hpx & Hcell & Hcells).
  destruct (canPlace occ l px py) eqn:Hc; [|discriminate].
  injection Hcell as <-. simpl.
  split; [lia|]. split; [lia|]. split; [exact Hc|]. split.
  - intros qy Hqy qx Hqx. specialize (Hrows qy ltac:(lia)).
    rewrite firstFrom_None in Hrows. specialize (Hrows qx ltac:(lia)).
    now destruct (canPlace occ l qx qy).
  - intros qx Hqx. specialize (Hcells qx ltac:(lia)).
    now destruct (canPlace occ l qx py).
Qed.

(** The search finds [(px, py)] when it is the first place, row by row,
    where the widget can be put. *)
Lemma searchCompactPosition_first l cols_ occ px py :
  0 <= px <= cols_ - cols l -> 0 <= py < 1000 ->
  canPlace occ l px py = true ->
  (forall qy, 0 <= qy < py -> forall qx, 0 <= qx <= cols_ - cols l ->
              canPlace occ l qx qy = false) ->
  (forall qx, 0 <= qx < px -> canPlace occ l qx py = false) ->
  searchCompactPosition l cols_ occ = Some (px, py).
Proof.
  intros Hpx Hpy Hc Hrows Hcells. unfold searchCompactPosition.
  apply (firstFrom_first _ 0 1000 py); [lia| |].
  - apply (firstFrom_first _ 0 _ px); [lia| |].
    + now rewrite Hc.
    + intros j Hj. now rewrite Hcells by lia.
  - intros j Hj. apply firstFrom_None. intros i Hi.
    now rewrite Hrows by lia.
Qed.

Lemma canPlace_degenerate occ l px py :
  cols l <= 0 \/ rows l <= 0 -> canPlace occ l px py = true.
Proof.
  intros Hd. apply canPlace_true. intros cx cy [Hx Hy]. simpl in *. lia.
Qed.

Lemma searchCompactPosition_degenerate l cols_ occ :
  cols l <= 0 \/ rows l <= 0 -> cols l <= cols_ ->
  searchCompactPosition l cols_ occ = Some (0, 0).
Proof.
  intros Hd Hfit. apply searchCompactPosition_first; try lia.
  now apply canPlace_degenerate.
Qed.

Lemma searchCompactPosition_succeeds l cols_ occ bottom :
  cols l <= cols_ -> below occ bottom -> 0 <= bottom <= 999 ->
  exists p, searchCompactPosition l cols_ occ = Some p /\ snd p <= bottom.
Proof.
  intros Hfit Hbelow Hbottom.
  assert (Hfree : canPlace occ l 0 bottom = true).
  { apply canPlace_true. intros cx cy [_ Hy] Hin. simpl in Hy.
    apply Hbelow in Hin. lia. }
  destruct (searchCompactPosition l cols_ occ) as [p|] eqn:Hs.
  - exists p. split; [reflexivity|].
    apply searchCompactPosition_Some in Hs as (_ & _ & _ & Hrows & _).
    destruct (Z_le_gt_dec (snd p) bottom) as [|Hgt]; [assumption|].
    rewrite (Hrows bottom ltac:(lia) 0 ltac:(lia)) in Hfree. discriminate.
  - exfalso. unfold searchCompactPosition in Hs.
    rewrite firstFrom_None in Hs. specialize (Hs bottom ltac:(lia)).
    rewrite firstFrom_None in Hs. specialize (Hs 0 ltac:(lia)).
    rewrite Hfree in Hs. discriminate.
Qed.

Lemma totalRows_nonneg ls : 0 <= totalRows ls.
Proof. induction ls; simpl; lia. Qed.

(** Widgets no wider than the grid whose heights add up to at most 1000
    rows are all placed. *)
Lemma allPlaced_fits cols_ occ ls bottom :
  Forall (fun l => cols l <= cols_) ls ->
  below occ bottom -> 0 <= bottom -> bottom + totalRows ls <= 1000 ->
  allPlaced cols_ occ ls.
Proof.
  revert occ bottom. induction ls as [|l rest IH]; intros occ bottom Hfit Hb H0 Hsum;
    [exact I|].
  apply Forall_cons in Hfit as [Hl Hfit]. simpl in Hsum.
  pose proof (totalRows_nonneg rest) as Hrest.
  destruct (Z_le_gt_dec (rows l) 0) as [Hdeg|Hrows].
  - pose proof (searchCompactPosition_degenerate l cols_ occ (or_intror Hdeg) Hl) as Hs.
    simpl. unfold findCompactPosition. rewrite Hs. split; [eexists; reflexivity|].
    apply (IH _ bottom Hfit); [|exact H0|lia].
    intros cx cy Hin. apply markOccupied_elem in Hin as [Hin|[_ Hy]].
    + now apply Hb in Hin.
    + simpl in Hy. lia.
  - destruct (searchCompactPosition_succeeds l cols_ occ bottom Hl Hb ltac:(lia))
      as (p & Hs & Hp).
    simpl. unfold findCompactPosition. rewrite Hs. split; [eexists; reflexivity|].
    apply (IH _ (bottom + rows l) Hfit); [|lia|lia].
    intros cx cy Hin. apply markOccupied_elem in Hin as [Hin|[_ Hy]].
    + apply Hb in Hin. lia.
    + simpl in Hy. lia.
Qed.

Lemma placedOn_collides (occ : Cells) (a b : WidgetLayout) :
  0 <= orZero (x a) -> 0 <= orZero (y a) ->
  (cols a <= 0 \/ rows a <= 0 -> orZero (x a) = 0 /\ orZero (y a) = 0) ->
  (forall cx cy, covers a cx cy -> (cx, cy) ∈ occ) ->
  placedOn occ b ->
  collides a b = false.
Proof.
  intros Hax Hay Hadeg Hacells (Hbfree & Hbx & Hby & Hbdeg).
  destruct (collides a b) eqn:Hc; [|reflexivity]. exfalso.
  apply collides_true in Hc as (H1 & H2 & H3 & H4).
  destruct (Z_le_gt_dec (cols a) 0) as [Ha1|Ha1]; [destruct Hadeg; [auto|lia]|].
  destruct (Z_le_gt_dec (rows a) 0) as [Ha2|Ha2]; [destruct Hadeg; [auto|lia]|].
  destruct (Z_le_gt_dec (cols b) 0) as [Hb1|Hb1]; [destruct Hbdeg; [auto|lia]|].
  destruct (Z_le_gt_dec (rows b) 0) as [Hb2|Hb2]; [destruct Hbdeg; [auto|lia]|].
  apply (Hbfree (Z.max (orZero (x a)) (orZero (x b)))
                (Z.max (orZero (y a)) (orZero (y b)))).
  - unfold covers. lia.
  - apply Hacells. unfold covers. lia.
Qed.

Lemma placedOn_subseteq (occ occ' : Cells) (r : WidgetLayout) :
  (forall c, c ∈ occ -> c ∈ occ') -> placedOn occ' r -> placedOn occ r.
Proof.
  intros Hsub (Hfree & Hrest). split; [|exact Hrest].
  intros cx cy Hc Hin. apply (Hfree cx cy Hc). now apply Hsub.
Qed.

(** When every widget is placed, the compacted layouts are pairwise
    collision-free. *)
Lemma compactFrom_disjoint cols_ occ ls :
  allPlaced cols_ occ ls ->
  disjointLayouts (compactFrom cols_ occ ls) /\
  Forall (placedOn occ) (compactFrom cols_ occ ls).
Proof.
  revert occ. induction ls as [|l rest IH]; intros occ Hall; simpl.
  - split; [exact I|constructor].
  - destruct Hall as [[p Hs] Hall].
    unfold findCompactPosition in *. rewrite Hs in *.
    destruct (IH _ Hall) as [Hdis Hplaced].
    pose proof (searchCompactPosition_Some _ _ _ _ Hs) as (Hpx & Hpy & Hc & Hrows & Hcells).
    set (placed := withPosition l (fst p) (snd p)) in *.
    assert (Hdeg : cols placed <= 0 \/ rows placed <= 0 ->
                   orZero (x placed) = 0 /\ orZero (y placed) = 0).
    { intros Hd. simpl in Hd.
      assert (Hfit : cols l <= cols_) by lia.
      rewrite (searchCompactPosition_degenerate l cols_ occ Hd Hfit) in Hs.
      injection Hs as <-. auto. }
    split; [split|].
    + apply List.Forall_forall. intros r Hr.
      rewrite List.Forall_forall in Hplaced.
      eapply placedOn_collides; [| | |  |apply Hplaced, Hr]; simpl; try lia.
      * exact Hdeg.
      * intros cx cy Hcov. apply markOccupied_elem. now right.
    + exact Hdis.
    + constructor.
      * split; [now apply canPlace_true|]. simpl. split; [lia|]. split; [lia|].
        exact Hdeg.
      * eapply Forall_impl; [exact Hplaced|]. intros r Hr.
        eapply placedOn_subseteq; [|exact Hr].
        intros [cx cy] Hin. apply markOccupied_elem. now left.
Qed.

Lemma Invariant_initialOn h next : Invariant (initialOn h next).
Proof.
  split; simpl; [exact I|constructor|constructor|tauto].
Qed.

Lemma NoDup_snoc_In {A} (l : list A) (a : A) :
  NoDup l -> ~ In a l -> NoDup (l ++ [a]).
Proof.
  intros Hl Ha. apply NoDup_app. split; [exact Hl|]. split.
  - intros b Hb Hba. apply list_elem_of_singleton in Hba. subst b.
    apply Ha. now apply list_elem_of_In.
  - apply NoDup_singleton.
Qed.

Lemma Invariant_addWidget inst position s :
  Invariant s ->
  id inst <> ""%string ->
  ~ In (id inst) (map id (currentWidgets s)) ->
  ~ In (config inst) (map config (currentWidgets s)) ->
  match position with
  | Some p => hasOverlap s "" (withPosition (layoutOf s inst) (fst p) (snd p)) = false
  | None => True
  end ->
  Invariant (addWidget inst position s).
Proof.
  intros [Hfree Hids Hcfg Hnamed] Hid Hnew Hfresh Hpos. split.
  - now apply addWidget_collisionFree.
  - rewrite currentWidgets_addWidget, map_app. now apply NoDup_snoc_In.
  - rewrite currentWidgets_addWidget, map_app. now apply NoDup_snoc_In.
  - rewrite currentWidgets_addWidget, map_app. intros Hin.
    apply in_app_or in Hin as [Hin|[Hin|[]]]; [now apply Hnamed|].
    now apply Hid.
Qed.

Lemma Invariant_updateWidgetLayout instanceId p s :
  Invariant s -> Invariant (snd (updateWidgetLayout instanceId p s)).
Proof.
  intros Hinv. destruct (updateWidgetLayout instanceId p s) as [[] s'] eqn:Hupd.
  - pose proof Hinv as [Hfree Hids Hcfg Hnamed]. simpl.
    pose proof (updateWidgetLayout_collisionFree _ _ _ _ Hids Hcfg Hfree Hupd) as Hfree'.
    apply updateWidgetLayout_applied in Hupd as (w & l & _ & (_ & Hdc & _) & _).
    assert (Hws : currentWidgets s' = currentWidgets s).
    { unfold currentWidgets. now rewrite Hdc. }
    split; [exact Hfree'|now rewrite Hws..].
  - simpl. unfold updateWidgetLayout in Hupd.
    destruct (findWidget s instanceId); [|now injection Hupd as <-].
    destruct (negb _); [now injection Hupd as <-|].
    destruct (hasOverlap _ _ _); [|discriminate].
    destruct (resolveOverlaps _ _ _); [discriminate|now injection Hupd as <-].
Qed.

Lemma totalRows_Permutation (l l' : list WidgetLayout) :
  Permutation l l' -> totalRows l = totalRows l'.
Proof. induction 1; simpl; lia. Qed.

Lemma fitsGrid_allPlaced (s : State) :
  fitsGrid s ->
  allPlaced (currentCols s) ∅ (map (layoutOf s) (sortedWidgets s)).
Proof.
  intros [Hcols Hrows].
  assert (Hperm : Permutation (map (layoutOf s) (sortedWidgets s)) (layouts s)).
  { apply Permutation_map, sortedWidgets_Permutation. }
  apply (allPlaced_fits _ _ _ 0).
  - rewrite Hperm. exact Hcols.
  - intros cx cy Hin. now apply not_elem_of_empty in Hin.
  - lia.
  - rewrite (totalRows_Permutation _ _ Hperm). lia.
Qed.

Lemma compactLayout_collisionFree (s : State) :
  fitsGrid s -> collisionFree (compactLayout s).
Proof.
  intros Hfit. unfold collisionFree.
  destruct (compactLayout_spec s) as (_ & _ & -> & _).
  now apply compactFrom_disjoint, fitsGrid_allPlaced.
Qed.

Lemma Invariant_compactLayout (s : State) :
  Invariant s -> fitsGrid s -> Invariant (compactLayout s).
Proof.
  intros [Hfree Hids Hcfg Hnamed] Hfit.
  destruct (compactLayout_spec s) as (Hid & Hcf & _ & _).
  pose proof (Permutation_map id (sortedWidgets_Permutation s)) as Hperm.
  split.
  - now apply compactLayout_collisionFree.
  - rewrite Hid, Hperm. exact Hids.
  - rewrite Hcf. apply NoDup_seq.
  - rewrite Hid. intros Hin. apply Hnamed.
    eapply Permutation_in; [exact Hperm|exact Hin].
Qed.

Lemma represents_empty : represents ∅ [].
Proof.
  intros cx cy. split.
  - intros H. now apply not_elem_of_empty in H.
  - intros (m & [] & _).
Qed.

Lemma represents_mark occ placed l :
  represents occ placed ->
  represents (markOccupied (orZero (x l), orZero (y l)) l occ) (placed ++ [l]).
Proof.
  intros Hrep cx cy. rewrite markOccupied_elem. simpl. split.
  - intros [Hin|Hc].
    + apply Hrep in Hin as (m & Hm & Hc).
      exists m. split; [apply in_or_app; now left|exact Hc].
    + exists l. split; [apply in_or_app; right; now left|exact Hc].
  - intros (m & Hm & Hc). apply in_app_or in Hm as [Hm|[<-|[]]].
    + left. apply Hrep. eauto.
    + right. exact Hc.
Qed.

Lemma canPlace_available cols_ occ placed l px py :
  represents occ placed -> 0 <= py -> 0 <= px <= cols_ - cols l ->
  canPlace occ l px py = true <-> available cols_ placed l px py.
Proof.
  intros Hrep Hpy Hpx. rewrite canPlace_true. unfold available. split.
  - intros H. split; [exact Hpy|]. split; [exact Hpx|].
    intros cx cy Hc m Hm Hcm. apply (H cx cy Hc). apply Hrep. eauto.
  - intros (_ & _ & H) cx cy Hc Hin. apply Hrep in Hin as (m & Hm & Hcm).
    exact (H cx cy Hc m Hm Hcm).
Qed.

Lemma search_firstAvailable cols_ occ placed l :
  represents occ placed -> firstAvailable cols_ placed l ->
  orZero (y l) < 1000 ->
  searchCompactPosition l cols_ occ = Some (orZero (x l), orZero (y l)).
Proof.
  intros Hrep [Hav Hmin] Hy. pose proof Hav as (Hpy & Hpx & _).
  apply searchCompactPosition_first; [exact Hpx|lia| | |].
  - now apply (canPlace_available cols_ occ placed).
  - intros qy Hqy qx Hqx.
    destruct (canPlace occ l qx qy) eqn:Hc; [|reflexivity]. exfalso.
    apply (canPlace_available cols_ occ placed) in Hc; [|exact Hrep|lia|lia].
    apply Hmin in Hc. unfold rowMajorLe in Hc. lia.
  - intros qx Hqx.
    destruct (canPlace occ l qx (orZero (y l))) eqn:Hc; [|reflexivity]. exfalso.
    apply (canPlace_available cols_ occ placed) in Hc; [|exact Hrep|lia|lia].
    apply Hmin in Hc. unfold rowMajorLe in Hc. lia.
Qed.

Lemma withPosition_positioned l :
  is_Some (x l) -> is_Some (y l) ->
  withPosition l (orZero (x l)) (orZero (y l)) = l.
Proof. destruct l as [c r [?|] [?|] ? ? ? ?]; intros [? Hx] [? Hy]; now simpl in *. Qed.

(** Compaction leaves an already compact list as it is. *)
Lemma compactFrom_packed cols_ occ placed ls :
  represents occ placed -> packedAfter cols_ placed ls ->
  Forall positioned ls ->
  compactFrom cols_ occ ls = ls.
Proof.
  revert occ placed. induction ls as [|l rest IH]; intros occ placed Hrep Hpacked Hpos;
    [reflexivity|].
  destruct Hpacked as [Hfirst Hpacked].
  apply Forall_cons in Hpos as [(Hx & Hy & Hrow) Hpos].
  simpl. unfold findCompactPosition.
  rewrite (search_firstAvailable cols_ occ placed l Hrep Hfirst Hrow). simpl.
  rewrite withPosition_positioned by assumption. f_equal.
  apply (IH _ (placed ++ [l])); [|exact Hpacked|exact Hpos].
  now apply represents_mark.
Qed.

(** C8 (as the code has it).  When every widget has a position above row
    1000 and the list is already compact (each widget, in (y, x) order, at
    the first row-major position available after the widgets before it),
    [compactLayout] keeps every widget, by id, at its position: the new
    list is the sorted list with the very same layouts. *)
Theorem compactLayout_stable :
  forall s : State,
    Forall positioned (layouts s) ->
    alreadyCompact s ->
    Permutation (sortedWidgets s) (currentWidgets s) /\
    map id (currentWidgets (compactLayout s)) = map id (sortedWidgets s) /\
    layouts (compactLayout s) = map (layoutOf s) (sortedWidgets s).
Proof.
  intros s Hpos Hcompact.
  destruct (compactLayout_spec s) as (Hid & _ & Hlay & _).
  split; [apply sortedWidgets_Permutation|]. split; [exact Hid|].
  rewrite Hlay. apply (compactFrom_packed _ _ []).
  - apply represents_empty.
  - exact Hcompact.
  - assert (Hperm : Permutation (map (layoutOf s) (sortedWidgets s)) (layouts s)).
    { apply Permutation_map, sortedWidgets_Permutation. }
    rewrite Hperm. exact Hpos.
Qed.

(** A widget of 2x2 added to the empty 12-column grid lands at (0, 0). *)
Lemma addWidget_first_at_origin :
  layouts (addWidget todoWidget None emptyDashboard) = [at_ 2 2 0 0].
Proof. reflexivity. Qed.

Lemma twoWidgets_layouts : layouts twoWidgets = [at_ 2 2 0 0; at_ 2 2 2 0].
Proof. reflexivity. Qed.

(** C1, counterexample.  [addWidget] with the explicit position (0, 0),
    where the todo widget already is: both are listed at (0, 0). *)
Lemma addWidget_explicit_position_collides :
  let s := addWidget graphWidget (Some (0, 0))
             (addWidget todoWidget None emptyDashboard) in
  currentWidgets s = [todoWidget; graphWidget] /\
  layouts s = [at_ 2 2 0 0; at_ 2 2 0 0] /\
  collides (layoutOf s todoWidget) (layoutOf s graphWidget) = true.
Proof. repeat split. Qed.

(** The instance object is shared with the list: adding the same instance
    a second time moves the entry already listed. *)
Lemma addWidget_same_instance_twice :
  let s := addWidget todoWidget None (addWidget todoWidget None emptyDashboard) in
  layouts s = [at_ 2 2 2 0; at_ 2 2 2 0].
Proof. reflexivity. Qed.

(** The placement search skips a listed widget whose id is the empty
    string, the id it excludes. *)
Lemma addWidget_after_unnamed_collides :
  let unnamed := {| id := ""; config := 0%nat |} in
  layouts (addWidget graphWidget None (addWidget unnamed None emptyDashboard))
  = [at_ 2 2 0 0; at_ 2 2 0 0].
Proof. reflexivity. Qed.

(** Two listed widgets under one id: the update excludes both from its
    collision check. *)
Lemma updateWidgetLayout_duplicate_id_collides :
  let twin := {| id := id todoWidget; config := 1%nat |} in
  let s := addWidget twin None (addWidget todoWidget None emptyDashboard) in
  layouts s = [at_ 2 2 0 0; at_ 2 2 2 0] /\
  fst (updateWidgetLayout (id todoWidget) (moveTo 2 0) s) = true /\
  layouts (snd (updateWidgetLayout (id todoWidget) (moveTo 2 0) s))
  = [at_ 2 2 2 0; at_ 2 2 2 0].
Proof. repeat split. Qed.

(** Widgets wider than the grid have no place in any row: the compaction
    puts each of them at (0, 0). *)
Lemma compactLayout_too_wide_collides :
  let s := addWidget graphWidget None
             (addWidget todoWidget None (initialOn (fun _ => sized 13 1) 2%nat)) in
  layouts s = [at_ 13 1 0 0; at_ 13 1 0 1] /\
  layouts (compactLayout s) = [at_ 13 1 0 0; at_ 13 1 0 0].
Proof. split; vm_compute; reflexivity. Qed.

(** C2, witness: the three outcomes of an update of the graph widget. *)
Lemma updateWidgetLayout_all_or_nothing_witness :
  findWidget twoWidgets (id graphWidget) = Some graphWidget /\
  (* out of the grid: refused, nothing changes *)
  updateWidgetLayout (id graphWidget) (moveTo 11 0) twoWidgets
    = (false, twoWidgets) /\
  (* onto the todo widget: moved to the first free ring candidate *)
  (exists s', updateWidgetLayout (id graphWidget) (moveTo 0 0) twoWidgets
                = (true, s') /\
              layoutOf s' graphWidget = at_ 2 2 0 2 /\
              dashboardConfig s' = dashboardConfig twoWidgets) /\
  (* to a free place: applied as requested *)
  (exists s', updateWidgetLayout (id graphWidget) (moveTo 6 3) twoWidgets
                = (true, s') /\
              layoutOf s' graphWidget = at_ 2 2 6 3).
Proof.
  split; [reflexivity|]. split; [|split].
  - exact (proj1 (updateWidgetLayout_all_or_nothing twoWidgets (id graphWidget)
                    (moveTo 11 0) graphWidget eq_refl) eq_refl).
  - destruct (proj2 (proj2 (proj2
               (updateWidgetLayout_all_or_nothing twoWidgets (id graphWidget)
                  (moveTo 0 0) graphWidget eq_refl)))
               (at_ 2 2 0 2) eq_refl eq_refl eq_refl)
      as (s' & Hrun & Hl & Hdc & _).
    exists s'. auto.
  - destruct (proj1 (proj2 (proj2
               (updateWidgetLayout_all_or_nothing twoWidgets (id graphWidget)
                  (moveTo 6 3) graphWidget eq_refl)))
               eq_refl eq_refl)
      as (s' & Hrun & Hl & _).
    exists s'. auto.
Defined.

Lemma tallDashboard_layouts :
  layouts tallDashboard = [at_ 1 1000 0 0; at_ 1 1 0 1000].
Proof. vm_compute. reflexivity. Qed.

Lemma tallDashboard_sorted :
  map (layoutOf tallDashboard) (sortedWidgets tallDashboard)
  = [at_ 1 1000 0 0; at_ 1 1 0 1000].
Proof. vm_compute. reflexivity. Qed.

Lemma tallDashboard_alreadyCompact : alreadyCompact tallDashboard.
Proof.
  unfold alreadyCompact. rewrite tallDashboard_sorted.
  change (currentCols tallDashboard) with 1.
  split; [|split; [|exact I]].
  - split.
    + split; [simpl; lia|]. split; [simpl; lia|]. intros cx cy _ m [].
    + intros qx qy (Hy & Hx & _). unfold rowMajorLe. simpl in *. lia.
  - split.
    + split; [simpl; lia|]. split; [simpl; lia|].
      intros cx cy [_ Hcy] m [<-|[]] [_ Hm]. simpl in *. lia.
    + intros qx qy (Hy & Hx & Hfree). unfold rowMajorLe. simpl in *.
      destruct (Z_lt_le_dec qy 1000) as [Hlt|Hge]; [|lia]. exfalso.
      refine (Hfree qx qy _ (at_ 1 1000 0 0) (or_introl eq_refl) _);
        unfold covers; simpl; lia.
Qed.

(** C8, counterexample.  The list is already compact, yet [compactLayout]
    moves the second widget from (0, 1000) to (0, 0), onto the first. *)
Lemma compactLayout_moves_compact_widget :
  let compacted := compactLayout tallDashboard in
  alreadyCompact tallDashboard /\
  map (fun w => (id w, layoutOf tallDashboard w)) (currentWidgets tallDashboard)
    = [(id todoWidget, at_ 1 1000 0 0); (id graphWidget, at_ 1 1 0 1000)] /\
  map (fun w => (id w, layoutOf compacted w)) (currentWidgets compacted)
    = [(id todoWidget, at_ 1 1000 0 0); (id graphWidget, at_ 1 1 0 0)].
Proof.
  split; [exact tallDashboard_alreadyCompact|].
  split; vm_compute; reflexivity.
Qed.

Lemma twoWidgets_alreadyCompact : alreadyCompact twoWidgets.
Proof.
  unfold alreadyCompact.
  change (map (layoutOf twoWidgets) (sortedWidgets twoWidgets))
    with [at_ 2 2 0 0; at_ 2 2 2 0].
  change (currentCols twoWidgets) with 12.
  split; [|split; [|exact I]].
  - split.
    + split; [simpl; lia|]. split; [simpl; lia|]. intros cx cy _ m [].
    + intros qx qy (Hy & Hx & _). unfold rowMajorLe. simpl in *. lia.
  - split.
    + split; [simpl; lia|]. split; [simpl; lia|].
      intros cx cy [Hcx _] m [<-|[]] [Hm _]. simpl in *. lia.
    + intros qx qy (Hy & Hx & Hfree). unfold rowMajorLe. simpl in *.
      destruct (Z_lt_le_dec 0 qy) as [Hlt|Hge]; [lia|].
      destruct (Z_lt_le_dec qx 2) as [Hlt|Hge']; [|lia]. exfalso.
      refine (Hfree qx qy _ (at_ 2 2 0 0) (or_introl eq_refl) _);
        unfold covers; simpl; lia.
Qed.

(** C8, witness: two widgets side by side in the first row. *)
Lemma compactLayout_stable_witness :
  Forall positioned (layouts twoWidgets) /\
  alreadyCompact twoWidgets /\
  map id (currentWidgets (compactLayout twoWidgets))
    = [id todoWidget; id graphWidget] /\
  layouts (compactLayout twoWidgets) = [at_ 2 2 0 0; at_ 2 2 2 0].
Proof.
  assert (Hpos : Forall positioned (layouts twoWidgets)).
  { repeat constructor; try (eexists; reflexivity). }
  split; [exact Hpos|]. split; [exact twoWidgets_alreadyCompact|].
  destruct (compactLayout_stable twoWidgets Hpos twoWidgets_alreadyCompact)
    as (_ & Hid & Hlay).
  split; [exact Hid|exact Hlay].
Defined.

(** ** Further operations *)

Lemma findWidget_None s instanceId :
  findWidget s instanceId = None <->
  forall w, In w (currentWidgets s) -> id w <> instanceId.
Proof.
  unfold findWidget. split.
  - intros H w Hin Hid.
    apply (find_none _ _ H) in Hin. apply String.eqb_neq in Hin. contradiction.
  - intros H. destruct (List.find _ _) eqn:E; [|reflexivity].
    apply find_some in E as [Hin Heq]. apply String.eqb_eq in Heq.
    exfalso. exact (H _ Hin Heq).
Qed.

Lemma find_filter_neg {A} (f : A -> bool) (l : list A) :
  List.find f (List.filter (fun a => negb (f a)) l) = None.
Proof.
  induction l as [|a l IH]; simpl; [reflexivity|].
  destruct (f a) eqn:E; simpl; [exact IH|]. now rewrite E.
Qed.

Lemma last_skipn_snoc {A} (l : list A) (a : A) (n : nat) :
  (n <= length l)%nat -> last (skipn n (l ++ [a])) = Some a.
Proof.
  intros H. rewrite skipn_app.
  replace (n - length l)%nat with O by lia. simpl.
  apply last_snoc.
Qed.

Lemma last_recordLayoutChange c s :
  last (layoutChanges (recordLayoutChange c s)) = Some c.
Proof.
  unfold recordLayoutChange. simpl. apply last_skipn_snoc.
  rewrite length_app. simpl. lia.
Qed.

Lemma length_recordLayoutChange c s :
  (length (layoutChanges (recordLayoutChange c s)) <= 100)%nat.
Proof.
  unfold recordLayoutChange. simpl. rewrite length_skipn. lia.
Qed.

(** X1.  [removeWidget(id)] returns false and changes nothing when no
    listed widget has the id.  Otherwise it returns true and drops every
    widget with that id (not only the first), keeps the others in their
    order with their layouts, leaves the grid alone, records one 'remove'
    change carrying the layout of the first match, and a second call with
    the same id returns false. *)
Theorem removeWidget_removes_every_match :
  forall (s : State) (instanceId : string),
    (findWidget s instanceId = None ->
       removeWidget instanceId s = (false, s)) /\
    (forall widget, findWidget s instanceId = Some widget ->
       exists s',
         removeWidget instanceId s = (true, s') /\
         (forall w, In w (currentWidgets s') <->
                    In w (currentWidgets s) /\ id w <> instanceId) /\
         sublist (currentWidgets s') (currentWidgets s) /\
         getWidgetLayout s' instanceId = None /\
         (forall w, layoutOf s' w = layoutOf s w) /\
         grid (dashboardConfig s') = grid (dashboardConfig s) /\
         last (layoutChanges s')
           = Some {| changeType := Remove; instanceId := instanceId;
                     layout := layoutOf s widget; previousLayout := None |} /\
         removeWidget instanceId s' = (false, s')).
Proof.
  intros s instanceId. split.
  - intros H. unfold removeWidget. unfold findWidget in H. now rewrite H.
  - intros widget H. unfold removeWidget. unfold findWidget in H. rewrite H.
    eexists. split; [reflexivity|].
    set (s' := recordLayoutChange _ _).
    assert (Hws : currentWidgets s'
                  = List.filter (fun w => negb (String.eqb (id w) instanceId))
                      (currentWidgets s)) by reflexivity.
    assert (Hnone : findWidget s' instanceId = None).
    { unfold findWidget. rewrite Hws.
      apply (find_filter_neg (fun w => String.eqb (id w) instanceId)). }
    assert (Hin : forall w, In w (currentWidgets s') <->
                            In w (currentWidgets s) /\ id w <> instanceId).
    { intros w. rewrite Hws, filter_In, negb_true_iff, String.eqb_neq. tauto. }
    split; [exact Hin|].
    split.
    { rewrite Hws. clear. induction (currentWidgets s) as [|a l IH]; simpl.
      - constructor.
      - destruct (negb _); now constructor. }
    split; [unfold getWidgetLayout; now rewrite Hnone|].
    split; [reflexivity|].
    split; [reflexivity|].
    split; [apply last_recordLayoutChange|].
    unfold removeWidget. unfold findWidget in Hnone. now rewrite Hnone.
Qed.

Lemma layoutChanges_updateWidgetLayout instanceId p s :
  (length (layoutChanges s) <= 100)%nat ->
  (length (layoutChanges (snd (updateWidgetLayout instanceId p s))) <= 100)%nat.
Proof.
  intros H. unfold updateWidgetLayout.
  destruct (findWidget s instanceId); [|exact H].
  destruct (negb _); [exact H|].
  destruct (hasOverlap _ _ _).
  - destruct (resolveOverlaps _ _ _); [|exact H].
    apply length_recordLayoutChange.
  - apply length_recordLayoutChange.
Qed.

Lemma history_optimizeLayoutForBreakpoint sv :
  history (optimizeLayoutForBreakpoint sv) = history sv.
Proof.
  unfold optimizeLayoutForBreakpoint, history.
  destruct (allocate _ _ _ _). reflexivity.
Qed.

Lemma history_breakpointChanged bp sv :
  history (breakpointChanged bp sv) = history sv.
Proof.
  unfold breakpointChanged.
  destruct (responsive _); [rewrite history_optimizeLayoutForBreakpoint|]; reflexivity.
Qed.

Lemma history_observe m sv : history (observe m sv) = history sv.
Proof.
  unfold observe. destruct (lastEmitted sv) as [previous|].
  - destruct (String.eqb _ _); [reflexivity|].
    now rewrite history_breakpointChanged.
  - now rewrite history_breakpointChanged.
Qed.

Lemma history_compactLayout s :
  layoutChanges (compactLayout s) = layoutChanges s.
Proof. unfold compactLayout. destruct (compactWidgets _ _). reflexivity. Qed.

Lemma history_perform_bounded o sv :
  (length (history sv) <= 100)%nat -> (length (history (perform o sv)) <= 100)%nat.
Proof.
  intros H. destruct o; simpl.
  - apply length_recordLayoutChange.
  - unfold history, onState. simpl. unfold removeWidget.
    destruct (List.find _ _); [apply length_recordLayoutChange|exact H].
  - now apply layoutChanges_updateWidgetLayout.
  - exact H.
  - now rewrite history_optimizeLayoutForBreakpoint.
  - unfold history, onState. simpl. now rewrite history_compactLayout.
  - unfold history. simpl. lia.
  - now rewrite history_observe.
Qed.

Lemma layoutOf_addWidget inst position s :
  layoutOf (addWidget inst position s) inst = addedLayout inst position s.
Proof.
  unfold addWidget, addedLayout, layoutOf, recordLayoutChange, setWidgets,
    assignLayout. simpl. now rewrite store_eq.
Qed.

Lemma performAll_inv (P : Service -> Prop) ops sv :
  P sv -> (forall o sv', P sv' -> P (perform o sv')) -> P (performAll ops sv).
Proof.
  intros H0 Hstep. revert sv H0.
  induction ops as [|o ops IH]; intros sv H0; simpl; [exact H0|].
  apply IH. now apply Hstep.
Qed.

(** X3.  Whatever sequence of layout manager calls has run, the change
    history holds at most 100 entries; recording a change on a full
    history drops the oldest one, and the change recorded by [addWidget]
    is the newest entry, with the layout the instance now has. *)
Theorem layout_history_keeps_last_100 :
  forall (h : Heap) (next : ref) (ops : list Op),
    let sv := performAll ops (serviceOn h next) in
    (length (history sv) <= 100)%nat /\
    (forall c, history (onState (recordLayoutChange c) sv)
               = skipn (length (history sv) - 99) (history sv) ++ [c]) /\
    (forall inst position,
       last (history (perform (OAddWidget inst position) sv))
       = Some {| changeType := Add; instanceId := id inst;
                 layout := layoutOf (layoutState
                                       (perform (OAddWidget inst position) sv)) inst;
                 previousLayout := None |}).
Proof.
  intros h next ops sv.
  assert (Hb : (length (history sv) <= 100)%nat).
  { subst sv. apply performAll_inv.
    - simpl. lia.
    - intros o sv' H. now apply history_perform_bounded. }
  split; [exact Hb|]. split.
  - intros c. unfold history, onState. simpl. unfold recordLayoutChange. simpl.
    rewrite length_app. simpl.
    rewrite skipn_app.
    replace (length (layoutChanges (layoutState sv)) + 1 - 100)%nat
      with (length (layoutChanges (layoutState sv)) - 99)%nat by lia.
    replace (length (layoutChanges (layoutState sv)) - 99
             - length (layoutChanges (layoutState sv)))%nat with O by lia.
    reflexivity.
  - intros inst position. unfold history.
    change (layoutState (perform (OAddWidget inst position) sv))
      with (addWidget inst position (layoutState sv)).
    rewrite layoutOf_addWidget.
    unfold addWidget. rewrite last_recordLayoutChange. reflexivity.
Qed.

Lemma disjointLayouts_sublist (l1 l2 : list WidgetLayout) :
  sublist l1 l2 -> disjointLayouts l2 -> disjointLayouts l1.
Proof.
  induction 1 as [|a l1 l2 Hsub IH|a l1 l2 Hsub IH]; simpl.
  - trivial.
  - intros [Hall Hd]. split; [|now apply IH].
    rewrite List.Forall_forall in *. intros m Hm. apply Hall.
    apply list_elem_of_In. apply list_elem_of_In in Hm.
    eapply elem_of_sublist; [exact Hm|exact Hsub]. 
  - intros [_ Hd]. now apply IH.
Qed.

Lemma sublist_filter_map {A B} (f : A -> B) (p : A -> bool) (l : list A) :
  sublist (map f (List.filter p l)) (map f l).
Proof.
  induction l as [|a l IH]; simpl; [constructor|].
  destruct (p a); simpl; now constructor.
Qed.

Lemma layouts_removeWidget instanceId s :
  sublist (layouts (snd (removeWidget instanceId s))) (layouts s).
Proof.
  unfold removeWidget. destruct (List.find _ _); simpl; [|reflexivity].
  rewrite layouts_recordLayoutChange. unfold layouts. simpl.
  apply (sublist_filter_map (layoutOf s)).
Qed.

(** X2.  Removing a widget never creates a collision: if no two listed
    widgets collide before [removeWidget], none do afterwards. *)
Theorem removeWidget_keeps_collision_free :
  forall (s : State) (instanceId : string),
    (forall i j a b, i <> j ->
       currentWidgets s !! i = Some a -> currentWidgets s !! j = Some b ->
       collides (layoutOf s a) (layoutOf s b) = false) ->
    let s' := snd (removeWidget instanceId s) in
    forall i j a b, i <> j ->
      currentWidgets s' !! i = Some a -> currentWidgets s' !! j = Some b ->
      collides (layoutOf s' a) (layoutOf s' b) = false.
Proof.
  intros s instanceId H s'.
  assert (Hfree : disjointLayouts (layouts s)).
  { apply disjointLayouts_lookup. intros i j a b Hij Ha Hb.
    unfold layouts in Ha, Hb.
    change (map (layoutOf s) (currentWidgets s))
      with (layoutOf s <$> currentWidgets s) in Ha, Hb.
    rewrite list_lookup_fmap in Ha, Hb.
    destruct (currentWidgets s !! i) as [wa|] eqn:Ea; [|discriminate].
    destruct (currentWidgets s !! j) as [wb|] eqn:Eb; [|discriminate].
    simpl in Ha, Hb. inversion Ha; inversion Hb; subst.
    now apply (H i j). }
  pose proof (disjointLayouts_sublist _ _ (layouts_removeWidget instanceId s) Hfree)
    as Hfree'.
  fold s' in Hfree'. rewrite disjointLayouts_lookup in Hfree'.
  intros i j a b Hij Ha Hb.
  apply (Hfree' i j); [exact Hij| |]; unfold layouts;
    change (map (layoutOf s') (currentWidgets s'))
      with (layoutOf s' <$> currentWidgets s');
    rewrite list_lookup_fmap; [now rewrite Ha|now rewrite Hb].
Qed.

Lemma find_app_fresh {A} (f : A -> bool) (l : list A) (a : A) :
  List.find f l = None -> List.find f (l ++ [a]) = if f a then Some a else None.
Proof.
  induction l as [|b l IH]; simpl; [reflexivity|].
  destruct (f b); [discriminate|]. exact IH.
Qed.

Lemma find_app_found {A} (f : A -> bool) (l l' : list A) (a : A) :
  List.find f l = Some a -> List.find f (l ++ l') = Some a.
Proof.
  induction l as [|b l IH]; simpl; [discriminate|].
  destruct (f b); [trivial|]. exact IH.
Qed.

(** X4.  After [addWidget(instance, position)] under an id no listed
    widget has, [getWidgetLayout(instance.id)] is the instance's layout
    moved to the position (the given one, or the one the search finds), and
    the instance object of the caller carries it too.  A widget listed
    before is still found; its layout is unchanged unless it shares the
    configuration object of the added instance, in which case it now reads
    the new layout. *)
Theorem getWidgetLayout_after_addWidget :
  forall (s : State) (inst : WidgetInstance) (position : option (Z * Z)),
    ~ In (id inst) (map id (currentWidgets s)) ->
    let p := match position with
             | Some p => p
             | None => findOptimalPosition s (layoutOf s inst)
             end in
    let s' := addWidget inst position s in
    getWidgetLayout s' (id inst)
      = Some (withPosition (layoutOf s inst) (fst p) (snd p)) /\
    layoutOf s' inst = withPosition (layoutOf s inst) (fst p) (snd p) /\
    (forall other w, findWidget s other = Some w ->
       findWidget s' other = Some w /\
       (config w <> config inst -> getWidgetLayout s' other = getWidgetLayout s other) /\
       (config w = config inst -> getWidgetLayout s' other = getWidgetLayout s' (id inst))).
Proof.
  intros s inst position Hfresh p s'.
  assert (Hnone : findWidget s (id inst) = None).
  { apply findWidget_None. intros w Hin Hid. apply Hfresh.
    rewrite <- Hid. now apply in_map. }
  assert (Hl : layoutOf s' inst = withPosition (layoutOf s inst) (fst p) (snd p)).
  { subst s'. rewrite layoutOf_addWidget. unfold addedLayout. now destruct position. }
  assert (Hfind : findWidget s' (id inst) = Some inst).
  { unfold findWidget. subst s'. rewrite currentWidgets_addWidget.
    unfold findWidget in Hnone. rewrite (find_app_fresh _ _ _ Hnone).
    now rewrite String.eqb_refl. }
  assert (Hget : getWidgetLayout s' (id inst)
                 = Some (withPosition (layoutOf s inst) (fst p) (snd p))).
  { unfold getWidgetLayout. rewrite Hfind. now rewrite Hl. }
  split; [exact Hget|]. split; [exact Hl|].
  intros other w Hw.
  assert (Hw' : findWidget s' other = Some w).
  { unfold findWidget. subst s'. rewrite currentWidgets_addWidget.
    now apply find_app_found. }
  split; [exact Hw'|]. split.
  - intros Hne. unfold getWidgetLayout. rewrite Hw, Hw'. f_equal.
    subst s'. unfold layoutOf, addWidget. simpl. now apply store_ne.
  - intros Heq. rewrite Hget. unfold getWidgetLayout. rewrite Hw'. f_equal.
    rewrite <- Hl. unfold layoutOf. now rewrite Heq.
Qed.



Lemma optimizeWidgetForBreakpoint_bounds l bp :
  1 <= bpCols bp ->
  1 <= cols (optimizeWidgetForBreakpoint l bp) <= bpCols bp /\
  orZero (x (optimizeWidgetForBreakpoint l bp))
    + cols (optimizeWidgetForBreakpoint l bp) <= bpCols bp.
Proof. unfold optimizeWidgetForBreakpoint. simpl. lia. Qed.

(** X6.  For a breakpoint of at least one column,
    [optimizeWidgetForBreakpoint] yields a layout between 1 and
    [breakpoint.cols] columns wide whose right edge is within the
    breakpoint's columns; a layout that already fits keeps its width and
    its x; a non-negative x stays non-negative; rows and y are untouched;
    and optimizing the result again changes nothing. *)
Theorem optimizeWidgetForBreakpoint_fits :
  forall (l : WidgetLayout) (breakpoint : GridBreakpoint),
    1 <= bpCols breakpoint ->
    let l' := optimizeWidgetForBreakpoint l breakpoint in
    1 <= cols l' <= bpCols breakpoint /\
    orZero (x l') + cols l' <= bpCols breakpoint /\
    (1 <= cols l <= bpCols breakpoint -> cols l' = cols l) /\
    (orZero (x l) + cols l <= bpCols breakpoint -> 1 <= cols l ->
       orZero (x l') = orZero (x l)) /\
    (0 <= orZero (x l) -> 0 <= orZero (x l')) /\
    rows l' = rows l /\ y l' = y l /\
    optimizeWidgetForBreakpoint l' breakpoint = l'.
Proof.
  intros l bp Hbp l'. subst l'. unfold optimizeWidgetForBreakpoint. simpl.
  repeat split; try lia.
  f_equal; [lia|]. f_equal. lia.
Qed.

Lemma In_activeBreakpoint m : In (activeBreakpoint m) breakpoints.
Proof.
  destruct m as [[] [] [] [] []]; vm_compute; tauto.
Qed.

Lemma breakpoints_cols bp : In bp breakpoints -> 1 <= bpCols bp.
Proof.
  simpl. intros [<-|[<-|[<-|[<-|[<-|[]]]]]]; simpl; lia.
Qed.

Lemma optimizeLayoutForBreakpoint_spec sv :
  let sv' := optimizeLayoutForBreakpoint sv in
  let s := layoutState sv in
  let s' := layoutState sv' in
  map id (currentWidgets s') = map id (currentWidgets s) /\
  map config (currentWidgets s') = seq (fresh s) (length (currentWidgets s)) /\
  layouts s' = map (fun l => optimizeWidgetForBreakpoint l (currentBreakpoint sv))
                   (layouts s) /\
  (forall r, (r < fresh s)%nat -> heap s' r = heap s r) /\
  grid (dashboardConfig s') = grid (dashboardConfig s) /\
  currentBreakpoint sv' = currentBreakpoint sv /\
  lastEmitted sv' = lastEmitted sv.
Proof.
  intros sv' s s'. subst sv' s'. unfold optimizeLayoutForBreakpoint. fold s.
  set (ls := map _ (currentWidgets s)).
  assert (Hlen : length ls = length (currentWidgets s))
    by (subst ls; now rewrite length_map).
  pose proof (allocate_spec (heap s) (fresh s) (currentWidgets s) ls Hlen)
    as (Hid & Hcfg & Hls).
  pose proof (allocate_below (heap s) (fresh s) (currentWidgets s) ls) as Hbelow.
  destruct (allocate _ _ _ _) as [out h'] eqn:E. simpl in *.
  split; [exact Hid|]. split; [exact Hcfg|].
  split.
  { unfold layouts, layoutOf, currentWidgets. simpl. rewrite Hls. subst ls.
    now rewrite map_map. }
  split; [intros r Hr; now apply Hbelow|].
  repeat split.
Qed.

(** X7.  When the observers report a breakpoint change, the subscriber
    of [setupResponsiveBreakpoints] takes the first matching breakpoint in
    the order xs, sm, md, lg, xl (lg when none matches), makes it current,
    and sets grid.cols, rowHeight and margin from it, keeping outerMargin
    and responsive.  The widget ids, their order, the change history and
    the configuration objects that existed before are untouched.  On a
    responsive grid every widget is replaced by a copy optimized for the
    breakpoint, at least one column wide and ending within the new
    grid.cols; on a grid that is not responsive the widget list is left as
    it is. *)
Theorem breakpoint_change_refits_widgets :
  forall (sv : Service) (m : Matches),
    let breakpoint := activeBreakpoint m in
    let sv' := breakpointChanged breakpoint sv in
    let s := layoutState sv in
    let s' := layoutState sv' in
    In breakpoint breakpoints /\
    currentBreakpoint sv' = breakpoint /\
    getGridConfig s'
      = {| gridCols := bpCols breakpoint; rowHeight := bpRowHeight breakpoint;
           margin := bpMargin breakpoint;
           outerMargin := outerMargin (getGridConfig s);
           responsive := responsive (getGridConfig s) |} /\
    map id (currentWidgets s') = map id (currentWidgets s) /\
    (forall r, (r < fresh s)%nat -> heap s' r = heap s r) /\
    layoutChanges s' = layoutChanges s /\
    (responsive (getGridConfig s) = true ->
       layouts s' = map (fun l => optimizeWidgetForBreakpoint l breakpoint)
                        (layouts s) /\
       Forall (fun l => 1 <= cols l /\ orZero (x l) + cols l <= currentCols s')
              (layouts s')) /\
    (responsive (getGridConfig s) = false ->
       currentWidgets s' = currentWidgets s).
Proof.
  intros sv m bp sv' s s'.
  pose proof (In_activeBreakpoint m) as Hin. fold bp in Hin.
  pose proof (breakpoints_cols bp Hin) as Hcols.
  split; [exact Hin|].
  subst sv' s'. unfold breakpointChanged.
  set (sv1 := {| layoutState := updateGridConfig _ (layoutState sv);
                 currentBreakpoint := bp; lastEmitted := lastEmitted sv |}).
  change (responsive (getGridConfig (layoutState sv1)))
    with (responsive (getGridConfig s)).
  destruct (responsive (getGridConfig s)) eqn:Hresp.
  - pose proof (optimizeLayoutForBreakpoint_spec sv1)
      as (Hid & _ & Hls & Hheap & Hgrid & Hbp & _).
    simpl in Hid, Hls, Hheap, Hgrid, Hbp.
    split; [exact Hbp|].
    split.
    { unfold getGridConfig. rewrite Hgrid.
      unfold getGridConfig, s in Hresp. now rewrite Hresp. }
    split; [exact Hid|]. split; [exact Hheap|].
    split; [apply (history_optimizeLayoutForBreakpoint sv1)|].
    split; [|discriminate].
    intros _. split; [exact Hls|].
    assert (Hc : currentCols (layoutState (optimizeLayoutForBreakpoint sv1)) = bpCols bp).
    { unfold currentCols. now rewrite Hgrid. }
    rewrite Hc, Hls. apply List.Forall_forall. intros l' Hl'.
    apply in_map_iff in Hl' as (l & <- & _).
    pose proof (optimizeWidgetForBreakpoint_bounds l bp Hcols) as H. tauto.
  - simpl. split; [reflexivity|].
    split. { unfold getGridConfig, s in *. simpl. now rewrite Hresp. }
    split; [reflexivity|]. split; [reflexivity|]. split; [reflexivity|].
    split; [discriminate|]. reflexivity.
Qed.

Lemma lastEmitted_optimizeLayoutForBreakpoint sv :
  lastEmitted (optimizeLayoutForBreakpoint sv) = lastEmitted sv.
Proof. apply (optimizeLayoutForBreakpoint_spec sv). Qed.

Lemma lastEmitted_breakpointChanged bp sv :
  lastEmitted (breakpointChanged bp sv) = lastEmitted sv.
Proof.
  unfold breakpointChanged. destruct (responsive _); [|reflexivity].
  now rewrite lastEmitted_optimizeLayoutForBreakpoint.
Qed.

Lemma lastEmitted_observe m sv :
  exists bp, lastEmitted (observe m sv) = Some bp /\
             bpName bp = bpName (activeBreakpoint m).
Proof.
  unfold observe. destruct (lastEmitted sv) as [previous|] eqn:E.
  - destruct (String.eqb _ _) eqn:Hn.
    + exists previous. split; [exact E|]. now apply String.eqb_eq.
    + exists (activeBreakpoint m). now rewrite lastEmitted_breakpointChanged.
  - exists (activeBreakpoint m). now rewrite lastEmitted_breakpointChanged.
Qed.

(** X8.  A report of the observers that resolves to a breakpoint of the
    same name as the previous one is swallowed by [distinctUntilChanged]:
    the service, and with it every layout, is left exactly as it was. *)
Theorem observe_ignores_same_breakpoint :
  forall (sv : Service) (m1 m2 : Matches),
    bpName (activeBreakpoint m2) = bpName (activeBreakpoint m1) ->
    observe m2 (observe m1 sv) = observe m1 sv.
Proof.
  intros sv m1 m2 Hname.
  destruct (lastEmitted_observe m1 sv) as (bp & Hlast & Hbp).
  unfold observe at 1. rewrite Hlast, Hbp, Hname, String.eqb_refl. reflexivity.
Qed.

Lemma threeWidgets_layouts :
  layouts threeWidgets = [at_ 2 2 0 0; at_ 2 2 2 0; at_ 2 2 4 0].
Proof. vm_compute. reflexivity. Qed.

(** X2, witness: the first of three widgets removed. *)
Lemma removeWidget_keeps_collision_free_witness :
  let s' := snd (removeWidget (id todoWidget) threeWidgets) in
  currentWidgets s' = [graphWidget; testsWidget] /\
  layouts s' = [at_ 2 2 2 0; at_ 2 2 4 0] /\
  collides (layoutOf s' graphWidget) (layoutOf s' testsWidget) = false.
Proof.
  split; [reflexivity|]. split; [vm_compute; reflexivity|].
  apply (removeWidget_keeps_collision_free threeWidgets (id todoWidget))
    with (i := 0%nat) (j := 1%nat); [|lia|reflexivity|reflexivity].
  intros [|[|[|i]]] [|[|[|j]]] a b Hij Ha Hb;
    try discriminate Ha; try discriminate Hb; try (exfalso; now apply Hij);
    inversion Ha; inversion Hb; subst; vm_compute; reflexivity.
Defined.

(** X4, witness: the todo widget added at (3, 4). *)
Lemma getWidgetLayout_after_addWidget_witness :
  getWidgetLayout (addWidget todoWidget (Some (3, 4)) emptyDashboard) (id todoWidget)
  = Some (at_ 2 2 3 4).
Proof.
  apply (getWidgetLayout_after_addWidget emptyDashboard todoWidget (Some (3, 4))).
  simpl. tauto.
Defined.

(** X6, witness: a 4-column widget at x = 10 on the two-column grid. *)
Lemma optimizeWidgetForBreakpoint_fits_witness :
  let l' := optimizeWidgetForBreakpoint (at_ 4 3 10 0)
              {| bpName := "sm"; bpCols := 2; bpRowHeight := 100; bpMargin := 10 |} in
  l' = at_ 2 3 0 0 /\ orZero (x l') + cols l' <= 2.
Proof.
  split; [reflexivity|].
  assert (Hcols : 1 <= bpCols {| bpName := "sm"; bpCols := 2; bpRowHeight := 100;
                                 bpMargin := 10 |}) by (simpl; lia).
  destruct (optimizeWidgetForBreakpoint_fits (at_ 4 3 10 0) _ Hcols) as (_ & H & _).
  exact H.
Defined.

(** X8, witness: md matching alone, then md and lg matching. *)
Lemma observe_ignores_same_breakpoint_witness :
  bpName (activeBreakpoint mediumAndLarge) = "md"%string /\
  observe mediumAndLarge (observe mediumOnly (serviceOn demoHeap 2%nat))
  = observe mediumOnly (serviceOn demoHeap 2%nat).
Proof.
  split; [reflexivity|].
  apply (observe_ignores_same_breakpoint (serviceOn demoHeap 2%nat)
           mediumOnly mediumAndLarge).
  reflexivity.
Defined.

(** ** The collision-free invariant *)

(** Sums of safe numbers are integers below 2^53, which doubles hold
    exactly. *)
Lemma safeLayout_exact (l : WidgetLayout) :
  safeLayout l ->
  Z.abs (orZero (x l) + cols l) < 2 ^ 53 /\
  Z.abs (orZero (y l) + rows l) < 2 ^ 53.
Proof.
  unfold safeLayout, safeNumber. intros (Hc & Hr & Hx & Hy).
  assert (H15 : 10 ^ 15 = 1000000000000000) by reflexivity.
  assert (H53 : 2 ^ 53 = 9007199254740992) by reflexivity.
  lia.
Qed.

Lemma currentWidgets_removeWidget instanceId s :
  sublist (currentWidgets (snd (removeWidget instanceId s))) (currentWidgets s).
Proof.
  unfold removeWidget. destruct (List.find _ _); simpl; [|reflexivity].
  unfold currentWidgets, recordLayoutChange, setWidgets. simpl.
  induction (widgets (dashboardConfig s)) as [|w0 ws IH]; simpl; [constructor|].
  destruct (negb _); now constructor.
Qed.

Lemma sublist_map {A B} (f : A -> B) (l1 l2 : list A) :
  sublist l1 l2 -> sublist (map f l1) (map f l2).
Proof. intros H. now apply (fmap_sublist f). Qed.

Lemma Invariant_removeWidget instanceId s :
  Invariant s -> Invariant (snd (removeWidget instanceId s)).
Proof.
  intros [Hfree Hids Hcfg Hnamed].
  pose proof (currentWidgets_removeWidget instanceId s) as Hsub.
  split.
  - eapply disjointLayouts_sublist; [apply layouts_removeWidget|exact Hfree].
  - eapply sublist_NoDup; [exact Hids|]. now apply sublist_map.
  - eapply sublist_NoDup; [exact Hcfg|]. now apply sublist_map.
  - intros Hin. apply Hnamed. apply list_elem_of_In.
    apply list_elem_of_In in Hin.
    eapply elem_of_sublist; [exact Hin|]. now apply sublist_map.
Qed.

Lemma Invariant_frame (s s' : State) :
  heap s' = heap s -> currentWidgets s' = currentWidgets s ->
  Invariant s -> Invariant s'.
Proof.
  intros Hh Hw [Hfree Hids Hcfg Hnamed].
  split; try now rewrite Hw.
  unfold collisionFree, layouts, layoutOf in *. now rewrite Hh, Hw.
Qed.

Lemma Invariant_updateGridConfig p s :
  Invariant s -> Invariant (updateGridConfig p s).
Proof. now apply Invariant_frame. Qed.

Lemma Invariant_clearLayoutHistory s :
  Invariant s -> Invariant (clearLayoutHistory s).
Proof. now apply Invariant_frame. Qed.

(** A layout that fits the breakpoint keeps its rectangle. *)
Lemma optimizeWidgetForBreakpoint_same l m bp :
  fitsBreakpoint bp l -> fitsBreakpoint bp m ->
  collides (optimizeWidgetForBreakpoint l bp) (optimizeWidgetForBreakpoint m bp)
  = collides l m.
Proof.
  unfold fitsBreakpoint, collides, optimizeWidgetForBreakpoint. simpl.
  intros [Hl1 Hl2] [Hm1 Hm2].
  rewrite !(Z.min_l (cols _) (bpCols bp)) by lia.
  rewrite !(Z.max_r 1 (cols _)) by lia.
  rewrite (Z.min_l (orZero (x l))), (Z.min_l (orZero (x m))) by lia.
  reflexivity.
Qed.

Lemma disjointLayouts_map (f : WidgetLayout -> WidgetLayout) (P : WidgetLayout -> Prop)
    (ls : list WidgetLayout) :
  (forall l m, P l -> P m -> collides (f l) (f m) = collides l m) ->
  Forall P ls -> disjointLayouts ls -> disjointLayouts (map f ls).
Proof.
  intros Hf. induction ls as [|l rest IH]; simpl; [trivial|].
  intros Hall [Hl Hd]. inversion Hall as [|? ? HPl HPrest]; subst.
  split; [|now apply IH].
  rewrite List.Forall_forall in *. intros m' Hm'.
  apply in_map_iff in Hm' as (m & <- & Hm).
  rewrite Hf; [now apply Hl|exact HPl|now apply HPrest].
Qed.

Lemma Invariant_optimizeLayoutForBreakpoint sv :
  Forall (fitsBreakpoint (currentBreakpoint sv)) (layouts (layoutState sv)) ->
  Invariant (layoutState sv) ->
  Invariant (layoutState (optimizeLayoutForBreakpoint sv)).
Proof.
  intros Hfit [Hfree Hids Hcfg Hnamed].
  destruct (optimizeLayoutForBreakpoint_spec sv) as (Hid & Hc & Hl & _).
  split.
  - unfold collisionFree. rewrite Hl.
    eapply disjointLayouts_map; [|exact Hfit|exact Hfree].
    intros l m. apply optimizeWidgetForBreakpoint_same.
  - now rewrite Hid.
  - rewrite Hc. apply NoDup_seq.
  - now rewrite Hid.
Qed.

Lemma Invariant_breakpointChanged breakpoint sv :
  responsive (getGridConfig (layoutState sv)) = false \/
  Forall (fitsBreakpoint breakpoint) (layouts (layoutState sv)) ->
  Invariant (layoutState sv) ->
  Invariant (layoutState (breakpointChanged breakpoint sv)).
Proof.
  intros Hcond Hinv. unfold breakpointChanged.
  set (sv1 := {| layoutState := updateGridConfig _ (layoutState sv);
                 currentBreakpoint := breakpoint;
                 lastEmitted := lastEmitted sv |}).
  assert (H1 : Invariant (layoutState sv1)) by now apply Invariant_updateGridConfig.
  assert (Hresp : responsive (getGridConfig (layoutState sv1))
                  = responsive (getGridConfig (layoutState sv))) by reflexivity.
  destruct (responsive (getGridConfig (layoutState sv1))) eqn:E; [|exact H1].
  destruct Hcond as [Hno|Hfit]; [congruence|].
  now apply Invariant_optimizeLayoutForBreakpoint.
Qed.

Lemma Invariant_observe m sv :
  responsive (getGridConfig (layoutState sv)) = false \/
  Forall (fitsBreakpoint (activeBreakpoint m)) (layouts (layoutState sv)) ->
  Invariant (layoutState sv) ->
  Invariant (layoutState (observe m sv)).
Proof.
  intros Hcond Hinv. unfold observe.
  destruct (lastEmitted sv) as [previous|].
  - destruct (String.eqb _ _); [exact Hinv|].
    now apply Invariant_breakpointChanged.
  - now apply Invariant_breakpointChanged.
Qed.

Lemma Invariant_perform o sv :
  Invariant (layoutState sv) -> allowed o sv ->
  Invariant (layoutState (perform o sv)).
Proof.
  intros Hinv [_ Hall].
  destruct o as [inst position|instanceId|instanceId p|p| | | |m]; simpl in *.
  - destruct Hall as (Hid & Hnew & Hfresh & _ & Hpos).
    apply Invariant_addWidget; try assumption.
    destruct position as [q|]; [tauto|exact I].
  - now apply Invariant_removeWidget.
  - now apply Invariant_updateWidgetLayout.
  - now apply Invariant_updateGridConfig.
  - now apply Invariant_optimizeLayoutForBreakpoint.
  - now apply Invariant_compactLayout.
  - now apply Invariant_clearLayoutHistory.
  - now apply Invariant_observe.
Qed.

Lemma Invariant_performAll ops sv :
  Invariant (layoutState sv) -> admits ops sv ->
  Invariant (layoutState (performAll ops sv)).
Proof.
  revert sv. induction ops as [|o rest IH]; intros sv Hinv Hadm; [exact Hinv|].
  destruct Hadm as [Hall Hadm]. simpl. apply IH; [|exact Hadm].
  now apply Invariant_perform.
Qed.

(** C1 (as the code has it).  From the service as constructed, after
    any sequence of [addWidget], [removeWidget], [updateWidgetLayout],
    [updateGridConfig], [optimizeLayoutForBreakpoint], [compactLayout] and
    [clearLayoutHistory] calls and of breakpoint reports, no two widgets of
    the list collide, provided that at each call the numbers of the
    dashboard and of the call are integers of magnitude at most 10^15, that
    each widget is added once (a non-empty id and a configuration object no
    listed widget has), that a position given to [addWidget] explicitly is
    free, that at each [compactLayout] the widgets fit the grid (none wider
    than it, heights adding up to at most 1000 rows), and that a change of
    breakpoint refits the widgets (the grid is responsive, or
    [optimizeLayoutForBreakpoint] is called) only when every widget already
    fits the columns of the breakpoint.  [addWidget] itself does not check
    a position it is given, and refitting moves widgets without any
    collision test. *)
Theorem collision_free_invariant :
  forall (h : Heap) (next : ref) (ops : list Op),
    admits ops (serviceOn h next) ->
    let s := layoutState (performAll ops (serviceOn h next)) in
    forall i j a b,
      i <> j ->
      currentWidgets s !! i = Some a -> currentWidgets s !! j = Some b ->
      collides (layoutOf s a) (layoutOf s b) = false.
Proof.
  intros h next ops Hadm s i j a b Hij Hi Hj.
  pose proof (Invariant_performAll ops (serviceOn h next)
                (Invariant_initialOn h next) Hadm) as [Hfree _ _ _].
  fold s in Hfree. unfold collisionFree in Hfree.
  rewrite disjointLayouts_lookup in Hfree.
  apply (Hfree i j); [exact Hij| |]; unfold layouts;
    change (map (layoutOf s) (currentWidgets s)) with (layoutOf s <$> currentWidgets s);
    rewrite list_lookup_fmap; [now rewrite Hi|now rewrite Hj].
Qed.

(** A change of breakpoint on a responsive grid makes widgets collide:
    three widgets side by side on twelve columns, the window shrinks to
    the smallest breakpoint, of one column, and all three are refitted to
    column 0 of row 0. *)
Lemma breakpoint_change_collides :
  let sv := {| layoutState := threeWidgets; currentBreakpoint := largeBreakpoint;
               lastEmitted := Some largeBreakpoint |} in
  layouts threeWidgets = [at_ 2 2 0 0; at_ 2 2 2 0; at_ 2 2 4 0] /\
  layouts (layoutState (observe smallestOnly sv))
  = [at_ 1 2 0 0; at_ 1 2 0 0; at_ 1 2 0 0].
Proof. split; vm_compute; reflexivity. Qed.

(** C1, witness: the first breakpoint report (medium, six columns), two
    widgets added by the placement search and one at a free position, one
    moved onto another (and resolved to a free place), one removed, then a
    compaction. *)
Lemma collision_free_invariant_witness :
  let ops := [OObserve mediumOnly;
              OAddWidget todoWidget None;
              OAddWidget graphWidget None;
              OAddWidget testsWidget (Some (4, 0));
              OUpdateWidgetLayout (id graphWidget) (moveTo 0 0);
              ORemoveWidget (id testsWidget);
              OCompactLayout] in
  let sv := performAll ops (serviceOn demoHeap 3%nat) in
  admits ops (serviceOn demoHeap 3%nat) /\
  currentCols (layoutState sv) = 6 /\
  layouts (layoutState sv) = [at_ 2 2 0 0; at_ 2 2 2 0] /\
  forall a b,
    currentWidgets (layoutState sv) !! 0%nat = Some a ->
    currentWidgets (layoutState sv) !! 1%nat = Some b ->
    collides (layoutOf (layoutState sv) a) (layoutOf (layoutState sv) b) = false.
Proof.
  intros ops sv.
  assert (Hadm : admits ops (serviceOn demoHeap 3%nat)).
  { assert (Hsmall : forall n, 0 <= n <= 100 -> safeNumber n).
    { intros n Hn. unfold safeNumber.
      change (10 ^ 15) with 1000000000000000. lia. }
    assert (Hlayout : forall l,
              (0 <= cols l <= 100 /\ 0 <= rows l <= 100) /\
              (0 <= orZero (x l) <= 100 /\ 0 <= orZero (y l) <= 100) ->
              safeLayout l).
    { intros l [[? ?] [? ?]]. repeat split; now apply Hsmall. }
    assert (Hstate : forall s c ls,
              currentCols s = c -> layouts s = ls -> 0 <= c <= 100 ->
              Forall (fun l => (0 <= cols l <= 100 /\ 0 <= rows l <= 100) /\
                               (0 <= orZero (x l) <= 100 /\
                                0 <= orZero (y l) <= 100)) ls ->
              safeState s).
    { intros s c ls <- <- Hc Hls. split; [now apply Hsmall|].
      eapply Forall_impl; [exact Hls|]. exact Hlayout. }
    assert (Hfresh : forall (A : Type) (a : A) (l l' : list A),
              l = l' -> ~ In a l' -> ~ In a l) by (intros; now subst).
    unfold ops. cbn [admits].
    repeat match goal with
           | |- allowed _ _ /\ _ => split
           | |- allowed _ _ =>
               split;
               [eapply Hstate;
                [vm_compute; reflexivity|vm_compute; reflexivity|lia|
                 repeat (constructor; [simpl; lia|]); constructor]|]
           end; try exact I.
    - right. constructor.
    - split; [discriminate|]. split; [simpl; tauto|]. split; [simpl; tauto|].
      split; [|exact I]. apply Hlayout. simpl. lia.
    - split; [discriminate|].
      split; [eapply Hfresh; [vm_compute; reflexivity|simpl; intuition discriminate]|].
      split; [eapply Hfresh; [vm_compute; reflexivity|simpl; intuition discriminate]|].
      split; [|exact I].
      apply Hlayout. vm_compute. repeat split; discriminate.
    - split; [discriminate|].
      split; [eapply Hfresh; [vm_compute; reflexivity|simpl; intuition discriminate]|].
      split; [eapply Hfresh; [vm_compute; reflexivity|simpl; intuition discriminate]|].
      split; [apply Hlayout; vm_compute; repeat split; discriminate|].
      split; [apply Hsmall; simpl; lia|]. split; [apply Hsmall; simpl; lia|].
      vm_compute. reflexivity.
    - intros n [H|[H|[H|[H|[]]]]]; try discriminate H;
        injection H as <-; apply Hsmall; lia.
    - split.
      + assert (Hl : layouts (layoutState (perform (ORemoveWidget (id testsWidget))
                   (perform (OUpdateWidgetLayout (id graphWidget) (moveTo 0 0))
                      (perform (OAddWidget testsWidget (Some (4, 0)))
                         (perform (OAddWidget graphWidget None)
                            (perform (OAddWidget todoWidget None)
                               (perform (OObserve mediumOnly)
                                  (serviceOn demoHeap 3%nat))))))))
                     = [at_ 2 2 0 0; at_ 2 2 0 2]) by (vm_compute; reflexivity).
        rewrite Hl. repeat (constructor; [vm_compute; discriminate|]). constructor.
      + vm_compute. discriminate. }
  split; [exact Hadm|]. split; [vm_compute; reflexivity|].
  split; [vm_compute; reflexivity|].
  intros a b.
  exact (collision_free_invariant demoHeap 3%nat ops Hadm 0%nat 1%nat a b
           ltac:(discriminate)).
Defined.

End LayoutFacts.

(* ===================================================================== *)
(** * Facts: collision helpers of the dashboard component *)
(* ===================================================================== *)

Module DashboardFacts.
Import Js. Import Layout. Import LayoutFacts. Import Dashboard.

Lemma isColliding_collides (w1 w2 : WidgetLayout) :
  isColliding w1 w2 = collides w1 w2.
Proof.
  unfold isColliding, collides. f_equal.
  destruct (orZero (x w1) + cols w1 <=? orZero (x w2)) eqn:A;
  destruct (orZero (x w2) + cols w2 <=? orZero (x w1)) eqn:B;
  destruct (orZero (y w1) + rows w1 <=? orZero (y w2)) eqn:C;
  destruct (orZero (y w2) + rows w2 <=? orZero (y w1)) eqn:D;
  destruct (orZero (x w1) >=? orZero (x w2) + cols w2) eqn:B';
  destruct (orZero (y w1) >=? orZero (y w2) + rows w2) eqn:D';
  simpl; try reflexivity; exfalso; lia.
Qed.

(** X27.  The dashboard component's [isColliding] is the layout
    manager's collision test: it decides the same pairs of layouts, is
    symmetric, and [hasOverlap] is [isColliding] against some listed widget
    other than the excluded one. *)
Theorem isColliding_agrees_with_hasOverlap :
  forall (s : State) (excludeInstanceId : string) (l : WidgetLayout),
    (forall m, isColliding l m = collides l m /\ isColliding l m = isColliding m l) /\
    hasOverlap s excludeInstanceId l
    = existsb (fun w => isColliding l (layoutOf s w))
        (List.filter (fun w => negb (String.eqb (id w) excludeInstanceId))
           (currentWidgets s)).
Proof.
  intros s ex l. split.
  - intros m. split; [apply isColliding_collides|].
    now rewrite !isColliding_collides, collides_sym.
  - unfold hasOverlap.
    induction (List.filter _ (currentWidgets s)) as [|w ws IH]; [reflexivity|].
    simpl. now rewrite isColliding_collides, IH.
Qed.


End DashboardFacts.

(* ===================================================================== *)
(** * Facts: Export and import (dashboard-layout-manager.service.ts, 379-397) *)
(* ===================================================================== *)

Module PersistFacts.
Import Js. Import JsFacts. Import Persist.

Lemma isJson_serializable (v : JsVal) : isJson v = true -> serializable v = true.
Proof. destruct v; simpl; congruence. Qed.

(** A JSON value is its own image. *)
Lemma jsonImage_isJson (v : JsVal) : isJson v = true -> jsonImage v = v.
Proof.
  induction v using JsVal_nested_ind; simpl; try congruence.
  - intros Hall. f_equal.
    induction H as [|i rest Hi Hrest IH]; [reflexivity|].
    simpl in Hall. apply andb_true_iff in Hall as [Hj Hall]. simpl.
    rewrite (isJson_serializable _ Hj), (Hi Hj), (IH Hall). reflexivity.
  - intros Hall. f_equal.
    induction H as [|[k v] rest Hv Hrest IH]; [reflexivity|].
    apply andb_true_iff in Hall as [Hj Hall]. simpl in Hv.
    rewrite (isJson_serializable _ Hj), (Hv Hj), (IH Hall). reflexivity.
Qed.

(** The image is a JSON value. *)
Lemma isJson_jsonImage (v : JsVal) :
  serializable v = true -> isJson (jsonImage v) = true.
Proof.
  induction v using JsVal_nested_ind; simpl; try congruence; intros _.
  - induction H as [|i rest Hi Hrest IH]; [reflexivity|]. simpl.
    rewrite IH, andb_true_r.
    destruct (serializable i) eqn:Hs; [now apply Hi|reflexivity].
  - induction H as [|[k v] rest Hv Hrest IH]; [reflexivity|]. simpl in *.
    destruct (serializable v) eqn:Hs; [|exact IH].
    rewrite IH, andb_true_r. now apply Hv.
Qed.

Lemma member_jsonImage (k : string) (props : Obj) (v : JsVal) :
  lookupProp k props = Some v -> serializable v = true ->
  member k (jsonImage (JObj props)) = jsonImage v.
Proof.
  intros Hk Hs. simpl. unfold getProp.
  induction props as [|[k0 v0] rest IH]; [discriminate|].
  simpl in Hk. destruct (String.eqb k k0) eqn:E.
  - injection Hk as ->. rewrite Hs. simpl. now rewrite E.
  - destruct (serializable v0); simpl; rewrite ?E; now apply IH.
Qed.

Lemma wellFormed_validates (config : JsVal) :
  wellFormed config -> validateDashboardConfig (jsonImage config) = true.
Proof.
  intros (props & i & t & g & ws & -> & Hi & Hin & Ht & Htn & Hg & Hw).
  unfold validateDashboardConfig.
  rewrite (member_jsonImage _ _ _ Hi eq_refl), (member_jsonImage _ _ _ Ht eq_refl),
    (member_jsonImage _ _ _ Hg eq_refl), (member_jsonImage _ _ _ Hw eq_refl).
  simpl. apply String.eqb_neq in Hin, Htn. now rewrite Hin, Htn.
Qed.

(** A configuration whose id or title is empty is exported, and refused
    by the import. *)
Lemma import_refuses_empty (s : State) (props : Obj) (k : string) :
  k = "id"%string \/ k = "title"%string ->
  dashboardConfig s = JObj props ->
  lookupProp k props = Some (JStr "") ->
  importDashboard (exportDashboard s) s = (false, s).
Proof.
  intros Hk Hc Ht. unfold exportDashboard, importDashboard. rewrite Hc.
  simpl serializable. cbv iota. unfold validateDashboardConfig.
  destruct Hk as [-> | ->].
  - rewrite (member_jsonImage "id" props (JStr "") Ht eq_refl). reflexivity.
  - rewrite (member_jsonImage "title" props (JStr "") Ht eq_refl).
    simpl. rewrite andb_false_r. reflexivity.
Qed.

(** C7 (as the code has it).  Take a dashboard configuration with the
    field types of [DashboardConfig] (strings [id] and [title], a [grid]
    object, a [widgets] array) in which no object has a [toJSON] method of
    its own.  If [id] and [title] are non-empty,
    [importDashboard(exportDashboard())] returns true and leaves as
    configuration the JSON image of the exported one: what
    [JSON.parse(JSON.stringify(config))] is, Dates turned into strings,
    functions and undefined properties dropped.  If [id] or [title] is
    empty, it returns false and changes nothing.  The JSON image is the
    exported configuration itself exactly when that one holds JSON data
    only. *)
Theorem import_export_roundtrip :
  forall (s : State) (id title : string),
    noToJSON (dashboardConfig s) = true ->
    typedConfig (dashboardConfig s) id title ->
    (id <> ""%string /\ title <> ""%string ->
       importDashboard (exportDashboard s) s
       = (true, {| dashboardConfig := jsonImage (dashboardConfig s) |})) /\
    (id = ""%string \/ title = ""%string ->
       importDashboard (exportDashboard s) s = (false, s)) /\
    (jsonImage (dashboardConfig s) = dashboardConfig s <->
     isJson (dashboardConfig s) = true).
Proof.
  intros [config] i t _ (props & g & ws & Hc & Hi & Ht & Hg & Hw). simpl in *.
  split; [|split].
  - intros [Hin Htn].
    assert (Hwf : wellFormed config) by (exists props, i, t, g, ws; tauto).
    unfold exportDashboard, importDashboard. cbn [dashboardConfig].
    pose proof (wellFormed_validates _ Hwf) as Hv.
    subst config. simpl serializable. cbv iota. now rewrite Hv.
  - intros [-> | ->].
    + now apply (import_refuses_empty _ props "id"); [left| |].
    + now apply (import_refuses_empty _ props "title"); [right| |].
  - split.
    + intros Himg. rewrite <- Himg. apply isJson_jsonImage. now subst config.
    + apply jsonImage_isJson.
Qed.

(** C7, counterexample.  With one created widget on the dashboard the
    import succeeds, but the configuration it leaves differs from the one
    exported: [createdAt] was a Date and is now a string, and the
    definition has lost its component. *)
Lemma import_export_changes_dates :
  let s := {| dashboardConfig := oneWidgetConfig |} in
  exists s' w w',
    importDashboard (exportDashboard s) s = (true, s') /\
    member "widgets" (dashboardConfig s) = JArr [w] /\
    member "widgets" (dashboardConfig s') = JArr [w'] /\
    member "createdAt" w = JDate "2023-11-14T22:13:20.000Z" /\
    member "createdAt" w' = JStr "2023-11-14T22:13:20.000Z" /\
    member "component" (member "definition" w) = JFunc "TodoWidgetComponent" /\
    member "component" (member "definition" w') = JUndefined /\
    dashboardConfig s' <> dashboardConfig s.
Proof.
  eexists _, _, _. split; [reflexivity|].
  repeat split; try reflexivity. discriminate.
Qed.

(** C7, witness: the dashboard with one created widget.  The import
    succeeds and leaves the JSON image, which is not the configuration
    exported, since that one holds two Dates and a component class. *)
Lemma import_export_roundtrip_witness :
  let s := {| dashboardConfig := oneWidgetConfig |} in
  importDashboard (exportDashboard s) s
    = (true, {| dashboardConfig := jsonImage oneWidgetConfig |}) /\
  isJson oneWidgetConfig = false /\
  jsonImage oneWidgetConfig <> oneWidgetConfig.
Proof.
  intros s.
  assert (Hplain : noToJSON (dashboardConfig s) = true) by reflexivity.
  assert (Htyped : typedConfig (dashboardConfig s) "default" "Dashboard").
  { eexists _, _, _. repeat split; reflexivity. }
  destruct (import_export_roundtrip s "default" "Dashboard" Hplain Htyped)
    as (Hok & _ & Hsame).
  split; [apply Hok; split; discriminate|].
  split; [reflexivity|].
  intros Himg. apply Hsame in Himg. discriminate Himg.
Defined.

(** ** Storage *)


(** X10.  [loadLayout] returns false and changes nothing for a missing
    key, for a stored string that is empty or no JSON text, and for the
    stored text null.  For any stored JSON object it returns true and
    installs the object's [config] property as it is, undefined if absent:
    unlike [importDashboard], which refuses the same configuration, it
    does not call [validateDashboardConfig]. *)
Theorem loadLayout_skips_validation :
  forall (storageKey : string) (storage : Storage) (s : State),
    (mapGet storageKey storage = None -> loadLayout storageKey storage s = (false, s)) /\
    (mapGet storageKey storage = Some NotJson ->
       loadLayout storageKey storage s = (false, s)) /\
    (mapGet storageKey storage = Some (Json JNull) ->
       loadLayout storageKey storage s = (false, s)) /\
    (forall props,
       mapGet storageKey storage = Some (Json (JObj props)) ->
       loadLayout storageKey storage s
         = (true, {| dashboardConfig := getProp "config" props |}) /\
       (validateDashboardConfig (getProp "config" props) = false ->
          importDashboard (Json (getProp "config" props)) s = (false, s))).
Proof.
  intros storageKey storage s. unfold loadLayout.
  split; [intros ->; reflexivity|].
  split; [intros ->; reflexivity|].
  split; [intros ->; reflexivity|].
  intros props ->. split; [reflexivity|].
  intros Hv. unfold importDashboard. now rewrite Hv.
Qed.

Lemma validate_not_undefined config :
  validateDashboardConfig config = true -> serializable config = true.
Proof. destruct config; simpl; try reflexivity; discriminate. Qed.



End PersistFacts.
